(** * Resume parsing and analysis utilities: a verification development

    Shallow embedding of [src/lib/resumeParser.ts]:
    [parseResumeText], [extractKeywordsFromText], [analyzeResumeForJob]
    and [analyzeLinkedInProfile], with the vocabulary tables they read.
    The job generator of the search API that calls them is embedded
    too: [generateJobsForSource] with [extractKeywords],
    [generateJobTitle], [generateRequirements] and the feedback
    pickers.

    Conventions of the embedding.
    - A JavaScript string is a [string]: a sequence of code units, each
      an [ascii] standing for the code unit of the same number
      (U+0000 .. U+00FF).  [toLowerCase], [trim] and the regular
      expression classes are written out for that range.
    - A JavaScript number is the rational ([Q]) it denotes, and every
      arithmetic operation rounds its exact result to the nearest
      binary64 value (53 significant bits, ties to even).  The exponent
      range is left unbounded: overflow and gradual underflow are out of
      reach of array lengths and scores.  A number known to be an
      integer, such as a result of [Math.round], is a [Z].
    - An array is a [list]; [[...new Set(a)]] keeps first occurrences. *)

From Stdlib Require Import List String Ascii Bool Arith ZArith Lia.
From Stdlib Require Import QArith Qround Qpower Lqa.
From Stdlib Require Import DecimalString DecimalNat.
Import ListNotations.

Local Open Scope nat_scope.
Local Open Scope list_scope.
Local Open Scope string_scope.

(* ================================================================= *)
(** ** JavaScript string primitives *)

Module JsString.

(** Code unit number of a character. *)
Definition code (c : ascii) : nat := nat_of_ascii c.

Definition between (lo hi n : nat) : bool :=
  Nat.leb lo n && Nat.leb n hi.

(** [String.prototype.toLowerCase] on one code unit: A-Z, and the
    Latin-1 capitals U+00C0 .. U+00DE except the multiplication sign. *)
Definition lowerChar (c : ascii) : ascii :=
  let n := code c in
  if between 65 90 n || (between 192 222 n && negb (Nat.eqb n 215))
  then ascii_of_nat (n + 32)
  else c.

Fixpoint toLowerCase (s : string) : string :=
  match s with
  | EmptyString => EmptyString
  | String c r => String (lowerChar c) (toLowerCase r)
  end.

(** Canonicalisation used by the [i] flag of a regular expression
    (upper-casing that stays inside the same range of code units). *)
Definition canonChar (c : ascii) : ascii :=
  let n := code c in
  if between 97 122 n || (between 224 254 n && negb (Nat.eqb n 247))
  then ascii_of_nat (n - 32)
  else c.

(** White space and line terminators, as [trim] and [\s] see them. *)
Definition isWhiteSpace (c : ascii) : bool :=
  let n := code c in
  between 9 13 n || Nat.eqb n 32 || Nat.eqb n 160.

Definition isDigit (c : ascii) : bool := between 48 57 (code c).

Fixpoint trimStart (s : string) : string :=
  match s with
  | EmptyString => EmptyString
  | String c r => if isWhiteSpace c then trimStart r else s
  end.

Fixpoint trimEnd (s : string) : string :=
  match s with
  | EmptyString => EmptyString
  | String c r =>
      match trimEnd r with
      | EmptyString => if isWhiteSpace c then EmptyString
                       else String c EmptyString
      | r' => String c r'
      end
  end.

Definition trim (s : string) : string := trimEnd (trimStart s).

(** [s.startsWith(t)]. *)
Fixpoint startsWith (t s : string) : bool :=
  match t, s with
  | EmptyString, _ => true
  | String _ _, EmptyString => false
  | String a t', String b s' => Ascii.eqb a b && startsWith t' s'
  end.

(** [s.includes(t)]: [t] occurs in [s] at some index. *)
Fixpoint includes (s t : string) : bool :=
  startsWith t s ||
  match s with
  | EmptyString => false
  | String _ r => includes r t
  end.

(** [a.join(sep)]. *)
Definition join (sep : string) (a : list string) : string :=
  String.concat sep a.

(** [s.split(' ')]: the pieces between single spaces; never empty. *)
Fixpoint splitSpace (s : string) : list string :=
  match s with
  | EmptyString => [EmptyString]
  | String c r =>
      if Ascii.eqb c " "%char then EmptyString :: splitSpace r
      else match splitSpace r with
           | [] => [String c EmptyString]
           | h :: t => String c h :: t
           end
  end.

(** Decimal rendering of an array length inside a template literal. *)
Definition ofNat (n : nat) : string :=
  NilZero.string_of_uint (Nat.to_uint n).

End JsString.

(* ================================================================= *)
(** ** JavaScript array primitives *)

Module JsArray.

(** [a.slice(0, n)]. *)
Definition slice0 {A} (n : nat) (a : list A) : list A := firstn n a.

(** [a.slice(-n)]: the last [n] elements. *)
Definition sliceLast {A} (n : nat) (a : list A) : list A :=
  skipn (List.length a - n) a.

(** [a.some(p)]. *)
Definition some {A} (p : A -> bool) (a : list A) : bool := existsb p a.

(** [[...new Set(a)]]: insertion order, first occurrence kept. *)
Fixpoint fromSet (a : list string) : list string :=
  match a with
  | [] => []
  | x :: r => x :: filter (fun y => negb (String.eqb x y)) (fromSet r)
  end.

End JsArray.

Import JsString JsArray.

(* ================================================================= *)
(** ** Regular expressions of [METRICS_PATTERNS]

    A backtracking matcher with the ECMAScript reading of the
    operators the patterns use: greedy quantifiers, ordered
    alternation, and [String.prototype.match] under the [g] flag
    (every match, left to right, none overlapping). *)

Module JsRegExp.

(** Atoms that consume exactly one character. *)
Inductive atom : Type :=
| Lit (c : ascii)              (* a literal character *)
| Digit                        (* \d *)
| Space.                       (* \s *)

Inductive regex : Type :=
| One (a : atom)
| OneOf (members : list atom)  (* [ ... ] *)
| Empty                        (* the empty pattern *)
| Seq (r1 r2 : regex)
| Alt (r1 r2 : regex)
| Opt (r : regex)              (* r? *)
| Star (r : regex)             (* r* *)
| Plus (r : regex).            (* r+ *)

(** A literal word, character by character. *)
Fixpoint word (s : string) : regex :=
  match s with
  | EmptyString => Empty
  | String c EmptyString => One (Lit c)
  | String c r => Seq (One (Lit c)) (word r)
  end.

(** [a|b|...|z] *)
Fixpoint alts (first : regex) (rest : list regex) : regex :=
  match rest with
  | [] => first
  | r :: rs => Alt first (alts r rs)
  end.

Definition sameChar (ignoreCase : bool) (a b : ascii) : bool :=
  if ignoreCase then Ascii.eqb (canonChar a) (canonChar b)
  else Ascii.eqb a b.

(** Does a one-character atom accept [c]? *)
Definition accepts (ignoreCase : bool) (a : atom) (c : ascii) : bool :=
  match a with
  | Lit l => sameChar ignoreCase c l
  | Digit => isDigit c
  | Space => isWhiteSpace c
  end.

Section Matcher.
Variable ignoreCase : bool.

(** [run r s k]: match [r] at the head of [s], then continue with
    [k] on what is left; [None] makes the matcher back up. *)
Fixpoint run (r : regex) (s : string)
         (k : string -> option string) {struct r} : option string :=
  let one (ok : ascii -> bool) :=
    match s with
    | String c rest => if ok c then k rest else None
    | EmptyString => None
    end in
  let orElse (x y : option string) :=
    match x with Some _ => x | None => y end in
  (* greedy iteration; an iteration that consumes nothing is dropped *)
  let iterate (body : string -> (string -> option string) -> option string) :=
    fix loop (fuel : nat) (s0 : string) {struct fuel} : option string :=
      match fuel with
      | O => k s0
      | S fuel' =>
          orElse
            (body s0 (fun s1 =>
               if Nat.ltb (String.length s1) (String.length s0)
               then loop fuel' s1 else None))
            (k s0)
      end in
  match r with
  | One a => one (accepts ignoreCase a)
  | OneOf l => one (fun c => existsb (fun a => accepts ignoreCase a c) l)
  | Empty => k s
  | Seq r1 r2 => run r1 s (fun s1 => run r2 s1 k)
  | Alt r1 r2 => orElse (run r1 s k) (run r2 s k)
  | Opt r1 => orElse (run r1 s k) (k s)
  | Star r1 => iterate (run r1) (String.length s) s
  | Plus r1 =>
      run r1 s (fun s1 => iterate (run r1) (String.length s1) s1)
  end.

(** One attempt at the head of [s]: what is left after the match. *)
Definition matchHere (r : regex) (s : string) : option string :=
  run r s (fun rest => Some rest).

Definition dropOne (s : string) : string :=
  match s with
  | EmptyString => EmptyString
  | String _ r => r
  end.

(** All matches from the head of [s] on. *)
Fixpoint scan (fuel : nat) (r : regex) (s : string) : list string :=
  match fuel with
  | O => []
  | S fuel' =>
      match matchHere r s with
      | Some rest =>
          let n := String.length s - String.length rest in
          String.substring 0 n s ::
            match s with
            | EmptyString => []
            | String _ _ =>
                scan fuel' r (if Nat.eqb n 0 then dropOne s else rest)
            end
      | None =>
          match s with
          | EmptyString => []
          | String _ t => scan fuel' r t
          end
      end
  end.

End Matcher.

(** A pattern with its flags; all of [METRICS_PATTERNS] are global. *)
Record pattern : Type := mkPattern { source : regex; ignoreCaseFlag : bool }.

(** [text.match(p)] for a global [p]: [None] is JavaScript's [null]. *)
Definition matchGlobal (p : pattern) (text : string) : option (list string) :=
  match scan (ignoreCaseFlag p) (S (String.length text)) (source p) text with
  | [] => None
  | ms => Some ms
  end.

End JsRegExp.

Import JsRegExp.

(* ================================================================= *)
(** ** Numbers *)

Module JsNumber.

Definition pow2 (z : Z) : Q := (2 ^ z)%Q.

(** Binary exponent of a positive rational [x]:
    [2^e <= x < 2^(e+1)]. *)
Definition exponent (x : Q) : Z :=
  let k := (Z.log2 (Qnum x) - Z.log2 (Zpos (Qden x)))%Z in
  if Qle_bool (pow2 k) x then k else (k - 1)%Z.

(** Nearest integer, a tie going to the even one. *)
Definition roundHalfEven (q : Q) : Z :=
  let f := Qfloor q in
  match (q - inject_Z f ?= 1 # 2)%Q with
  | Lt => f
  | Gt => (f + 1)%Z
  | Eq => if Z.even f then f else (f + 1)%Z
  end.

(** Spacing of the doubles in the binade of [x]. *)
Definition ulp (x : Q) : Q := pow2 (exponent x - 52).

(** Nearest double of a positive rational. *)
Definition nearest (x : Q) : Q :=
  Qred (inject_Z (roundHalfEven (x / ulp x)) * ulp x).

(** Nearest double of any rational. *)
Definition rnd (x : Q) : Q :=
  match (x ?= 0)%Q with
  | Eq => 0%Q
  | Gt => nearest x
  | Lt => (- nearest (- x))%Q
  end.

(** The operators [+], [*] and [/] on numbers. *)
Definition add (x y : Q) : Q := rnd (x + y).
Definition mul (x y : Q) : Q := rnd (x * y).
Definition div (x y : Q) : Q := rnd (x / y).

(** An integer as a number (exact below [2^53]). *)
Definition ofZ (z : Z) : Q := inject_Z z.

(** [a.length] as a number. *)
Definition ofLength (n : nat) : Q := ofZ (Z.of_nat n).

(** [Math.round]: the nearest integer, a half going up. *)
Definition round (x : Q) : Z := Qfloor (x + (1 # 2))%Q.

End JsNumber.

Import JsNumber.

(** The rounding operators are written in brackets, the exact ones of
    [Q] without. *)
Infix "[+]" := add (at level 50, left associativity).
Infix "[*]" := mul (at level 40, left associativity).
Infix "[/]" := div (at level 40, left associativity).

(* ================================================================= *)
(** ** Vocabulary tables *)

(** Common tech skills and keywords for job matching. *)
Definition TECH_SKILLS : list string :=
  [ "javascript"; "typescript"; "python"; "java"; "c++"; "c#"; "go"; "rust";
    "ruby"; "php"; "swift"; "kotlin";
    "react"; "angular"; "vue"; "svelte"; "next.js"; "node.js"; "express";
    "django"; "flask"; "fastapi"; "spring";
    "aws"; "azure"; "gcp"; "docker"; "kubernetes"; "terraform"; "jenkins";
    "ci/cd"; "devops";
    "sql"; "postgresql"; "mysql"; "mongodb"; "redis"; "elasticsearch";
    "graphql"; "rest api";
    "machine learning"; "deep learning"; "tensorflow"; "pytorch";
    "scikit-learn"; "nlp"; "computer vision";
    "git"; "agile"; "scrum"; "jira"; "confluence"; "figma"; "sketch";
    "html"; "css"; "sass"; "tailwind"; "bootstrap"; "webpack"; "vite";
    "testing"; "jest"; "cypress"; "selenium"; "unit testing";
    "integration testing";
    "microservices"; "api design"; "system design"; "distributed systems";
    "scalability";
    "data analysis"; "data visualization"; "tableau"; "power bi"; "excel";
    "pandas"; "numpy";
    "leadership"; "management"; "communication"; "problem-solving";
    "teamwork"; "collaboration" ].

(** Action verbs that indicate strong resume writing. *)
Definition ACTION_VERBS : list string :=
  [ "achieved"; "built"; "created"; "delivered"; "developed"; "designed";
    "established";
    "generated"; "implemented"; "improved"; "increased"; "launched"; "led";
    "managed";
    "optimized"; "reduced"; "resolved"; "scaled"; "spearheaded";
    "streamlined"; "transformed" ].

(** [\d+\+?\s*(w1|w2|...)] with the [i] flag: a count of something. *)
Definition countOf (w : string) (ws : list string) : pattern :=
  mkPattern
    (Seq (Plus (One Digit))
       (Seq (Opt (One (Lit "+")))
          (Seq (Star (One Space)) (alts (word w) (map word ws)))))
    true.

(** Metrics patterns. *)
Definition METRICS_PATTERNS : list pattern :=
  [ (* /\d+%/g : percentages *)
    mkPattern (Seq (Plus (One Digit)) (One (Lit "%"))) false;
    (* /\$[\d,]+/g : dollar amounts *)
    mkPattern (Seq (One (Lit "$")) (Plus (OneOf [Digit; Lit ","]))) false;
    (* /\d+x/g : multipliers *)
    mkPattern (Seq (Plus (One Digit)) (One (Lit "x"))) false;
    (* /\d+\+?\s*(users|customers|clients|employees|team members)/gi *)
    countOf "users" ["customers"; "clients"; "employees"; "team members"];
    (* /\d+\+?\s*(years|months)/gi : time periods *)
    countOf "years" ["months"];
    (* /\d+\+?\s*(projects|applications|systems|features)/gi *)
    countOf "projects" ["applications"; "systems"; "features"] ].

(* ================================================================= *)
(** ** Data model *)

Record ParsedResume : Type := mkParsedResume {
  rawText : string;
  skills : list string;
  experience : list string;
  education : list string;
  certifications : list string;
  keywords : list string;
  metrics : list string
}.

Record ResumeAnalysis : Type := mkResumeAnalysis {
  resumeScore : Z;
  matchingKeywords : list string;
  missingKeywords : list string;
  matchingSkills : list string;
  missingSkills : list string;
  strengthsFound : list string;
  improvementAreas : list string;
  metricsSuggestions : list string;
  keywordDensity : Z;
  overallFeedback : string
}.

(** The field [overallFeedback] of [LinkedInAnalysis] lives in its own
    name space, [ResumeAnalysis] having a field of the same name. *)
Module LinkedIn.
Record LinkedInAnalysis : Type := mkLinkedInAnalysis {
  linkedinScore : Z;
  headlineSuggestion : string;
  summaryFeedback : list string;
  endorsementSuggestions : list string;
  skillGaps : list string;
  improvements : list string;
  overallFeedback : string
}.
End LinkedIn.

(* ================================================================= *)
(** ** [parseResumeText] *)

(** The [METRICS_PATTERNS.forEach] loop: matches of each pattern are
    pushed in pattern order. *)
Definition extractMetrics (text : string) : list string :=
  fold_left
    (fun (metrics : list string) (p : pattern) =>
       match matchGlobal p text with
       | Some matches => (metrics ++ matches)%list
       | None => metrics
       end)
    METRICS_PATTERNS [].

Definition experienceIndicators : list string :=
  [ "experience"; "work history"; "employment"; "professional background" ].

Definition educationKeywords : list string :=
  [ "bachelor"; "master"; "phd"; "degree"; "university"; "college";
    "certification"; "certified" ].

Definition certKeywords : list string :=
  [ "aws certified"; "google certified"; "microsoft certified"; "pmp";
    "scrum master"; "cissp"; "cka"; "ckad" ].

Definition parseResumeText (text : string) : ParsedResume :=
  let lowerText := toLowerCase text in
  (* skills found in resume *)
  let skills :=
    filter (fun skill => includes lowerText (toLowerCase skill)) TECH_SKILLS in
  (* keywords (including action verbs) *)
  let keywords :=
    (skills ++
     filter (fun verb => includes lowerText (toLowerCase verb)) ACTION_VERBS)%list in
  let metrics := extractMetrics text in
  (* experience sections: pushed one by one *)
  let experience :=
    fold_left
      (fun acc indicator =>
         if includes lowerText indicator then (acc ++ [indicator])%list else acc)
      experienceIndicators [] in
  let education := filter (fun edu => includes lowerText edu) educationKeywords in
  let certifications :=
    filter (fun cert => includes lowerText cert) certKeywords in
  {| rawText := text;
     skills := skills;
     experience := experience;
     education := education;
     certifications := certifications;
     keywords := keywords;
     metrics := metrics |}.

(* ================================================================= *)
(** ** [extractKeywordsFromText] *)

(** Common job-related terms. *)
Definition jobTerms : list string :=
  [ "remote"; "hybrid"; "onsite"; "full-time"; "contract";
    "senior"; "junior"; "lead"; "principal"; "staff"; "manager";
    "startup"; "enterprise"; "b2b"; "b2c"; "saas";
    "cross-functional"; "stakeholder"; "roadmap"; "strategy";
    "analytics"; "metrics"; "kpi"; "okr"; "roi" ].

(** One [forEach] that pushes the terms of [vocabulary] found in [text]. *)
Definition pushPresent (text : string) (vocabulary keywords : list string)
  : list string :=
  fold_left
    (fun acc term =>
       if includes text (toLowerCase term) then (acc ++ [term])%list else acc)
    vocabulary keywords.

Definition extractKeywordsFromText (text : string) : list string :=
  let keywords := [] in
  let keywords := pushPresent text TECH_SKILLS keywords in
  let keywords := pushPresent text jobTerms keywords in
  fromSet keywords.

(* ================================================================= *)
(** ** [analyzeResumeForJob] *)

(** [a.toLowerCase() === b.toLowerCase()] *)
Definition sameName (a b : string) : bool :=
  String.eqb (toLowerCase a) (toLowerCase b).

(** The template literal
    [`${jobTitle} ${jobDescription} ${jobRequirements.join(' ')}`.toLowerCase()] *)
Definition jobTextOf (jobTitle jobDescription : string)
           (jobRequirements : list string) : string :=
  toLowerCase
    (jobTitle ++ " " ++ jobDescription ++ " " ++ join " " jobRequirements).

Definition jobSkillsOf (jobText : string) : list string :=
  filter (fun skill => includes jobText (toLowerCase skill)) TECH_SKILLS.

Definition matchingSkillsOf (resume : ParsedResume) (jobSkills : list string)
  : list string :=
  filter (fun skill => some (fun js => sameName js skill) jobSkills)
         (skills resume).

Definition missingSkillsOf (resume : ParsedResume) (jobSkills : list string)
  : list string :=
  filter (fun skill => negb (some (fun rs => sameName rs skill) (skills resume)))
         jobSkills.

Definition matchingKeywordsOf (resumeKeywords jobKeywords : list string)
  : list string :=
  filter (fun kw => some (fun jk => sameName jk kw) jobKeywords) resumeKeywords.

Definition missingKeywordsOf (resumeKeywords jobKeywords : list string)
  : list string :=
  slice0 8
    (filter (fun kw => negb (some (fun rk => sameName rk kw) resumeKeywords))
            jobKeywords).

(** [total > 0 ? matching / total : 0.5] *)
Definition matchRatio (matching total : list string) : Q :=
  if Nat.ltb 0 (List.length total)
  then ofLength (List.length matching) [/] ofLength (List.length total)
  else (1 # 2)%Q.

Definition hasActionVerbsIn (resumeText : string) : bool :=
  some (fun verb => includes resumeText verb) ACTION_VERBS.

(** [(flag ? points : 0)] *)
Definition bonus (flag : bool) (points : Z) : Q :=
  if flag then ofZ points else ofZ 0.

(** The double quote of the suggestions that cite an example. *)
Definition dq : string := String (ascii_of_nat 34) EmptyString.

Definition scoreOf (skillMatchRatio keywordMatchRatio : Q)
           (hasMetrics hasActionVerbs hasCertifications : bool) : Z :=
  let resumeScore :=
    round (skillMatchRatio [*] ofZ 40 [+]     (* 40% weight on skills *)
           keywordMatchRatio [*] ofZ 30 [+]   (* 30% weight on keywords *)
           bonus hasMetrics 15 [+]           (* 15% for having metrics *)
           bonus hasActionVerbs 10 [+]       (* 10% for action verbs *)
           bonus hasCertifications 5)       (* 5% for certifications *) in
  (* ensure score is between 0-100 *)
  Z.max 0 (Z.min 100 resumeScore).

Definition resumeBand (resumeScore : Z) : string :=
  if (80 <=? resumeScore)%Z then
    "Excellent match! Your resume aligns very well with this position. Focus on tailoring your cover letter to stand out."
  else if (60 <=? resumeScore)%Z then
    "Good match with room for improvement. Consider highlighting the matching skills more prominently and addressing the missing keywords."
  else if (40 <=? resumeScore)%Z then
    "Moderate match. You may need to emphasize transferable skills and add more relevant keywords to strengthen your application."
  else
    "This role may require significant resume tailoring. Focus on highlighting any relevant experience and consider gaining the missing skills.".

(** [if (cond) a.push(item)] *)
Definition pushIf (cond : bool) (item : string) (a : list string) : list string :=
  if cond then (a ++ [item])%list else a.

Definition analyzeResumeForJob (resume : ParsedResume)
           (jobTitle jobDescription : string) (jobRequirements : list string)
  : ResumeAnalysis :=
  let jobText := jobTextOf jobTitle jobDescription jobRequirements in
  let resumeText := toLowerCase (rawText resume) in
  (* job keywords *)
  let jobSkills := jobSkillsOf jobText in
  (* matching and missing keywords *)
  let matchingSkills := matchingSkillsOf resume jobSkills in
  let missingSkills := missingSkillsOf resume jobSkills in
  let jobKeywords := extractKeywordsFromText jobText in
  let resumeKeywords := extractKeywordsFromText resumeText in
  let matchingKeywords := matchingKeywordsOf resumeKeywords jobKeywords in
  let missingKeywords := missingKeywordsOf resumeKeywords jobKeywords in
  (* scores *)
  let skillMatchRatio := matchRatio matchingSkills jobSkills in
  let keywordMatchRatio := matchRatio matchingKeywords jobKeywords in
  let hasMetrics := Nat.ltb 0 (List.length (metrics resume)) in
  let hasActionVerbs := hasActionVerbsIn resumeText in
  let resumeScore :=
    scoreOf skillMatchRatio keywordMatchRatio hasMetrics hasActionVerbs
            (Nat.ltb 0 (List.length (certifications resume))) in
  (* strengths *)
  let strengthsFound := [] in
  let strengthsFound :=
    pushIf (Nat.leb 3 (List.length matchingSkills))
      ("Strong technical skill alignment (" ++
       ofNat (List.length matchingSkills) ++ " matching skills)")
      strengthsFound in
  let strengthsFound :=
    pushIf (Nat.leb 2 (List.length (metrics resume)))
      "Good use of quantifiable metrics and achievements" strengthsFound in
  let strengthsFound :=
    pushIf hasActionVerbs
      "Effective use of action verbs to describe accomplishments"
      strengthsFound in
  let strengthsFound :=
    pushIf (Nat.ltb 0 (List.length (certifications resume)))
      ("Relevant certifications found (" ++
       join ", " (certifications resume) ++ ")")
      strengthsFound in
  let strengthsFound :=
    pushIf (Nat.leb 5 (List.length matchingKeywords))
      "Strong keyword alignment with job description" strengthsFound in
  (* improvement areas *)
  let improvementAreas := [] in
  let improvementAreas :=
    pushIf (Nat.ltb 0 (List.length missingSkills))
      ("Add these in-demand skills if you have them: " ++
       join ", " (slice0 4 missingSkills))
      improvementAreas in
  let improvementAreas :=
    pushIf (Nat.ltb (List.length (metrics resume)) 2)
      "Include more quantifiable achievements (percentages, dollar amounts, user counts)"
      improvementAreas in
  let improvementAreas :=
    pushIf (negb hasActionVerbs)
      "Start bullet points with strong action verbs (Led, Developed, Achieved, etc.)"
      improvementAreas in
  let improvementAreas :=
    pushIf (Nat.ltb 3 (List.length missingKeywords))
      ("Consider incorporating these keywords: " ++
       join ", " (slice0 4 missingKeywords))
      improvementAreas in
  (* metrics suggestions *)
  let metricsSuggestions := [] in
  let metricsSuggestions :=
    pushIf (includes jobText "team" || includes jobText "lead")
      ("Add team size you've managed or collaborated with (e.g., " ++ dq ++
       "Led a team of 8 engineers" ++ dq ++ ")")
      metricsSuggestions in
  let metricsSuggestions :=
    pushIf (includes jobText "performance" || includes jobText "optimization")
      ("Include performance improvements (e.g., " ++ dq ++
       "Improved load time by 40%" ++ dq ++ ")")
      metricsSuggestions in
  let metricsSuggestions :=
    pushIf (includes jobText "revenue" || includes jobText "cost")
      ("Add business impact metrics (e.g., " ++ dq ++
       "Reduced costs by $50K annually" ++ dq ++ ")")
      metricsSuggestions in
  let metricsSuggestions :=
    pushIf (includes jobText "user" || includes jobText "customer")
      ("Include user/customer impact (e.g., " ++ dq ++
       "Served 100K+ daily active users" ++ dq ++ ")")
      metricsSuggestions in
  let metricsSuggestions :=
    pushIf (includes jobText "project" || includes jobText "delivery")
      ("Mention project delivery metrics (e.g., " ++ dq ++
       "Delivered 15 features ahead of schedule" ++ dq ++ ")")
      metricsSuggestions in
  (* overall feedback *)
  let overallFeedback := resumeBand resumeScore in
  {| resumeScore := resumeScore;
     matchingKeywords := slice0 10 (fromSet matchingKeywords);
     missingKeywords := slice0 8 (fromSet missingKeywords);
     matchingSkills := fromSet matchingSkills;
     missingSkills := slice0 6 (fromSet missingSkills);
     strengthsFound := slice0 4 strengthsFound;
     improvementAreas := slice0 4 improvementAreas;
     metricsSuggestions := slice0 3 metricsSuggestions;
     keywordDensity := round (keywordMatchRatio [*] ofZ 100);
     overallFeedback := overallFeedback |}.

(* ================================================================= *)
(** ** [analyzeLinkedInProfile] *)

(** [linkedinUrl && linkedinUrl.trim().length > 0], read for its truth. *)
Definition hasProfileOf (linkedinUrl : string) : bool :=
  negb (String.eqb linkedinUrl EmptyString) &&
  Nat.ltb 0 (String.length (trim linkedinUrl)).

(** The profile completeness indicators read off the URL. *)
Definition urlIndicatorsOf (urlLower : string) : list bool :=
  [ includes urlLower "/in/";             (* standard LinkedIn URL *)
    Nat.ltb 30 (String.length urlLower) ]. (* likely to be complete URL *)

Definition linkedinScoreOf (linkedinUrl : string)
           (resumeAnalysis : option ResumeAnalysis) : Z :=
  let hasProfile := hasProfileOf linkedinUrl in
  let urlLower := toLowerCase linkedinUrl in
  let linkedinScore := 50%Z in  (* base score if profile provided *)
  if hasProfile then
    let urlIndicators := urlIndicatorsOf urlLower in
    let completenessScore :=
      (Z.of_nat (List.length (filter (fun b : bool => b) urlIndicators)) * 25)%Z in
    let linkedinScore := Z.min 100 (50 + completenessScore) in
    match resumeAnalysis with
    | Some ra =>
        (* boost score if resume is strong *)
        round ((ofZ linkedinScore [+] ofZ (resumeScore ra)) [/] ofZ 2)
    | None => linkedinScore
    end
  else linkedinScore.

Definition linkedinBand (hasProfile : bool) (linkedinScore : Z) : string :=
  if negb hasProfile then
    "LinkedIn profile is missing or incomplete. A complete profile significantly improves your visibility to recruiters."
  else if (80 <=? linkedinScore)%Z then
    "Excellent LinkedIn profile! Keep it updated and consistent with your resume."
  else if (60 <=? linkedinScore)%Z then
    "Good LinkedIn foundation. Add more specific accomplishments and get skill endorsements."
  else
    "Your LinkedIn profile needs attention. Update it with recent experience and stronger positioning.".

Definition analyzeLinkedInProfile (linkedinUrl jobTitle jobDescription : string)
           (jobRequirements : list string)
           (resumeAnalysis : option ResumeAnalysis)
  : LinkedIn.LinkedInAnalysis :=
  let hasProfile := hasProfileOf linkedinUrl in
  let jobText := jobTextOf jobTitle jobDescription jobRequirements in
  let jobSkills := jobSkillsOf jobText in
  let linkedinScore := linkedinScoreOf linkedinUrl resumeAnalysis in
  (* headline suggestion *)
  let jobRole := join " " (sliceLast 2 (splitSpace jobTitle)) in
  let headlineSuggestion :=
    match resumeAnalysis with
    | Some ra =>
        if Nat.ltb 0 (List.length (matchingSkills ra)) then
          let topSkills := join " & " (slice0 2 (matchingSkills ra)) in
          jobRole ++ " | " ++ topSkills ++ " | Open to Opportunities"
        else jobRole ++ " | Experienced Professional | Always Learning"
    | None => jobRole ++ " | Experienced Professional | Always Learning"
    end in
  (* summary feedback *)
  let summaryFeedback :=
    if negb hasProfile then
      [ "Create or complete your LinkedIn profile with a professional photo and comprehensive headline";
        "Add a compelling summary highlighting your career goals and key achievements" ]
    else
      [ "Update your headline to match this role: " ++ headlineSuggestion;
        "Include specific accomplishments and metrics in your summary section";
        "Mention industry experience and key projects you've worked on" ] in
  (* endorsement suggestions: skills to highlight *)
  let endorsementSuggestions :=
    match resumeAnalysis with
    | Some ra => slice0 5 (matchingSkills ra)
    | None => slice0 5 jobSkills
    end in
  (* skill gaps *)
  let skillGaps :=
    match resumeAnalysis with
    | Some ra => slice0 4 (missingSkills ra)
    | None => slice0 4 jobSkills
    end in
  (* general improvements *)
  let improvements :=
    [ "Add detailed job descriptions with quantifiable results";
      "Get endorsements for skills matching this job role";
      "Ask colleagues for recommendations highlighting your strengths";
      "Include any relevant certifications and courses";
      "Show volunteer work or open source contributions if applicable" ] in
  {| LinkedIn.linkedinScore := linkedinScore;
     LinkedIn.headlineSuggestion := headlineSuggestion;
     LinkedIn.summaryFeedback := slice0 3 summaryFeedback;
     LinkedIn.endorsementSuggestions := fromSet endorsementSuggestions;
     LinkedIn.skillGaps := fromSet skillGaps;
     LinkedIn.improvements := improvements;
     LinkedIn.overallFeedback := linkedinBand hasProfile linkedinScore |}.

(* ================================================================= *)
(** ** Definitions the statements are written with *)

(** The ratios [skillMatchRatio] and [keywordMatchRatio] that
    [analyzeResumeForJob] computes, as functions of its inputs. *)
Definition skillMatchRatioOf (resume : ParsedResume) (jobText : string) : Q :=
  let jobSkills := jobSkillsOf jobText in
  matchRatio (matchingSkillsOf resume jobSkills) jobSkills.

Definition keywordMatchRatioOf (resume : ParsedResume) (jobText : string) : Q :=
  let jobKeywords := extractKeywordsFromText jobText in
  let resumeKeywords := extractKeywordsFromText (toLowerCase (rawText resume)) in
  matchRatio (matchingKeywordsOf resumeKeywords jobKeywords) jobKeywords.

(** The profile with one more entry at the end of its skills list, all
    other fields unchanged. *)
Definition withSkill (resume : ParsedResume) (skill : string) : ParsedResume :=
  {| rawText := rawText resume;
     skills := (skills resume ++ [skill])%list;
     experience := experience resume;
     education := education resume;
     certifications := certifications resume;
     keywords := keywords resume;
     metrics := metrics resume |}.

(** A reference made of white space only; the empty one is such. *)
Fixpoint allWhiteSpace (s : string) : bool :=
  match s with
  | EmptyString => true
  | String c r => isWhiteSpace c && allWhiteSpace r
  end.

(** The score read off the reference alone: 50, and 25 for each of the
    two indicators. *)
Definition completenessOf (linkedinUrl : string) : Z :=
  Z.min 100
    (50 + 25 * (Z.b2z (includes (toLowerCase linkedinUrl) "/in/") +
                Z.b2z (Nat.ltb 30 (String.length linkedinUrl))))%Z.

Definition missingProfileFeedback : string :=
  "LinkedIn profile is missing or incomplete. A complete profile significantly improves your visibility to recruiters.".

Definition excellentProfileFeedback : string :=
  "Excellent LinkedIn profile! Keep it updated and consistent with your resume.".

Definition goodProfileFeedback : string :=
  "Good LinkedIn foundation. Add more specific accomplishments and get skill endorsements.".

Definition weakProfileFeedback : string :=
  "Your LinkedIn profile needs attention. Update it with recent experience and stronger positioning.".

(** An analysis of the resume of which only the score matters. *)
Definition resumeScored (score : Z) : ResumeAnalysis :=
  mkResumeAnalysis score [] [] [] [] [] [] [] 0 "".

(** The four-tier reading of the feedback: with a profile, one of four
    different narratives chosen by the bands of the Match Scorer
    (80, 60, 40); without one, a fifth. *)
Definition fourTierFeedback : Prop :=
  exists excellent good moderate weak missing : string,
    NoDup [excellent; good; moderate; weak; missing] /\
    forall (linkedinUrl jobTitle jobDescription : string)
           (jobRequirements : list string)
           (resumeAnalysis : option ResumeAnalysis),
      let analysis :=
        analyzeLinkedInProfile linkedinUrl jobTitle jobDescription
                               jobRequirements resumeAnalysis in
      let score := LinkedIn.linkedinScore analysis in
      LinkedIn.overallFeedback analysis =
      if negb (hasProfileOf linkedinUrl) then missing
      else if (80 <=? score)%Z then excellent
      else if (60 <=? score)%Z then good
      else if (40 <=? score)%Z then moderate
      else weak.

(* ================================================================= *)
(** ** The scoring formula, as the specification words it *)

Module Spec.

(** A vocabulary term is present in a text when its lower-case form is a
    substring of the text. *)
Definition present (text term : string) : bool :=
  includes text (toLowerCase term).

(** Case-insensitive name equality. *)
Definition sameNameAs (a b : string) : bool :=
  String.eqb (toLowerCase a) (toLowerCase b).

(** Skill vocabulary terms present in the target text. *)
Definition targetSkills (targetText : string) : list string :=
  filter (present targetText) TECH_SKILLS.

(** Profile skills also present in the target skills. *)
Definition matchingSkills (profile : ParsedResume) (targetText : string)
  : list string :=
  filter (fun skill => existsb (sameNameAs skill) (targetSkills targetText))
         (skills profile).

(** The extended keyword extractor: skill vocabulary hits plus the
    secondary vocabulary, deduplicated into a set. *)
Definition keywordSet (text : string) : list string :=
  fromSet (filter (present text) (TECH_SKILLS ++ jobTerms)%list).

(** Profile keywords also among the target keywords. *)
Definition matchingKeywords (profile : ParsedResume) (targetText : string)
  : list string :=
  filter (fun kw => existsb (sameNameAs kw) (keywordSet targetText))
         (keywordSet (toLowerCase (rawText profile))).

(** [|matching| / |target|] if the target set is non-empty, else [0.5]. *)
Definition ratio (matching target : list string) : Q :=
  match target with
  | [] => (1 # 2)%Q
  | _ :: _ => ofLength (List.length matching) [/] ofLength (List.length target)
  end.

Definition skillRatio (profile : ParsedResume) (targetText : string) : Q :=
  ratio (matchingSkills profile targetText) (targetSkills targetText).

Definition keywordRatio (profile : ParsedResume) (targetText : string) : Q :=
  ratio (matchingKeywords profile targetText) (keywordSet targetText).

Definition clamp (lo hi z : Z) : Z :=
  if (z <? lo)%Z then lo else if (hi <? z)%Z then hi else z.

(** [(flag ? points : 0)] *)
Definition points (flag : bool) (n : Z) : Q := ofZ (if flag then n else 0).

Definition score (profile : ParsedResume) (targetText : string)
           (hasMetrics hasActionVerbs hasCertification : bool) : Z :=
  clamp 0 100
    (round (skillRatio profile targetText [*] ofZ 40 [+]
            keywordRatio profile targetText [*] ofZ 30 [+]
            points hasMetrics 15 [+]
            points hasActionVerbs 10 [+]
            points hasCertification 5)).

End Spec.

(* ================================================================= *)
(** ** Duplicate-free tables *)

(** No entry of the list occurs twice. *)
Fixpoint distinct (l : list string) : bool :=
  match l with
  | [] => true
  | x :: r => negb (existsb (String.eqb x) r) && distinct r
  end.

(* ================================================================= *)
(** ** The language of a regular expression *)

(** Concatenations of words of [L]. *)
Inductive starOf (L : string -> Prop) : string -> Prop :=
| starOf_nil : starOf L ""
| starOf_cons (w1 w2 : string) :
    L w1 -> starOf L w2 -> starOf L (w1 ++ w2).

(** The words a pattern matches, whole. *)
Fixpoint lang (ignoreCase : bool) (r : regex) (w : string) : Prop :=
  match r with
  | One a => exists c, w = String c "" /\ accepts ignoreCase a c = true
  | OneOf l =>
      exists c, w = String c "" /\
                existsb (fun a => accepts ignoreCase a c) l = true
  | Empty => w = ""
  | Seq r1 r2 =>
      exists w1 w2, w = w1 ++ w2 /\
                    lang ignoreCase r1 w1 /\ lang ignoreCase r2 w2
  | Alt r1 r2 => lang ignoreCase r1 w \/ lang ignoreCase r2 w
  | Opt r1 => w = "" \/ lang ignoreCase r1 w
  | Star r1 => starOf (lang ignoreCase r1) w
  | Plus r1 =>
      exists w1 w2, w = w1 ++ w2 /\
                    lang ignoreCase r1 w1 /\ starOf (lang ignoreCase r1) w2
  end.

(** The greedy iteration inside [run], on its own. *)
Definition iterateFrom
           (body : string -> (string -> option string) -> option string)
           (k : string -> option string) : nat -> string -> option string :=
  fix loop (fuel : nat) (s0 : string) {struct fuel} : option string :=
    match fuel with
    | O => k s0
    | S fuel' =>
        let attempt :=
          body s0 (fun s1 =>
                     if Nat.ltb (String.length s1) (String.length s0)
                     then loop fuel' s1 else None) in
        match attempt with
        | Some _ => attempt
        | None => k s0
        end
    end.

(** [w] occurs in [text] and is a word of the pattern [p]. *)
Definition occursIn (p : pattern) (text w : string) : Prop :=
  (exists before after, text = before ++ w ++ after) /\
  lang (ignoreCaseFlag p) (source p) w.

(* ================================================================= *)
(** ** The Match Scorer: names for what its result is made of *)

(** The value that [analyzeResumeForJob] clamps into the score. *)
Definition rawScoreOf (skillMatchRatio keywordMatchRatio : Q)
           (hasMetrics hasActionVerbs hasCertifications : bool) : Z :=
  round (skillMatchRatio [*] ofZ 40 [+]
         keywordMatchRatio [*] ofZ 30 [+]
         bonus hasMetrics 15 [+]
         bonus hasActionVerbs 10 [+]
         bonus hasCertifications 5).

(** The fixed messages about metrics and action verbs. *)
Definition metricsStrength : string :=
  "Good use of quantifiable metrics and achievements".

Definition metricsAdvice : string :=
  "Include more quantifiable achievements (percentages, dollar amounts, user counts)".

Definition actionVerbsStrength : string :=
  "Effective use of action verbs to describe accomplishments".

Definition actionVerbsAdvice : string :=
  "Start bullet points with strong action verbs (Led, Developed, Achieved, etc.)".

(** The profile with one more certification, or one more metric. *)
Definition withCertification (resume : ParsedResume) (cert : string)
  : ParsedResume :=
  {| rawText := rawText resume;
     skills := skills resume;
     experience := experience resume;
     education := education resume;
     certifications := (certifications resume ++ [cert])%list;
     keywords := keywords resume;
     metrics := metrics resume |}.

Definition withMetric (resume : ParsedResume) (metric : string)
  : ParsedResume :=
  {| rawText := rawText resume;
     skills := skills resume;
     experience := experience resume;
     education := education resume;
     certifications := certifications resume;
     keywords := keywords resume;
     metrics := (metrics resume ++ [metric])%list |}.

(** [1] for a rule that fires, [0] otherwise. *)
Definition fired (trigger : bool) : nat := if trigger then 1 else 0.

(** The conditions of the rules of [analyzeResumeForJob], in the order
    of its [if]s: five for the strengths, four for the improvement
    areas, five for the metrics suggestions. *)
Definition strengthTriggers (resume : ParsedResume) (jobText : string)
  : list bool :=
  let jobSkills := jobSkillsOf jobText in
  let jobKeywords := extractKeywordsFromText jobText in
  let resumeKeywords := extractKeywordsFromText (toLowerCase (rawText resume)) in
  [ Nat.leb 3 (List.length (matchingSkillsOf resume jobSkills));
    Nat.leb 2 (List.length (metrics resume));
    hasActionVerbsIn (toLowerCase (rawText resume));
    Nat.ltb 0 (List.length (certifications resume));
    Nat.leb 5 (List.length (matchingKeywordsOf resumeKeywords jobKeywords)) ].

Definition improvementTriggers (resume : ParsedResume) (jobText : string)
  : list bool :=
  let jobSkills := jobSkillsOf jobText in
  let jobKeywords := extractKeywordsFromText jobText in
  let resumeKeywords := extractKeywordsFromText (toLowerCase (rawText resume)) in
  [ Nat.ltb 0 (List.length (missingSkillsOf resume jobSkills));
    Nat.ltb (List.length (metrics resume)) 2;
    negb (hasActionVerbsIn (toLowerCase (rawText resume)));
    Nat.ltb 3 (List.length (missingKeywordsOf resumeKeywords jobKeywords)) ].

Definition suggestionTriggers (jobText : string) : list bool :=
  [ includes jobText "team" || includes jobText "lead";
    includes jobText "performance" || includes jobText "optimization";
    includes jobText "revenue" || includes jobText "cost";
    includes jobText "user" || includes jobText "customer";
    includes jobText "project" || includes jobText "delivery" ].

(** How many rules fire. *)
Definition firedCount (triggers : list bool) : nat :=
  List.length (filter (fun b : bool => b) triggers).

(* ================================================================= *)
(** ** Counting spaces *)

(** The number of spaces of a string. *)
Fixpoint countSpaces (s : string) : nat :=
  match s with
  | EmptyString => 0
  | String c r => (if Ascii.eqb c " "%char then 1 else 0) + countSpaces r
  end.

(* ================================================================= *)
(** ** The job search (streaming API): its randomness and clock

    [Math.random()] and [Date.now()] read the outside world.  A
    generator threads a [World]: the successive results of the two
    calls, and how many of each were consumed.  A generator may also
    fail: [None] stands for a read past the end of an array, where
    JavaScript gives [undefined]. *)

Module Gen.

Record World : Type := mkWorld {
  draws : nat -> Q;     (* successive results of Math.random() *)
  drawn : nat;
  clock : nat -> Z;     (* successive results of Date.now() *)
  looked : nat
}.

Definition M (A : Type) : Type := World -> option (A * World).

Definition ret {A} (a : A) : M A := fun w => Some (a, w).

Definition bind {A B} (m : M A) (k : A -> M B) : M B :=
  fun w => match m w with
           | Some (a, w') => k a w'
           | None => None
           end.

Definition fail {A} : M A := fun _ => None.

(** [Math.random()] *)
Definition random : M Q :=
  fun w => Some (draws w (drawn w),
                 mkWorld (draws w) (S (drawn w)) (clock w) (looked w)).

(** [Date.now()] *)
Definition now : M Z :=
  fun w => Some (clock w (looked w),
                 mkWorld (draws w) (drawn w) (clock w) (S (looked w))).

End Gen.

Notation "x <- m ;; k" := (Gen.bind m (fun x => k))
  (at level 61, m at next level, right associativity).

Module JsMath.

(** [Math.floor] *)
Definition floor (x : Q) : Z := Qfloor x.

(** Decimal rendering of an integer inside a template literal. *)
Definition ofInt (z : Z) : string := NilZero.string_of_int (Z.to_int z).

(** [a[i]] for an integer [i]: [None] outside the array. *)
Definition index {A} (a : list A) (i : Z) : option A :=
  if (i <? 0)%Z then None else nth_error a (Z.to_nat i).

(** [a.includes(x)] for an array of strings. *)
Definition has (x : string) (a : list string) : bool :=
  existsb (String.eqb x) a.

(** [a.pop()] on a fresh array: its last element, if any. *)
Definition lastOf (a : list string) : option string :=
  match rev a with
  | [] => None
  | x :: _ => Some x
  end.

(** [s || fallback] for a string that may be undefined. *)
Definition orElse (s : option string) (fallback : string) : string :=
  match s with
  | Some (String c r) => String c r
  | _ => fallback
  end.

End JsMath.

(** [text.replace(p, replacement)] for a global pattern [p]: every
    match gives way to the replacement. *)
Fixpoint replaceFrom (ignoreCase : bool) (fuel : nat) (r : regex)
         (replacement s : string) : string :=
  match fuel with
  | O => s
  | S fuel' =>
      let copyOne :=
        match s with
        | EmptyString => EmptyString
        | String c t =>
            String c (replaceFrom ignoreCase fuel' r replacement t)
        end in
      match matchHere ignoreCase r s with
      | Some rest =>
          replacement ++
          (if Nat.eqb (String.length s - String.length rest) 0
           then copyOne
           else replaceFrom ignoreCase fuel' r replacement rest)
      | None => copyOne
      end
  end.

Definition replaceGlobal (p : pattern) (replacement text : string) : string :=
  replaceFrom (ignoreCaseFlag p) (S (String.length text)) (source p)
              replacement text.

(** [/\s+/g] *)
Definition whiteSpaceRuns : pattern := mkPattern (Plus (One Space)) false.

Module Stream.

Import Gen JsMath.

Record JobSource : Type := mkJobSource {
  name : string;
  icon : string;
  delay : Z
}.

Record Job : Type := mkJob {
  id : string;
  title : string;
  company : string;
  location : string;
  salary : string;
  type : string;
  source : string;
  sourceIcon : string;
  description : string;
  requirements : list string;
  postedDate : string;
  applicationUrl : string;
  matchScore : Z;
  resumeFeedback : string;
  linkedInFeedback : string;
  resumeAnalysis : option ResumeAnalysis;
  linkedinAnalysis : option LinkedIn.LinkedInAnalysis
}.

(** Sample company data for generating realistic jobs. *)
Module COMPANIES.
Definition tech : list string :=
  [ "Google"; "Microsoft"; "Apple"; "Amazon"; "Meta"; "Netflix"; "Spotify";
    "Airbnb"; "Uber"; "Stripe"; "Shopify"; "Salesforce"; "Adobe"; "Oracle";
    "IBM" ].
Definition startups : list string :=
  [ "Notion"; "Figma"; "Canva"; "Vercel"; "Supabase"; "Linear"; "Retool";
    "Loom"; "Miro"; "Airtable"; "Webflow"; "PostHog"; "Datadog"; "GitLab";
    "HashiCorp" ].
Definition finance : list string :=
  [ "Goldman Sachs"; "JP Morgan"; "Morgan Stanley"; "Citadel"; "Two Sigma";
    "BlackRock"; "Fidelity"; "Charles Schwab"; "Capital One";
    "American Express" ].
Definition healthcare : list string :=
  [ "UnitedHealth"; "CVS Health"; "Anthem"; "Cigna"; "HCA Healthcare";
    "Pfizer"; "Johnson & Johnson"; "Abbott"; "Merck"; "Bristol-Myers" ].
Definition consulting : list string :=
  [ "McKinsey"; "BCG"; "Bain"; "Deloitte"; "PwC"; "EY"; "KPMG"; "Accenture";
    "Capgemini"; "Cognizant" ].
Definition agencies : list string :=
  [ "Robert Half"; "Randstad"; "ManpowerGroup"; "Kelly Services"; "Adecco";
    "TEKsystems"; "Insight Global"; "Apex Group"; "Kforce"; "Hays" ].
End COMPANIES.

Definition LOCATIONS : list string :=
  [ "San Francisco, CA"; "New York, NY"; "Seattle, WA"; "Austin, TX";
    "Boston, MA";
    "Los Angeles, CA"; "Chicago, IL"; "Denver, CO"; "Atlanta, GA";
    "Miami, FL";
    "Remote"; "Hybrid - San Francisco"; "Hybrid - New York"; "Remote (US)";
    "Remote (Worldwide)" ].

Definition JOB_TYPES : list string :=
  [ "Full-time"; "Contract"; "Part-time"; "Freelance"; "Internship" ].

Definition SALARY_RANGES : list string :=
  [ "$80,000 - $120,000"; "$100,000 - $150,000"; "$120,000 - $180,000";
    "$150,000 - $220,000"; "$180,000 - $280,000"; "$200,000 - $350,000";
    "$250,000 - $400,000"; "Competitive"; "DOE" ].

Definition commonKeywords : list string :=
  [ "software"; "engineer"; "developer"; "manager"; "designer"; "analyst";
    "data"; "product"; "marketing"; "sales"; "frontend"; "backend";
    "fullstack";
    "react"; "python"; "javascript"; "typescript"; "java"; "go"; "rust";
    "machine learning"; "ai"; "ml"; "devops"; "cloud"; "aws"; "azure"; "gcp";
    "senior"; "junior"; "lead"; "principal"; "staff"; "remote"; "hybrid" ].

Definition extractKeywords (description : string) : list string :=
  let lowerDesc := toLowerCase description in
  filter (fun kw => includes lowerDesc kw) commonKeywords.

(** [a[Math.floor(Math.random() * a.length)]] *)
Definition pick (a : list string) : M string :=
  r <- random ;;
  match index a (floor (r [*] ofLength (List.length a))) with
  | Some v => ret v
  | None => fail
  end.

Definition levels : list string :=
  [ "Junior"; "Mid-Level"; "Senior"; "Staff"; "Principal"; "Lead"; "Head of" ].

Definition roles : list string :=
  [ "Software Engineer"; "Full Stack Developer"; "Frontend Engineer";
    "Backend Engineer";
    "Data Scientist"; "Data Engineer"; "ML Engineer"; "DevOps Engineer";
    "Site Reliability Engineer";
    "Product Manager"; "Engineering Manager"; "Technical Program Manager";
    "Solutions Architect";
    "UI/UX Designer"; "Product Designer"; "Data Analyst"; "Business Analyst";
    "Cloud Architect" ].

Definition generateJobTitle (keywords : list string) : M string :=
  selectedRole <- pick roles ;;
  selectedLevel <- pick levels ;;
  let selectedLevel := if has "senior" keywords then "Senior" else selectedLevel in
  let selectedLevel := if has "junior" keywords then "Junior" else selectedLevel in
  let selectedLevel := if has "lead" keywords then "Lead" else selectedLevel in
  let selectedRole :=
    if has "frontend" keywords then "Frontend Engineer" else selectedRole in
  let selectedRole :=
    if has "backend" keywords then "Backend Engineer" else selectedRole in
  let selectedRole :=
    if has "fullstack" keywords then "Full Stack Developer" else selectedRole in
  selectedRole <-
    (if has "data" keywords then
       r <- random ;;
       ret (if Qlt_le_dec (1 # 2) r then "Data Scientist" else "Data Engineer")
     else ret selectedRole) ;;
  let selectedRole :=
    if has "ml" keywords || has "machine learning" keywords
    then "ML Engineer" else selectedRole in
  let selectedRole :=
    if has "devops" keywords then "DevOps Engineer" else selectedRole in
  let selectedRole :=
    if has "product" keywords && has "manager" keywords
    then "Product Manager" else selectedRole in
  let selectedRole :=
    if has "designer" keywords then "Product Designer" else selectedRole in
  ret (selectedLevel ++ " " ++ selectedRole).

Definition baseRequirements : list string :=
  [ "Bachelor's degree in Computer Science or related field";
    "Strong problem-solving and analytical skills";
    "Excellent communication and collaboration abilities";
    "Experience working in agile development environments" ].

(** [if (cond) { a.push(first); a.push(second) }] *)
Definition pushPair (cond : bool) (first second : string) (a : list string)
  : list string :=
  if cond then ((a ++ [first]) ++ [second])%list else a.

Definition generateRequirements (keywords : list string) : list string :=
  let techRequirements := [] in
  let techRequirements :=
    pushPair (has "react" keywords || has "frontend" keywords)
      "3+ years of experience with React and modern JavaScript"
      "Proficiency in TypeScript and CSS-in-JS solutions"
      techRequirements in
  let techRequirements :=
    pushPair (has "python" keywords || has "backend" keywords)
      "Strong Python skills with experience in Django or FastAPI"
      "Database design experience with PostgreSQL or MongoDB"
      techRequirements in
  let techRequirements :=
    pushPair (has "aws" keywords || has "cloud" keywords)
      "AWS certification or equivalent cloud platform experience"
      "Experience with infrastructure as code (Terraform, CloudFormation)"
      techRequirements in
  let techRequirements :=
    pushPair (has "ml" keywords || has "data" keywords)
      "Experience with ML frameworks (PyTorch, TensorFlow, scikit-learn)"
      "Strong statistical analysis and data visualization skills"
      techRequirements in
  slice0 6 (baseRequirements ++ techRequirements)%list.

(** The feedback candidates of [generateResumeFeedback], all built
    before one is drawn. *)
Definition resumeFeedbacks (jobTitle jobCompany : string)
           (keywords : list string) : list string :=
  [ "Consider highlighting your experience with " ++
      orElse (nth_error keywords 0) "relevant technologies" ++
      " more prominently in your summary.";
    "Add quantifiable achievements related to " ++
      orElse (lastOf (splitSpace jobTitle)) "this role" ++
      " responsibilities.";
    "Include specific projects that demonstrate your " ++
      orElse (Some (join " and " (slice0 2 keywords))) "technical" ++
      " expertise.";
    "Tailor your skills section to emphasize the technologies mentioned in this job posting.";
    "Consider adding a brief section about your experience with " ++
      jobCompany ++ "'s industry or similar companies." ].

Definition generateResumeFeedback (jobTitle jobCompany : string)
           (keywords : list string) : M string :=
  pick (resumeFeedbacks jobTitle jobCompany keywords).

Definition linkedInFeedbacks : list string :=
  [ "Update your headline to include key skills mentioned in this role.";
    "Add more detail to your current role description to match job requirements.";
    "Consider getting endorsements for skills relevant to this position.";
    "Your LinkedIn summary could better highlight your career trajectory for this role.";
    "Add relevant certifications or courses to strengthen your profile for this position." ].

Definition generateLinkedInFeedback : M string := pick linkedInFeedbacks.

Definition allCompanies : list string :=
  (COMPANIES.tech ++ COMPANIES.startups ++ COMPANIES.finance ++
   COMPANIES.healthcare ++ COMPANIES.consulting ++ COMPANIES.agencies)%list.

(** The locations a description asks for. *)
Definition preferredLocationsOf (description : string) : list string :=
  let locationLower := toLowerCase description in
  let preferredLocations := LOCATIONS in
  let preferredLocations :=
    if includes locationLower "remote" then
      (filter (fun l => includes (toLowerCase l) "remote") LOCATIONS ++
       slice0 5 LOCATIONS)%list
    else preferredLocations in
  let preferredLocations :=
    if includes locationLower "san francisco" || includes locationLower "sf"
    then filter (fun l => includes l "San Francisco" || includes l "Remote")
                LOCATIONS
    else preferredLocations in
  let preferredLocations :=
    if includes locationLower "new york" || includes locationLower "nyc"
    then filter (fun l => includes l "New York" || includes l "Remote")
                LOCATIONS
    else preferredLocations in
  preferredLocations.

Definition jobDescriptionOf (title company : string) : string :=
  "We are looking for a talented " ++ title ++ " to join our team at " ++
  company ++
  ". You will work on cutting-edge projects and collaborate with world-class engineers to build products that impact millions of users.".

(** [parsedResume && parsedResume.rawText.length > 0] *)
Definition usable (parsedResume : option ParsedResume) : option ParsedResume :=
  match parsedResume with
  | Some resume =>
      if Nat.ltb 0 (String.length (rawText resume)) then Some resume else None
  | None => None
  end.

(** [linkedinUrl && linkedinUrl.trim().length > 0] *)
Definition given (linkedinUrl : option string) : option string :=
  match linkedinUrl with
  | Some url => if hasProfileOf url then Some url else None
  | None => None
  end.

(** One round of the loop of [generateJobsForSource]. *)
Definition generateJobAt (keywords preferredLocations : list string)
           (src : JobSource) (startIndex : nat)
           (parsedResume : option ParsedResume) (linkedinUrl : option string)
           (i : nat) : M Job :=
  company <- pick allCompanies ;;
  title <- generateJobTitle keywords ;;
  location <- pick preferredLocations ;;
  salary <- pick SALARY_RANGES ;;
  type <- pick JOB_TYPES ;;
  let requirements := generateRequirements keywords in
  let jobDescription := jobDescriptionOf title company in
  (* default random score *)
  r <- random ;;
  let matchScore := (floor (r [*] ofZ 30) + 70)%Z in
  scored <-
    match usable parsedResume with
    | Some resume =>
        let resumeAnalysis :=
          analyzeResumeForJob resume title jobDescription requirements in
        r <- random ;;
        (* use resume analysis to influence match score *)
        let matchScore :=
          round (ofZ (resumeScore resumeAnalysis) [*] rnd (7 # 10) [+]
                 r [*] ofZ 30) in
        (* keep between 40-99 *)
        ret (Some resumeAnalysis, Z.max 40 (Z.min 99 matchScore))
    | None => ret (None, matchScore)
    end ;;
  let resumeAnalysis := fst scored in
  let matchScore := snd scored in
  let linkedinAnalysis :=
    match given linkedinUrl with
    | Some url =>
        Some (analyzeLinkedInProfile url title jobDescription requirements
                                     resumeAnalysis)
    | None => None
    end in
  stamp <- now ;;
  days <- random ;;
  resumeFeedback <- generateResumeFeedback title company keywords ;;
  linkedInFeedback <- generateLinkedInFeedback ;;
  ret {| id := "job-" ++ ofNat (startIndex + i + 1) ++ "-" ++ ofInt stamp;
         title := title;
         company := company;
         location := location;
         salary := salary;
         type := type;
         source := name src;
         sourceIcon := icon src;
         description := jobDescription;
         requirements := requirements;
         postedDate := ofInt (floor (days [*] ofZ 14) + 1) ++ " days ago";
         applicationUrl :=
           "https://careers." ++
           replaceGlobal whiteSpaceRuns "" (toLowerCase company) ++
           ".com/jobs/" ++ ofNat (startIndex + i + 1);
         matchScore := matchScore;
         resumeFeedback := resumeFeedback;
         linkedInFeedback := linkedInFeedback;
         resumeAnalysis := resumeAnalysis;
         linkedinAnalysis := linkedinAnalysis |}.

(** The [for] loop: rounds [i], [i + 1], ... pushed in order. *)
Fixpoint generateJobsFrom (round : nat -> M Job) (i rounds : nat)
  : M (list Job) :=
  match rounds with
  | O => ret []
  | S rounds' =>
      job <- round i ;;
      jobs <- generateJobsFrom round (S i) rounds' ;;
      ret (job :: jobs)
  end.

Definition generateJobsForSource (description : string) (src : JobSource)
           (startIndex count : nat)
           (parsedResume : option ParsedResume) (linkedinUrl : option string)
  : M (list Job) :=
  let keywords := extractKeywords description in
  let preferredLocations := preferredLocationsOf description in
  generateJobsFrom
    (generateJobAt keywords preferredLocations src startIndex
                   parsedResume linkedinUrl)
    0 count.

End Stream.

(** The levels and roles a title can carry: a later assignment of
    [generateJobTitle] overrides an earlier one. *)
Definition levelsFor (keywords : list string) : list string :=
  if JsMath.has "lead" keywords then ["Lead"]
  else if JsMath.has "junior" keywords then ["Junior"]
  else if JsMath.has "senior" keywords then ["Senior"]
  else Stream.levels.

Definition rolesFor (keywords : list string) : list string :=
  if JsMath.has "designer" keywords then ["Product Designer"]
  else if JsMath.has "product" keywords && JsMath.has "manager" keywords
       then ["Product Manager"]
  else if JsMath.has "devops" keywords then ["DevOps Engineer"]
  else if JsMath.has "ml" keywords || JsMath.has "machine learning" keywords
       then ["ML Engineer"]
  else if JsMath.has "data" keywords then ["Data Scientist"; "Data Engineer"]
  else if JsMath.has "fullstack" keywords then ["Full Stack Developer"]
  else if JsMath.has "backend" keywords then ["Backend Engineer"]
  else if JsMath.has "frontend" keywords then ["Frontend Engineer"]
  else Stream.roles.

(** A result of [Math.random()]: a double in [[0, 1)]. *)
Definition unitDouble (r : Q) : Prop :=
  (0 <= r)%Q /\ (r < 1)%Q /\ (rnd r == r)%Q.

(** A world all of whose draws are such. *)
Definition fair (w : Gen.World) : Prop :=
  forall n, unitDouble (Gen.draws w n).

(** [returns m w P]: from [w] the generator gives a value, and [P]
    holds of it and of the world it leaves. *)
Definition returns {A} (m : Gen.M A) (w : Gen.World)
           (P : A -> Gen.World -> Prop) : Prop :=
  match m w with
  | Some (a, w') => P a w'
  | None => False
  end.

(** What one round of [generateJobsForSource] makes: round [i] of a
    call with these arguments made [job]. *)
Record madeBy (keywords preferredLocations : list string)
       (src : Stream.JobSource) (startIndex : nat)
       (parsedResume : option ParsedResume) (linkedinUrl : option string)
       (i : nat) (job : Stream.Job) : Prop := mkMadeBy {
  made_company : In (Stream.company job) Stream.allCompanies;
  made_title :
    exists level role,
      Stream.title job = level ++ " " ++ role /\
      In level (levelsFor keywords) /\ In role (rolesFor keywords);
  made_location : In (Stream.location job) preferredLocations;
  made_salary : In (Stream.salary job) Stream.SALARY_RANGES;
  made_type : In (Stream.type job) Stream.JOB_TYPES;
  made_source : Stream.source job = Stream.name src;
  made_sourceIcon : Stream.sourceIcon job = Stream.icon src;
  made_description :
    Stream.description job =
    Stream.jobDescriptionOf (Stream.title job) (Stream.company job);
  made_requirements :
    Stream.requirements job = Stream.generateRequirements keywords;
  made_id :
    exists stamp,
      Stream.id job =
      "job-" ++ ofNat (startIndex + i + 1) ++ "-" ++ JsMath.ofInt stamp;
  made_postedDate :
    exists days,
      (1 <= days <= 14)%Z /\
      Stream.postedDate job = JsMath.ofInt days ++ " days ago";
  made_applicationUrl :
    Stream.applicationUrl job =
    "https://careers." ++
    replaceGlobal whiteSpaceRuns "" (toLowerCase (Stream.company job)) ++
    ".com/jobs/" ++ ofNat (startIndex + i + 1);
  made_resumeAnalysis :
    Stream.resumeAnalysis job =
    option_map
      (fun resume =>
         analyzeResumeForJob resume (Stream.title job)
           (Stream.description job) (Stream.requirements job))
      (Stream.usable parsedResume);
  made_linkedinAnalysis :
    Stream.linkedinAnalysis job =
    option_map
      (fun url =>
         analyzeLinkedInProfile url (Stream.title job)
           (Stream.description job) (Stream.requirements job)
           (Stream.resumeAnalysis job))
      (Stream.given linkedinUrl);
  made_matchScore :
    match Stream.resumeAnalysis job with
    | Some analysis =>
        exists r,
          unitDouble r /\
          Stream.matchScore job =
          Z.max 40
            (Z.min 99
               (round (ofZ (resumeScore analysis) [*] rnd (7 # 10) [+]
                       r [*] ofZ 30)))
    | None => (70 <= Stream.matchScore job <= 99)%Z
    end;
  made_resumeFeedback :
    In (Stream.resumeFeedback job)
       (Stream.resumeFeedbacks (Stream.title job) (Stream.company job)
                               keywords);
  made_linkedInFeedback :
    In (Stream.linkedInFeedback job) Stream.linkedInFeedbacks
}.


(** A string with its white space left out. *)
Fixpoint withoutWhiteSpace (s : string) : string :=
  match s with
  | EmptyString => EmptyString
  | String c r =>
      if isWhiteSpace c then withoutWhiteSpace r
      else String c (withoutWhiteSpace r)
  end.

(** A world whose every draw is [r] and whose clock stands at [t]. *)
Definition steady (r : Q) (t : Z) : Gen.World :=
  Gen.mkWorld (fun _ => r) 0 (fun _ => t) 0.

(** The requirement lists [generateRequirements] can give. *)
Definition requirementLists : list (list string) :=
  map Stream.generateRequirements
      [ []; ["react"]; ["python"]; ["aws"]; ["ml"] ].

(** [c] does not occur in [t]. *)
Fixpoint lacks (c : ascii) (t : string) : bool :=
  match t with
  | EmptyString => true
  | String d r => negb (Ascii.eqb d c) && lacks c r
  end.

(** The words the metrics suggestions look for and that no generated
    posting holds. *)
Definition unusedTriggers : list string :=
  [ "performance"; "optimization"; "revenue"; "cost" ].

(** The vocabulary tables are data.  The proofs below reach them through
    lemmas, and evaluate them with [vm_compute] only: a filter over a
    table of 85 words is not to be unfolded symbolically. *)
Opaque TECH_SKILLS ACTION_VERBS jobTerms.

(* ================================================================= *)
(** ** Sample runs *)

Example parse_sample :
  let r := parseResumeText "Led 3 projects, cut costs by 40% ($1,200) for 10+ Users in 2 years; 10x Python" in
  skills r = ["python"] /\
  keywords r = ["python"; "led"] /\
  metrics r = ["40%"; "$1,200"; "10x"; "10+ Users"; "2 years"; "3 projects"].
Proof. vm_compute. auto. Qed.

Example analyze_sample :
  let resume :=
    parseResumeText "Led 3 projects, cut costs by 40% ($1,200) for 10+ Users in 2 years; 10x Python" in
  let a :=
    analyzeResumeForJob resume "Senior Backend Engineer"
      "We need python, docker and kubernetes for our team" ["lead projects"] in
  resumeScore a = 44%Z /\
  keywordDensity a = 20%Z /\
  matchingSkills a = ["python"] /\
  missingSkills a = ["docker"; "kubernetes"] /\
  missingKeywords a = ["docker"; "kubernetes"; "senior"; "lead"] /\
  List.length (strengthsFound a) = 2 /\
  List.length (metricsSuggestions a) = 2.
Proof. vm_compute. repeat split. Qed.

Example linkedin_sample :
  let a := analyzeLinkedInProfile "https://www.linkedin.com/in/jane-doe"
             "Senior Backend Engineer" "python and docker" [] None in
  LinkedIn.linkedinScore a = 100%Z /\
  LinkedIn.headlineSuggestion a =
    "Backend Engineer | Experienced Professional | Always Learning" /\
  LinkedIn.endorsementSuggestions a = ["python"; "docker"].
Proof. vm_compute. auto. Qed.

(* ================================================================= *)
(** ** Facts about numbers: rounding to the nearest double is monotone *)

Section Pow2.
Lemma pow2_pos z : (0 < pow2 z)%Q.
Proof. apply Qpower_0_lt. reflexivity. Qed.

Lemma pow2_add a b : (pow2 (a + b) == pow2 a * pow2 b)%Q.
Proof. apply Qpower_plus. discriminate. Qed.

Lemma pow2_le a b : (a <= b)%Z -> (pow2 a <= pow2 b)%Q.
Proof. intro H. apply Qpower_le_compat_l; [assumption | discriminate]. Qed.

Lemma pow2_lt_inv a b : (pow2 a < pow2 b)%Q -> (a < b)%Z.
Proof. intro H. apply (Qpower_lt_compat_l_inv 2); [assumption | reflexivity]. Qed.

Lemma pow2_inject n : (0 <= n)%Z -> (inject_Z (2 ^ n) == pow2 n)%Q.
Proof. intro H. unfold pow2. now rewrite Zpower_Qpower. Qed.
End Pow2.

Section Exponent.

Lemma exponent_spec (x : Q) :
  (0 < x)%Q -> (pow2 (exponent x) <= x /\ x < pow2 (exponent x + 1))%Q.
Proof.
  intro Hx. destruct x as [n d].
  assert (Hn : (0 < n)%Z).
  { unfold Qlt in Hx. simpl in Hx. lia. }
  unfold exponent. simpl Qnum. simpl Qden.
  set (ln := Z.log2 n). set (ld := Z.log2 (Zpos d)).
  assert (Hln : (0 <= ln)%Z) by apply Z.log2_nonneg.
  assert (Hld : (0 <= ld)%Z) by apply Z.log2_nonneg.
  destruct (Z.log2_spec n Hn) as [Hn1 Hn2]. fold ln in Hn1, Hn2.
  destruct (Z.log2_spec (Zpos d) eq_refl) as [Hd1 Hd2]. fold ld in Hd1, Hd2.
  assert (Qn1 : (pow2 ln <= inject_Z n)%Q).
  { rewrite <- pow2_inject by assumption. now rewrite <- Zle_Qle. }
  assert (Qn2 : (inject_Z n < pow2 (ln + 1))%Q).
  { rewrite <- pow2_inject by lia. now rewrite <- Zlt_Qlt. }
  assert (Qd1 : (pow2 ld <= inject_Z (Zpos d))%Q).
  { rewrite <- pow2_inject by assumption. now rewrite <- Zle_Qle. }
  assert (Qd2 : (inject_Z (Zpos d) < pow2 (ld + 1))%Q).
  { rewrite <- pow2_inject by lia. now rewrite <- Zlt_Qlt. }
  assert (Hx' : (n # d == inject_Z n / inject_Z (Zpos d))%Q) by apply Qmake_Qdiv.
  set (k := (ln - ld)%Z).
  assert (Hup : (n # d < pow2 (k + 1))%Q).
  { rewrite Hx'. apply Qlt_shift_div_r; [reflexivity|].
    apply Qlt_le_trans with (pow2 (ln + 1)); [assumption|].
    replace (ln + 1)%Z with ((k + 1) + ld)%Z by (unfold k; lia).
    rewrite pow2_add.
    now apply (proj2 (Qmult_le_l _ _ _ (pow2_pos (k + 1)))). }
  assert (Hlo : (pow2 (k - 1) < n # d)%Q).
  { rewrite Hx'. apply Qlt_shift_div_l; [reflexivity|].
    apply Qlt_le_trans with (pow2 ln); [|assumption].
    replace (pow2 ln) with (pow2 ((k - 1) + (ld + 1)))
      by (f_equal; unfold k; lia).
    rewrite pow2_add.
    now apply (proj2 (Qmult_lt_l _ _ _ (pow2_pos (k - 1)))). }
  destruct (Qle_bool (pow2 k) (n # d)) eqn:Hb.
  - apply Qle_bool_iff in Hb. split; assumption.
  - split.
    + now apply Qlt_le_weak.
    + replace (k - 1 + 1)%Z with k by lia.
      apply Qnot_le_lt. intro Hc. apply Qle_bool_iff in Hc. congruence.
Qed.

Lemma exponent_mono (x y : Q) :
  (0 < x)%Q -> (x <= y)%Q -> (exponent x <= exponent y)%Z.
Proof.
  intros Hx Hxy.
  destruct (exponent_spec x Hx) as [Hx1 _].
  destruct (exponent_spec y) as [_ Hy2].
  { now apply Qlt_le_trans with x. }
  assert (H : (pow2 (exponent x) < pow2 (exponent y + 1))%Q).
  { apply Qle_lt_trans with x; [assumption|].
    now apply Qle_lt_trans with y. }
  apply pow2_lt_inv in H. lia.
Qed.

End Exponent.

Section RoundHalfEven.

Lemma roundHalfEven_range (q : Q) :
  (Qfloor q <= roundHalfEven q <= Qfloor q + 1)%Z.
Proof.
  unfold roundHalfEven.
  destruct (q - inject_Z (Qfloor q) ?= 1 # 2)%Q; [destruct (Z.even _)| |]; lia.
Qed.

Lemma roundHalfEven_mono (x y : Q) :
  (x <= y)%Q -> (roundHalfEven x <= roundHalfEven y)%Z.
Proof.
  intro Hxy.
  pose proof (Qfloor_resp_le x y Hxy) as Hf.
  pose proof (roundHalfEven_range x) as Rx.
  pose proof (roundHalfEven_range y) as Ry.
  destruct (Z.eq_dec (Qfloor x) (Qfloor y)) as [E|NE]; [|lia].
  unfold roundHalfEven in *. rewrite <- E in *.
  destruct (Qcompare_spec (x - inject_Z (Qfloor x)) (1 # 2)) as [Hx|Hx|Hx];
    destruct (Qcompare_spec (y - inject_Z (Qfloor x)) (1 # 2)) as [Hy|Hy|Hy];
    try lia; try (exfalso; lra);
    destruct (Z.even (Qfloor x)); lia.
Qed.

Lemma roundHalfEven_Z (z : Z) : roundHalfEven (inject_Z z) = z.
Proof.
  unfold roundHalfEven. rewrite Qfloor_Z.
  destruct (Qcompare_spec (inject_Z z - inject_Z z) (1 # 2)) as [H|H|H];
    try reflexivity; exfalso; lra.
Qed.

End RoundHalfEven.

Section Rounding.

Lemma ulp_pos (x : Q) : (0 < ulp x)%Q.
Proof. apply pow2_pos. Qed.

Lemma nearest_eq (x : Q) :
  (nearest x == inject_Z (roundHalfEven (x / ulp x)) * ulp x)%Q.
Proof. unfold nearest. apply Qred_correct. Qed.

Lemma scaled_lower (x : Q) :
  (0 < x)%Q -> (inject_Z (2 ^ 52) <= x / ulp x)%Q.
Proof.
  intro Hx. destruct (exponent_spec x Hx) as [Hlo _].
  apply Qle_shift_div_l; [apply ulp_pos|].
  rewrite pow2_inject by lia. unfold ulp. rewrite <- pow2_add.
  now replace (52 + (exponent x - 52))%Z with (exponent x) by lia.
Qed.

Lemma scaled_upper (x : Q) :
  (0 < x)%Q -> (x / ulp x <= inject_Z (2 ^ 53))%Q.
Proof.
  intro Hx. destruct (exponent_spec x Hx) as [_ Hhi].
  apply Qle_shift_div_r; [apply ulp_pos|].
  rewrite pow2_inject by lia. unfold ulp. rewrite <- pow2_add.
  replace (53 + (exponent x - 52))%Z with (exponent x + 1)%Z by lia.
  now apply Qlt_le_weak.
Qed.

(** Rounding stays inside the binade of its argument. *)
Lemma nearest_lower (x : Q) :
  (0 < x)%Q -> (pow2 (exponent x) <= nearest x)%Q.
Proof.
  intro Hx. rewrite nearest_eq.
  assert (H : (2 ^ 52 <= roundHalfEven (x / ulp x))%Z).
  { rewrite <- (roundHalfEven_Z (2 ^ 52)) at 1.
    apply roundHalfEven_mono, scaled_lower, Hx. }
  apply Qle_trans with (inject_Z (2 ^ 52) * ulp x)%Q.
  - rewrite pow2_inject by lia. unfold ulp. rewrite <- pow2_add.
    replace (52 + (exponent x - 52))%Z with (exponent x) by lia.
    apply Qle_refl.
  - apply Qmult_le_compat_r; [|apply Qlt_le_weak, ulp_pos].
    now rewrite <- Zle_Qle.
Qed.

Lemma nearest_upper (x : Q) :
  (0 < x)%Q -> (nearest x <= pow2 (exponent x + 1))%Q.
Proof.
  intro Hx. rewrite nearest_eq.
  assert (H : (roundHalfEven (x / ulp x) <= 2 ^ 53)%Z).
  { rewrite <- (roundHalfEven_Z (2 ^ 53)) at 1.
    apply roundHalfEven_mono, scaled_upper, Hx. }
  apply Qle_trans with (inject_Z (2 ^ 53) * ulp x)%Q.
  - apply Qmult_le_compat_r; [|apply Qlt_le_weak, ulp_pos].
    now rewrite <- Zle_Qle.
  - rewrite pow2_inject by lia. unfold ulp. rewrite <- pow2_add.
    replace (53 + (exponent x - 52))%Z with (exponent x + 1)%Z by lia.
    apply Qle_refl.
Qed.

Lemma nearest_pos (x : Q) : (0 < x)%Q -> (0 < nearest x)%Q.
Proof.
  intro Hx. eapply Qlt_le_trans; [apply pow2_pos | now apply nearest_lower].
Qed.

Lemma nearest_mono (x y : Q) :
  (0 < x)%Q -> (x <= y)%Q -> (nearest x <= nearest y)%Q.
Proof.
  intros Hx Hxy.
  assert (Hy : (0 < y)%Q) by (now apply Qlt_le_trans with x).
  pose proof (exponent_mono x y Hx Hxy) as He.
  destruct (Z.eq_dec (exponent x) (exponent y)) as [E|NE].
  - rewrite !nearest_eq. unfold ulp. rewrite <- E.
    apply Qmult_le_compat_r; [|apply Qlt_le_weak, pow2_pos].
    rewrite <- Zle_Qle. apply roundHalfEven_mono.
    apply Qmult_le_compat_r; [assumption|].
    apply Qlt_le_weak, Qinv_lt_0_compat, pow2_pos.
  - apply Qle_trans with (pow2 (exponent x + 1)).
    + now apply nearest_upper.
    + apply Qle_trans with (pow2 (exponent y)).
      * apply pow2_le. lia.
      * now apply nearest_lower.
Qed.

(** Rounding to the nearest double is monotone. *)
Theorem rnd_mono (x y : Q) : (x <= y)%Q -> (rnd x <= rnd y)%Q.
Proof.
  intro Hxy. unfold rnd.
  destruct (Qcompare_spec x 0) as [Hx|Hx|Hx];
    destruct (Qcompare_spec y 0) as [Hy|Hy|Hy];
    try (exfalso; lra).
  - apply Qle_refl.
  - apply Qlt_le_weak, nearest_pos, Hy.
  - assert (H : (0 < nearest (- x))%Q) by (apply nearest_pos; lra). lra.
  - assert (H : (nearest (- y) <= nearest (- x))%Q)
      by (apply nearest_mono; lra).
    lra.
  - assert (H1 : (0 < nearest (- x))%Q) by (apply nearest_pos; lra).
    assert (H2 : (0 < nearest y)%Q) by (apply nearest_pos; lra). lra.
  - now apply nearest_mono.
Qed.

End Rounding.

Section Arithmetic.

Lemma rnd_0 : rnd 0 = 0%Q.
Proof. reflexivity. Qed.

Lemma rnd_1 : rnd 1 = 1%Q.
Proof. vm_compute. reflexivity. Qed.

Lemma rnd_100 : rnd 100 = 100%Q.
Proof. vm_compute. reflexivity. Qed.

Lemma add_mono (x x' y y' : Q) :
  (x <= x')%Q -> (y <= y')%Q -> (add x y <= add x' y')%Q.
Proof. intros. apply rnd_mono. lra. Qed.

Lemma mul_mono_l (x x' c : Q) :
  (0 <= c)%Q -> (x <= x')%Q -> (mul x c <= mul x' c)%Q.
Proof. intros. apply rnd_mono. now apply Qmult_le_compat_r. Qed.

Lemma div_mono_l (x x' c : Q) :
  (0 < c)%Q -> (x <= x')%Q -> (div x c <= div x' c)%Q.
Proof.
  intros Hc H. apply rnd_mono. apply Qmult_le_compat_r; [assumption|].
  now apply Qlt_le_weak, Qinv_lt_0_compat.
Qed.

Lemma round_mono (x y : Q) : (x <= y)%Q -> (round x <= round y)%Z.
Proof. intro H. unfold round. apply Qfloor_resp_le. lra. Qed.

Lemma round_ofZ (z : Z) : round (ofZ z) = z.
Proof.
  unfold round, ofZ.
  assert (Hlo : (z <= Qfloor (inject_Z z + (1 # 2)))%Z).
  { rewrite <- (Qfloor_Z z) at 1. apply Qfloor_resp_le. lra. }
  assert (Hhi : (Qfloor (inject_Z z + (1 # 2)) < z + 1)%Z).
  { rewrite Zlt_Qlt.
    eapply Qle_lt_trans; [apply Qfloor_le|].
    rewrite inject_Z_plus. change (inject_Z 1) with 1%Q. lra. }
  lia.
Qed.

Lemma ofLength_nonneg (n : nat) : (0 <= ofLength n)%Q.
Proof.
  unfold ofLength, ofZ. change 0%Q with (inject_Z 0).
  rewrite <- Zle_Qle. lia.
Qed.

Lemma ofLength_le (n m : nat) : n <= m -> (ofLength n <= ofLength m)%Q.
Proof. intro H. unfold ofLength, ofZ. rewrite <- Zle_Qle. lia. Qed.

Lemma ofLength_pos (n : nat) : 0 < n -> (0 < ofLength n)%Q.
Proof.
  intro H. unfold ofLength, ofZ. change 0%Q with (inject_Z 0).
  rewrite <- Zlt_Qlt. lia.
Qed.

End Arithmetic.

(* ================================================================= *)
(** ** Facts about arrays and strings *)

Section ArrayFacts.

Lemma slice0_length {A} (n : nat) (a : list A) :
  List.length (slice0 n a) <= n.
Proof. unfold slice0. rewrite length_firstn. apply Nat.le_min_l. Qed.

Lemma fromSet_In (a : list string) (x : string) :
  In x (fromSet a) <-> In x a.
Proof.
  induction a as [|y r IH]; simpl; [tauto|].
  rewrite filter_In, IH.
  destruct (String.eqb_spec y x) as [->|Hne]; simpl; split.
  - intros _. now left.
  - intros _. now left.
  - intros [H|[H _]]; [now left | now right].
  - intros [H|H]; [now left | right; split; [assumption | reflexivity]].
Qed.

Lemma fromSet_NoDup (a : list string) : NoDup (fromSet a).
Proof.
  induction a as [|y r IH]; simpl; constructor.
  - rewrite filter_In. intros [_ H]. now rewrite String.eqb_refl in H.
  - now apply NoDup_filter.
Qed.

Lemma filter_notIn (x : string) (a : list string) :
  ~ In x a -> filter (fun y => negb (String.eqb x y)) a = a.
Proof.
  induction a as [|y r IH]; simpl; [reflexivity|].
  intro H. destruct (String.eqb_spec x y) as [->|_]; simpl.
  - elim H. now left.
  - f_equal. apply IH. intro Hin. apply H. now right.
Qed.

Lemma fromSet_id (a : list string) : NoDup a -> fromSet a = a.
Proof.
  induction a as [|x r IH]; simpl; [reflexivity|].
  intro H. inversion H as [|? ? Hnot Hnd]; subst.
  rewrite (IH Hnd). f_equal. now apply filter_notIn.
Qed.

End ArrayFacts.

Section StringFacts.

Lemma toLowerCase_length (s : string) :
  String.length (toLowerCase s) = String.length s.
Proof. induction s as [|c r IH]; simpl; congruence. Qed.

End StringFacts.

Section KeywordFacts.

(** Every word of the keyword vocabularies is already in lower case. *)
Lemma vocabulary_lowercase :
  forall term, In term (TECH_SKILLS ++ jobTerms)%list ->
               toLowerCase term = term.
Proof.
  assert (H : forallb (fun t => String.eqb (toLowerCase t) t)
                      (TECH_SKILLS ++ jobTerms)%list = true)
    by (vm_compute; reflexivity).
  rewrite forallb_forall in H.
  intros term Hin. apply String.eqb_eq. now apply H.
Qed.

Lemma pushPresent_In (text : string) (vocabulary acc : list string) (x : string) :
  In x (pushPresent text vocabulary acc) <->
  In x acc \/ (In x vocabulary /\ includes text (toLowerCase x) = true).
Proof.
  unfold pushPresent. revert acc.
  induction vocabulary as [|v vs IH]; intro acc; simpl.
  - tauto.
  - rewrite IH. destruct (includes text (toLowerCase v)) eqn:Hv.
    + rewrite in_app_iff. simpl. split.
      * intros [[H|[H|[]]]|[H1 H2]]; subst; auto.
      * intros [H|[[H|H] H2]]; subst; auto.
    + split.
      * intros [H|[H1 H2]]; auto.
      * intros [H|[[H|H] H2]]; subst; auto. congruence.
Qed.

Lemma extractKeywordsFromText_In (text x : string) :
  In x (extractKeywordsFromText text) <->
  In x (TECH_SKILLS ++ jobTerms)%list /\ includes text (toLowerCase x) = true.
Proof.
  unfold extractKeywordsFromText. split.
  - intro H. apply (proj1 (fromSet_In _ _)) in H.
    apply (proj1 (pushPresent_In _ _ _ _)) in H.
    destruct H as [H|[H1 H2]].
    + apply (proj1 (pushPresent_In _ _ _ _)) in H. destruct H as [[]|[H1 H2]].
      split; [apply in_or_app; left|]; assumption.
    + split; [apply in_or_app; right|]; assumption.
  - intros [H1 H2]. apply (proj2 (fromSet_In _ _)).
    apply (proj2 (pushPresent_In _ _ _ _)).
    apply in_app_or in H1. destruct H1 as [H1|H1].
    + left. apply (proj2 (pushPresent_In _ _ _ _)). right. split; assumption.
    + right. split; assumption.
Qed.

Lemma extractKeywordsFromText_NoDup (text : string) :
  NoDup (extractKeywordsFromText text).
Proof. apply fromSet_NoDup. Qed.

Lemma extractKeywordsFromText_lowercase (text x : string) :
  In x (extractKeywordsFromText text) -> toLowerCase x = x.
Proof.
  intro H. apply vocabulary_lowercase.
  exact (proj1 (proj1 (extractKeywordsFromText_In text x) H)).
Qed.

(** Matching against lower-case names keeps only names of the other
    list: a duplicate-free list has no more matches than that list has
    elements. *)
Lemma matching_length_le (ours theirs : list string) :
  NoDup ours ->
  (forall x, In x ours -> toLowerCase x = x) ->
  (forall x, In x theirs -> toLowerCase x = x) ->
  List.length (matchingKeywordsOf ours theirs) <= List.length theirs.
Proof.
  intros Hnd Hours Htheirs. apply NoDup_incl_length.
  - unfold matchingKeywordsOf. now apply NoDup_filter.
  - intros x Hx. unfold matchingKeywordsOf in Hx.
    apply filter_In in Hx. destruct Hx as [Hx Hsome].
    apply existsb_exists in Hsome. destruct Hsome as [jk [Hjk Hsame]].
    apply String.eqb_eq in Hsame.
    rewrite (Htheirs jk Hjk), (Hours x Hx) in Hsame.
    now subst.
Qed.

(** The matching keywords are keywords of the job: there are no more
    of them than the job has. *)
Lemma matchingKeywords_le (resumeText jobText : string) :
  List.length (matchingKeywordsOf (extractKeywordsFromText resumeText)
                                  (extractKeywordsFromText jobText))
  <= List.length (extractKeywordsFromText jobText).
Proof.
  exact (matching_length_le _ _
           (extractKeywordsFromText_NoDup resumeText)
           (extractKeywordsFromText_lowercase resumeText)
           (extractKeywordsFromText_lowercase jobText)).
Qed.

End KeywordFacts.

(* ================================================================= *)
(** ** The Match Scorer: caps and bounds *)

Section MatchScorer.

Variable resume : ParsedResume.
Variables jobTitle jobDescription : string.
Variable jobRequirements : list string.

Let analysis := analyzeResumeForJob resume jobTitle jobDescription jobRequirements.

(** C2. Every list of the result respects its cap: at most 10 matching
    keywords, 8 missing keywords, 6 missing skills, 4 strengths,
    4 improvement areas and 3 metrics suggestions. *)
Theorem C2_list_caps :
  List.length (matchingKeywords analysis) <= 10 /\
  List.length (missingKeywords analysis) <= 8 /\
  List.length (missingSkills analysis) <= 6 /\
  List.length (strengthsFound analysis) <= 4 /\
  List.length (improvementAreas analysis) <= 4 /\
  List.length (metricsSuggestions analysis) <= 3.
Proof.
  unfold analysis, analyzeResumeForJob.
  cbn [matchingKeywords missingKeywords missingSkills strengthsFound
       improvementAreas metricsSuggestions].
  repeat split; apply slice0_length.
Qed.

End MatchScorer.

Section Ratios.

Lemma matchRatio_range (matching total : list string) :
  List.length matching <= List.length total ->
  (0 <= matchRatio matching total <= 1)%Q.
Proof.
  intro Hle. unfold matchRatio.
  destruct (Nat.ltb_spec 0 (List.length total)) as [Hpos|_].
  - unfold div. split.
    + rewrite <- rnd_0. apply rnd_mono.
      apply Qle_shift_div_l; [now apply ofLength_pos|].
      rewrite Qmult_0_l. apply ofLength_nonneg.
    + rewrite <- rnd_1. apply rnd_mono.
      apply Qle_shift_div_r; [now apply ofLength_pos|].
      rewrite Qmult_1_l. now apply ofLength_le.
  - split; discriminate.
Qed.

Lemma percentage_range (r : Q) :
  (0 <= r <= 1)%Q -> (0 <= round (r [*] ofZ 100) <= 100)%Z.
Proof.
  intros [H0 H1]. unfold mul. split.
  - rewrite <- (round_ofZ 0) at 1. apply round_mono.
    change (ofZ 0) with (rnd 0). apply rnd_mono.
    change (ofZ 100) with 100%Q. lra.
  - rewrite <- (round_ofZ 100) at 2. apply round_mono.
    change (ofZ 100) with 100%Q. rewrite <- rnd_100 at 2. apply rnd_mono. lra.
Qed.

End Ratios.

(** C3. The score and the keyword density both lie between 0 and 100. *)
Theorem C3_score_bounds (resume : ParsedResume) (jobTitle jobDescription : string)
        (jobRequirements : list string) :
  let analysis :=
    analyzeResumeForJob resume jobTitle jobDescription jobRequirements in
  (0 <= resumeScore analysis <= 100)%Z /\
  (0 <= keywordDensity analysis <= 100)%Z.
Proof.
  unfold analyzeResumeForJob. cbn [resumeScore keywordDensity]. split.
  - unfold scoreOf. lia.
  - apply percentage_range, matchRatio_range, matchingKeywords_le.
Qed.

Section Refinement.

Lemma pushPresent_filter (text : string) (vocabulary keywords : list string) :
  pushPresent text vocabulary keywords =
  (keywords ++ filter (Spec.present text) vocabulary)%list.
Proof.
  unfold pushPresent, Spec.present. revert keywords.
  induction vocabulary as [|term rest IH]; intro keywords; simpl.
  - now rewrite app_nil_r.
  - rewrite IH. destruct (includes text (toLowerCase term)).
    + now rewrite <- app_assoc.
    + reflexivity.
Qed.

Lemma extractKeywordsFromText_keywordSet (text : string) :
  extractKeywordsFromText text = Spec.keywordSet text.
Proof.
  unfold extractKeywordsFromText, Spec.keywordSet.
  generalize TECH_SKILLS as primary, jobTerms as secondary.
  intros primary secondary.
  rewrite !pushPresent_filter, filter_app. reflexivity.
Qed.

Lemma sameName_sym (a b : string) : sameName a b = Spec.sameNameAs b a.
Proof. unfold sameName, Spec.sameNameAs. apply String.eqb_sym. Qed.

Lemma some_sameName (names : list string) (name : string) :
  some (fun other => sameName other name) names =
  existsb (Spec.sameNameAs name) names.
Proof.
  unfold some. induction names as [|other rest IH]; simpl.
  - reflexivity.
  - now rewrite IH, sameName_sym.
Qed.

Lemma jobSkillsOf_spec (targetText : string) :
  jobSkillsOf targetText = Spec.targetSkills targetText.
Proof. reflexivity. Qed.

Lemma matchingSkillsOf_spec (profile : ParsedResume) (targetText : string) :
  matchingSkillsOf profile (jobSkillsOf targetText) =
  Spec.matchingSkills profile targetText.
Proof.
  rewrite jobSkillsOf_spec.
  unfold matchingSkillsOf, Spec.matchingSkills.
  generalize (Spec.targetSkills targetText) as target. intro target.
  apply filter_ext. intro skill. apply some_sameName.
Qed.

Lemma matchingKeywordsOf_spec (profile : ParsedResume) (targetText : string) :
  matchingKeywordsOf
    (extractKeywordsFromText (toLowerCase (rawText profile)))
    (extractKeywordsFromText targetText) =
  Spec.matchingKeywords profile targetText.
Proof.
  rewrite !extractKeywordsFromText_keywordSet.
  unfold matchingKeywordsOf, Spec.matchingKeywords.
  generalize (Spec.keywordSet targetText) as target. intro target.
  apply filter_ext. intro kw. apply some_sameName.
Qed.

Lemma matchRatio_spec (matching total : list string) :
  matchRatio matching total = Spec.ratio matching total.
Proof. unfold matchRatio, Spec.ratio. now destruct total. Qed.

Lemma clamp_spec (z : Z) : Z.max 0 (Z.min 100 z) = Spec.clamp 0 100 z.
Proof.
  unfold Spec.clamp.
  destruct (Z.ltb_spec z 0); [lia|]. destruct (Z.ltb_spec 100 z); lia.
Qed.

Lemma bonus_spec (flag : bool) (n : Z) : bonus flag n = Spec.points flag n.
Proof. now destruct flag. Qed.

Lemma nonempty_iff {A} (a : list A) : Nat.ltb 0 (List.length a) = true <-> a <> [].
Proof.
  destruct a; simpl; split; intro H;
    try reflexivity; try discriminate; now elim H.
Qed.

Lemma hasActionVerbsIn_iff (resumeText : string) :
  hasActionVerbsIn resumeText = true <->
  exists verb, In verb ACTION_VERBS /\ includes resumeText verb = true.
Proof. unfold hasActionVerbsIn, some. apply existsb_exists. Qed.

End Refinement.

(** C1. The score is the rounded, clamped weighted sum of the
    specification: 40 times the skill ratio, 30 times the keyword
    ratio, 15 when the profile has a metric, 10 when an action verb
    occurs in the lower-cased raw text, 5 when it has a certification;
    a ratio is 0.5 when its target set is empty.  The matching skills
    that the ratio counts are those the result reports, for a profile
    whose skills are a set. *)
Theorem C1_score_formula (profile : ParsedResume)
        (title description : string) (requirements : list string) :
  exists hasMetrics hasActionVerbs hasCertification : bool,
    (hasMetrics = true <-> metrics profile <> []) /\
    (hasActionVerbs = true <->
       exists verb, In verb ACTION_VERBS /\
                    includes (toLowerCase (rawText profile)) verb = true) /\
    (hasCertification = true <-> certifications profile <> []) /\
    resumeScore (analyzeResumeForJob profile title description requirements) =
    Spec.score profile (jobTextOf title description requirements)
               hasMetrics hasActionVerbs hasCertification /\
    (NoDup (skills profile) ->
     matchingSkills (analyzeResumeForJob profile title description requirements) =
     Spec.matchingSkills profile (jobTextOf title description requirements)).
Proof.
  exists (Nat.ltb 0 (List.length (metrics profile))),
         (hasActionVerbsIn (toLowerCase (rawText profile))),
         (Nat.ltb 0 (List.length (certifications profile))).
  split; [apply nonempty_iff|].
  split; [apply hasActionVerbsIn_iff|].
  split; [apply nonempty_iff|].
  unfold analyzeResumeForJob. cbn [resumeScore matchingSkills].
  generalize (jobTextOf title description requirements) as targetText.
  intro targetText. split.
  - unfold scoreOf, Spec.score, Spec.skillRatio, Spec.keywordRatio.
    rewrite clamp_spec, !bonus_spec, !matchRatio_spec.
    rewrite matchingSkillsOf_spec, matchingKeywordsOf_spec.
    rewrite extractKeywordsFromText_keywordSet, jobSkillsOf_spec.
    reflexivity.
  - intro Hnd. rewrite matchingSkillsOf_spec. apply fromSet_id.
    unfold Spec.matchingSkills. now apply NoDup_filter.
Qed.

(* ================================================================= *)
(** ** The Match Scorer: the two ratios *)

Lemma resumeScore_eq (resume : ParsedResume) (jobTitle jobDescription : string)
      (jobRequirements : list string) :
  resumeScore (analyzeResumeForJob resume jobTitle jobDescription jobRequirements) =
  let jobText := jobTextOf jobTitle jobDescription jobRequirements in
  scoreOf (skillMatchRatioOf resume jobText) (keywordMatchRatioOf resume jobText)
          (Nat.ltb 0 (List.length (metrics resume)))
          (hasActionVerbsIn (toLowerCase (rawText resume)))
          (Nat.ltb 0 (List.length (certifications resume))).
Proof. reflexivity. Qed.

(** The decimal 0.1 is not a double, and 0.1 + 0.2 is not 0.3. *)
Example rnd_tenth :
  rnd (1 # 10) = (3602879701896397 # 36028797018963968)%Q.
Proof. vm_compute. reflexivity. Qed.

Example add_tenths :
  rnd (1 # 10) [+] rnd (2 # 10) = (1351079888211149 # 4503599627370496)%Q.
Proof. vm_compute. reflexivity. Qed.

(** Rounding at work: two thirds of the skills and one keyword in 36
    give 27.499999999999996 in doubles, which rounds down. *)
Example scoreOf_below_half :
  scoreOf (ofZ 2 [/] ofZ 3) (ofZ 1 [/] ofZ 36) false false false = 27%Z.
Proof. vm_compute. reflexivity. Qed.

Section Monotonicity.

Lemma matchRatio_mono (matching matching' total : list string) :
  List.length matching <= List.length matching' ->
  (matchRatio matching total <= matchRatio matching' total)%Q.
Proof.
  intro Hle. unfold matchRatio.
  destruct (Nat.ltb_spec 0 (List.length total)) as [Hpos|_].
  - apply div_mono_l; [now apply ofLength_pos | now apply ofLength_le].
  - apply Qle_refl.
Qed.

Lemma scoreOf_mono (skillRatio skillRatio' keywordRatio : Q)
      (hasMetrics hasActionVerbs hasCertifications : bool) :
  (skillRatio <= skillRatio')%Q ->
  (scoreOf skillRatio keywordRatio hasMetrics hasActionVerbs hasCertifications
   <= scoreOf skillRatio' keywordRatio hasMetrics hasActionVerbs hasCertifications)%Z.
Proof.
  intro Hle. unfold scoreOf.
  apply Z.max_le_compat_l, Z.min_le_compat_l, round_mono.
  repeat (apply add_mono; [|apply Qle_refl]).
  apply mul_mono_l; [discriminate | assumption].
Qed.

End Monotonicity.

Lemma matchingSkillsOf_withSkill (resume : ParsedResume) (skill : string)
      (jobSkills : list string) :
  In skill jobSkills ->
  matchingSkillsOf (withSkill resume skill) jobSkills =
  (matchingSkillsOf resume jobSkills ++ [skill])%list.
Proof.
  intro Hin. unfold matchingSkillsOf, withSkill. cbn [skills].
  rewrite filter_app. f_equal. cbn [filter].
  assert (H : some (fun js => sameName js skill) jobSkills = true).
  { unfold some. apply existsb_exists. exists skill. split; [assumption|].
    unfold sameName. apply String.eqb_refl. }
  now rewrite H.
Qed.

(** C4. With the target skills fixed and non-empty, adding to the
    profile one skill that is a target skill and matched no profile
    skill before raises the number of matching skills by one and never
    lowers the score. *)
Theorem C4_added_skill_monotone (resume : ParsedResume)
        (jobTitle jobDescription : string) (jobRequirements : list string)
        (skill : string) :
  jobSkillsOf (jobTextOf jobTitle jobDescription jobRequirements) <> [] ->
  In skill (jobSkillsOf (jobTextOf jobTitle jobDescription jobRequirements)) ->
  some (fun rs => sameName rs skill) (skills resume) = false ->
  List.length
    (matchingSkillsOf (withSkill resume skill)
       (jobSkillsOf (jobTextOf jobTitle jobDescription jobRequirements))) =
  S (List.length
       (matchingSkillsOf resume
          (jobSkillsOf (jobTextOf jobTitle jobDescription jobRequirements)))) /\
  (resumeScore
     (analyzeResumeForJob resume jobTitle jobDescription jobRequirements)
   <= resumeScore
        (analyzeResumeForJob (withSkill resume skill)
           jobTitle jobDescription jobRequirements))%Z.
Proof.
  intros _ Hin _.
  rewrite !resumeScore_eq. cbv zeta.
  generalize dependent (jobTextOf jobTitle jobDescription jobRequirements).
  intros jobText Hin.
  pose proof (matchingSkillsOf_withSkill resume skill _ Hin) as Hadd.
  split.
  - rewrite Hadd, length_app. simpl. lia.
  - cbn [withSkill rawText metrics certifications].
    replace (keywordMatchRatioOf (withSkill resume skill) jobText)
      with (keywordMatchRatioOf resume jobText) by reflexivity.
    apply scoreOf_mono. unfold skillMatchRatioOf. cbv zeta.
    apply matchRatio_mono. rewrite Hadd, length_app. simpl. lia.
Qed.

Lemma C4_added_skill_monotone_witness :
  let resume := parseResumeText "python" in
  (resumeScore (analyzeResumeForJob resume "" "python docker" [])
   <= resumeScore
        (analyzeResumeForJob (withSkill resume "docker") "" "python docker" []))%Z.
Proof.
  intro resume.
  apply (C4_added_skill_monotone resume "" "python docker" [] "docker").
  - vm_compute. discriminate.
  - vm_compute. right. left. reflexivity.
  - vm_compute. reflexivity.
Defined.

(* ================================================================= *)
(** ** Empty inputs *)

Section EmptyTarget.

(** The job text of an empty title, an empty description and no
    requirement is the two separating spaces of the template. *)
Lemma jobTextOf_empty : jobTextOf "" "" [] = "  ".
Proof. reflexivity. Qed.

Lemma jobSkillsOf_blank : jobSkillsOf "  " = [].
Proof. vm_compute. reflexivity. Qed.

Lemma extractKeywordsFromText_blank : extractKeywordsFromText "  " = [].
Proof. vm_compute. reflexivity. Qed.

Lemma scoreOf_default (hasMetrics hasActionVerbs hasCertifications : bool) :
  scoreOf (1 # 2) (1 # 2) hasMetrics hasActionVerbs hasCertifications =
  (35 + (if hasMetrics then 15 else 0)
      + (if hasActionVerbs then 10 else 0)
      + (if hasCertifications then 5 else 0))%Z.
Proof.
  destruct hasMetrics, hasActionVerbs, hasCertifications;
    vm_compute; reflexivity.
Qed.

End EmptyTarget.

(** C5. [parseResumeText] of the empty string is the profile whose
    collections are all empty and whose raw text is empty; and against
    an empty title, an empty description and no requirement both ratios
    are 0.5 for every profile, so that the score is 35 plus the
    profile's own signals: 15 for metrics, 10 for action verbs, 5 for
    certifications. *)
Theorem C5_empty_inputs :
  parseResumeText "" =
    {| rawText := ""; skills := []; experience := []; education := [];
       certifications := []; keywords := []; metrics := [] |} /\
  forall resume : ParsedResume,
    jobSkillsOf (jobTextOf "" "" []) = [] /\
    extractKeywordsFromText (jobTextOf "" "" []) = [] /\
    skillMatchRatioOf resume (jobTextOf "" "" []) = (1 # 2)%Q /\
    keywordMatchRatioOf resume (jobTextOf "" "" []) = (1 # 2)%Q /\
    resumeScore (analyzeResumeForJob resume "" "" []) =
      (35 + (if Nat.ltb 0 (List.length (metrics resume)) then 15 else 0)
          + (if hasActionVerbsIn (toLowerCase (rawText resume)) then 10 else 0)
          + (if Nat.ltb 0 (List.length (certifications resume)) then 5 else 0))%Z.
Proof.
  split; [vm_compute; reflexivity|].
  intro resume.
  assert (Hs : skillMatchRatioOf resume (jobTextOf "" "" []) = (1 # 2)%Q).
  { unfold skillMatchRatioOf. rewrite jobTextOf_empty, jobSkillsOf_blank.
    reflexivity. }
  assert (Hk : keywordMatchRatioOf resume (jobTextOf "" "" []) = (1 # 2)%Q).
  { unfold keywordMatchRatioOf.
    rewrite jobTextOf_empty, extractKeywordsFromText_blank. reflexivity. }
  rewrite resumeScore_eq. cbv zeta. rewrite Hs, Hk.
  rewrite jobTextOf_empty.
  split; [apply jobSkillsOf_blank|].
  split; [apply extractKeywordsFromText_blank|].
  split; [reflexivity|].
  split; [reflexivity|].
  apply scoreOf_default.
Qed.

(* ================================================================= *)
(** ** Case-insensitive extraction *)

Lemma parseResumeText_skills (text : string) :
  skills (parseResumeText text) =
  filter (fun skill => includes (toLowerCase text) (toLowerCase skill))
         TECH_SKILLS.
Proof. reflexivity. Qed.

(** C6. A term is among the extracted skills exactly when it is a term
    of the skill vocabulary whose lower-case form is a substring of the
    lower-cased input; so two inputs that agree once lower-cased have
    the same skills, as have "I use REACT and React.js" and its
    lower-case spelling. *)
Theorem C6_case_insensitive_skills :
  (forall text term : string,
     In term (skills (parseResumeText text)) <->
     In term TECH_SKILLS /\
     includes (toLowerCase text) (toLowerCase term) = true) /\
  (forall text text' : string,
     toLowerCase text = toLowerCase text' ->
     skills (parseResumeText text) = skills (parseResumeText text')) /\
  skills (parseResumeText "I use REACT and React.js") =
  skills (parseResumeText "i use react and react.js") /\
  skills (parseResumeText "I use REACT and React.js") = ["react"].
Proof.
  split; [|split; [|split]].
  - intros text term. rewrite parseResumeText_skills.
    apply (filter_In
             (fun skill => includes (toLowerCase text) (toLowerCase skill))).
  - intros text text' H. rewrite !parseResumeText_skills. now rewrite H.
  - vm_compute. reflexivity.
  - vm_compute. reflexivity.
Qed.

(* ================================================================= *)
(** ** Metrics: the multiplier pattern is case-sensitive *)

(** C10. The multiplier pattern [\d+x] has no [i] flag while the phrase
    patterns have it: "10X" yields no metric where "10x" yields one,
    and "5 USERS" is a metric like "5 users". *)
Theorem C10_multiplier_case_sensitive :
  (exists text : string,
     metrics (parseResumeText text) = [] /\
     metrics (parseResumeText (toLowerCase text)) = ["10x"]) /\
  metrics (parseResumeText "10X") = [] /\
  metrics (parseResumeText "10x") = ["10x"] /\
  metrics (parseResumeText "Grew 10X") = [] /\
  metrics (parseResumeText "Grew 10x") = ["10x"] /\
  metrics (parseResumeText "5 USERS") = ["5 USERS"] /\
  metrics (parseResumeText "5 users") = ["5 users"] /\
  map ignoreCaseFlag METRICS_PATTERNS = [false; false; false; true; true; true].
Proof.
  split.
  - exists "10X". split; vm_compute; reflexivity.
  - repeat (split; [vm_compute; reflexivity|]). vm_compute. reflexivity.
Qed.

(* ================================================================= *)
(** ** The Profile Completeness Scorer *)

Section ProfilePresence.

Lemma trimStart_allWhiteSpace (s : string) :
  allWhiteSpace s = true -> trimStart s = "".
Proof.
  induction s as [|c r IH]; simpl; [reflexivity|].
  intro H. apply andb_prop in H. destruct H as [Hc Hr].
  rewrite Hc. now apply IH.
Qed.

Lemma trim_allWhiteSpace (s : string) :
  allWhiteSpace s = true -> trim s = "".
Proof. intro H. unfold trim. now rewrite trimStart_allWhiteSpace. Qed.

Lemma hasProfileOf_blank (linkedinUrl : string) :
  allWhiteSpace linkedinUrl = true -> hasProfileOf linkedinUrl = false.
Proof.
  intro H. unfold hasProfileOf. rewrite (trim_allWhiteSpace _ H).
  apply andb_false_r.
Qed.

Lemma hasProfileOf_trimmed (linkedinUrl : string) :
  trim linkedinUrl <> "" -> hasProfileOf linkedinUrl = true.
Proof.
  intro H. unfold hasProfileOf. apply andb_true_intro. split.
  - destruct (String.eqb_spec linkedinUrl "") as [E|_]; [|reflexivity].
    subst. now elim H.
  - destruct (trim linkedinUrl); [now elim H | reflexivity].
Qed.

End ProfilePresence.

(** C7. A reference that is empty or made of white space counts as no
    profile: the score is 50 and the overall feedback is the
    missing-profile narrative, whatever analysis of the resume is
    supplied, if any. *)
Theorem C7_missing_profile (linkedinUrl jobTitle jobDescription : string)
        (jobRequirements : list string)
        (resumeAnalysis : option ResumeAnalysis) :
  allWhiteSpace linkedinUrl = true ->
  let analysis :=
    analyzeLinkedInProfile linkedinUrl jobTitle jobDescription
                           jobRequirements resumeAnalysis in
  hasProfileOf linkedinUrl = false /\
  LinkedIn.linkedinScore analysis = 50%Z /\
  LinkedIn.overallFeedback analysis = missingProfileFeedback.
Proof.
  intro H. pose proof (hasProfileOf_blank _ H) as Hp.
  unfold analyzeLinkedInProfile.
  cbn [LinkedIn.linkedinScore LinkedIn.overallFeedback].
  unfold linkedinScoreOf, linkedinBand. rewrite Hp.
  split; [reflexivity|split; reflexivity].
Qed.

Lemma C7_missing_profile_witness :
  let strong :=
    {| resumeScore := 100; matchingKeywords := []; missingKeywords := [];
       matchingSkills := ["python"]; missingSkills := [];
       strengthsFound := []; improvementAreas := [];
       metricsSuggestions := []; keywordDensity := 100;
       overallFeedback := "" |} in
  let analysis :=
    analyzeLinkedInProfile "   " "Backend Engineer" "python" [] (Some strong) in
  hasProfileOf "   " = false /\
  LinkedIn.linkedinScore analysis = 50%Z /\
  LinkedIn.overallFeedback analysis = missingProfileFeedback.
Proof.
  intro strong.
  apply (C7_missing_profile "   " "Backend Engineer" "python" [] (Some strong)).
  reflexivity.
Defined.

Section Blending.

Lemma indicators_count (a b : bool) :
  (Z.of_nat (List.length (filter (fun x : bool => x) [a; b])) * 25
   = 25 * (Z.b2z a + Z.b2z b))%Z.
Proof. now destruct a, b. Qed.

Lemma linkedinScoreOf_present (linkedinUrl : string)
      (resumeAnalysis : option ResumeAnalysis) :
  hasProfileOf linkedinUrl = true ->
  linkedinScoreOf linkedinUrl resumeAnalysis =
  match resumeAnalysis with
  | Some ra =>
      round ((ofZ (completenessOf linkedinUrl) [+] ofZ (resumeScore ra))
             [/] ofZ 2)
  | None => completenessOf linkedinUrl
  end.
Proof.
  intro Hp. unfold linkedinScoreOf, completenessOf, urlIndicatorsOf.
  rewrite Hp, indicators_count, toLowerCase_length. reflexivity.
Qed.

(** On scores between 0 and 100 the blend is the mean of the two,
    a half going up: no rounding error enters. *)
Lemma blend_exact (a b : Z) :
  (0 <= a <= 100)%Z -> (0 <= b <= 100)%Z ->
  round ((ofZ a [+] ofZ b) [/] ofZ 2) = ((a + b + 1) / 2)%Z.
Proof.
  intros Ha Hb.
  assert (H : forallb
                (fun i =>
                   forallb
                     (fun j =>
                        Z.eqb (round ((ofZ (Z.of_nat i) [+] ofZ (Z.of_nat j))
                                      [/] ofZ 2))
                              ((Z.of_nat i + Z.of_nat j + 1) / 2))
                     (seq 0 101))
                (seq 0 101) = true)
    by (vm_compute; reflexivity).
  rewrite forallb_forall in H.
  specialize (H (Z.to_nat a)). rewrite forallb_forall in H.
  specialize (H ltac:(apply in_seq; lia) (Z.to_nat b) ltac:(apply in_seq; lia)).
  rewrite !Z2Nat.id in H by lia. now apply Z.eqb_eq.
Qed.

End Blending.



(* ================================================================= *)
(** ** The overall feedback of the Profile Completeness Scorer *)

(** C9, as stated, fails: the scores 45 and 25 lie in different bands of
    the Match Scorer and receive the same feedback here. *)
Lemma C9_no_fourth_band :
  let at45 := analyzeLinkedInProfile "x" "" "" [] (Some (resumeScored 40)) in
  let at25 := analyzeLinkedInProfile "x" "" "" [] (Some (resumeScored 0)) in
  LinkedIn.linkedinScore at45 = 45%Z /\
  LinkedIn.linkedinScore at25 = 25%Z /\
  resumeBand 45 <> resumeBand 25 /\
  LinkedIn.overallFeedback at45 = LinkedIn.overallFeedback at25 /\
  ~ fourTierFeedback.
Proof.
  split; [vm_compute; reflexivity|].
  split; [vm_compute; reflexivity|].
  split; [vm_compute; discriminate|].
  split; [vm_compute; reflexivity|].
  intros (excellent & good & moderate & weak & missing & Hnd & H).
  pose proof (H "x" "" "" [] (Some (resumeScored 40))) as H45.
  pose proof (H "x" "" "" [] (Some (resumeScored 0))) as H25.
  vm_compute in H45. vm_compute in H25.
  assert (E : moderate = weak) by congruence.
  subst. inversion Hnd as [|? ? _ Hnd1]. inversion Hnd1 as [|? ? _ Hnd2].
  inversion Hnd2 as [|? ? Hnot _]. apply Hnot. now left.
Qed.

(** C9, amended. The overall feedback is the missing-profile narrative
    when there is no profile, whatever the score; otherwise one of
    three narratives chosen by the score: at least 80, at least 60,
    below 60.  The four narratives differ. *)
Theorem C9_feedback_bands (linkedinUrl jobTitle jobDescription : string)
        (jobRequirements : list string)
        (resumeAnalysis : option ResumeAnalysis) :
  let analysis :=
    analyzeLinkedInProfile linkedinUrl jobTitle jobDescription
                           jobRequirements resumeAnalysis in
  let score := LinkedIn.linkedinScore analysis in
  LinkedIn.overallFeedback analysis =
    (if negb (hasProfileOf linkedinUrl) then missingProfileFeedback
     else if (80 <=? score)%Z then excellentProfileFeedback
     else if (60 <=? score)%Z then goodProfileFeedback
     else weakProfileFeedback) /\
  NoDup [missingProfileFeedback; excellentProfileFeedback;
         goodProfileFeedback; weakProfileFeedback].
Proof.
  split; [reflexivity|].
  repeat constructor; simpl; intuition discriminate.
Qed.

(* ================================================================= *)
(** ** Substrings *)

Section Substrings.

Lemma append_assoc (a b c : string) : (a ++ b) ++ c = a ++ (b ++ c).
Proof. induction a as [|x a IH]; simpl; [reflexivity | now rewrite IH]. Qed.

Lemma append_empty_r (a : string) : a ++ "" = a.
Proof. induction a as [|x a IH]; simpl; [reflexivity | now rewrite IH]. Qed.

Lemma append_length (a b : string) :
  String.length (a ++ b) = String.length a + String.length b.
Proof. induction a as [|x a IH]; simpl; [reflexivity | now rewrite IH]. Qed.

Lemma startsWith_iff (t s : string) :
  startsWith t s = true <-> exists post, s = t ++ post.
Proof.
  revert s. induction t as [|a t IH]; intro s; simpl.
  - split; [intros _; now exists s | reflexivity].
  - destruct s as [|b s].
    + split; [discriminate | intros [post H]; discriminate].
    + rewrite andb_true_iff, IH. split.
      * intros [Hab [post ->]]. apply Ascii.eqb_eq in Hab. subst.
        now exists post.
      * intros [post H]. injection H as -> ->. split.
        -- apply Ascii.eqb_refl.
        -- now exists post.
Qed.

(** [s.includes(t)] holds exactly when [t] lies somewhere in [s]. *)
Lemma includes_iff (s t : string) :
  includes s t = true <-> exists pre post, s = pre ++ t ++ post.
Proof.
  split.
  - induction s as [|c s IH]; simpl; rewrite orb_true_iff.
    + intros [H|H]; [|discriminate].
      apply startsWith_iff in H. destruct H as [post H]. now exists "", post.
    + intros [H|H].
      * apply startsWith_iff in H. destruct H as [post H]. now exists "", post.
      * destruct (IH H) as (pre & post & ->). now exists (String c pre), post.
  - intros (pre & post & ->). induction pre as [|c pre IH]; simpl.
    + assert (H : startsWith t (t ++ post) = true)
        by (apply startsWith_iff; now exists post).
      destruct (t ++ post); simpl in *; rewrite H; reflexivity.
    + rewrite IH. apply orb_true_r.
Qed.

Lemma includes_extend (pre s post t : string) :
  includes s t = true -> includes (pre ++ s ++ post) t = true.
Proof.
  intro H. apply includes_iff in H. destruct H as (a & b & ->).
  apply includes_iff. exists (pre ++ a), (b ++ post).
  now rewrite !append_assoc.
Qed.

Lemma includes_refl (s : string) : includes s s = true.
Proof. apply includes_iff. exists "", "". simpl. now rewrite append_empty_r. Qed.

Lemma toLowerCase_app (a b : string) :
  toLowerCase (a ++ b) = toLowerCase a ++ toLowerCase b.
Proof. induction a as [|x a IH]; simpl; [reflexivity | now rewrite IH]. Qed.

Lemma lowerChar_idem (c : ascii) : lowerChar (lowerChar c) = lowerChar c.
Proof. destruct c as [[] [] [] [] [] [] [] []]; reflexivity. Qed.

Lemma toLowerCase_idem (s : string) :
  toLowerCase (toLowerCase s) = toLowerCase s.
Proof.
  induction s as [|c s IH]; simpl; [reflexivity|].
  now rewrite lowerChar_idem, IH.
Qed.

End Substrings.

Section Tables.

Lemma existsb_eqb_In (x : string) (l : list string) :
  existsb (String.eqb x) l = true <-> In x l.
Proof.
  rewrite existsb_exists. split.
  - intros [y [Hy E]]. apply String.eqb_eq in E. now subst.
  - intro H. exists x. split; [assumption | apply String.eqb_refl].
Qed.

Lemma distinct_NoDup (l : list string) : distinct l = true -> NoDup l.
Proof.
  induction l as [|x r IH]; simpl; intro H; constructor.
  - apply andb_prop in H. destruct H as [H _].
    intro Hin. apply existsb_eqb_In in Hin. now rewrite Hin in H.
  - apply IH. now apply andb_prop in H.
Qed.

(** A loop that pushes the entries satisfying [p] is a filter. *)
Lemma push_filter {A} (p : A -> bool) (l acc : list A) :
  fold_left (fun acc x => if p x then (acc ++ [x])%list else acc) l acc =
  (acc ++ filter p l)%list.
Proof.
  revert acc. induction l as [|x l IH]; intro acc; simpl.
  - now rewrite app_nil_r.
  - rewrite IH. destruct (p x); [now rewrite <- app_assoc | reflexivity].
Qed.

Lemma skill_and_verb_tables_distinct : NoDup (TECH_SKILLS ++ ACTION_VERBS)%list.
Proof. apply distinct_NoDup. vm_compute. reflexivity. Qed.

Lemma keyword_tables_distinct : NoDup (TECH_SKILLS ++ jobTerms)%list.
Proof. apply distinct_NoDup. vm_compute. reflexivity. Qed.

Lemma experienceIndicators_distinct : NoDup experienceIndicators.
Proof. apply distinct_NoDup. vm_compute. reflexivity. Qed.

Lemma educationKeywords_distinct : NoDup educationKeywords.
Proof. apply distinct_NoDup. vm_compute. reflexivity. Qed.

Lemma certKeywords_distinct : NoDup certKeywords.
Proof. apply distinct_NoDup. vm_compute. reflexivity. Qed.

End Tables.

(* ================================================================= *)
(** ** [parseResumeText]: the vocabulary fields *)

Section ParsedFields.

(** The vocabulary fields of a parsed resume, as filters of the tables
    by the lower-cased text. *)
Lemma parseResumeText_fields (text : string) :
  let lowerText := toLowerCase text in
  let found := fun term => includes lowerText (toLowerCase term) in
  skills (parseResumeText text) = filter found TECH_SKILLS /\
  keywords (parseResumeText text) = filter found (TECH_SKILLS ++ ACTION_VERBS)%list /\
  experience (parseResumeText text) =
    filter (includes lowerText) experienceIndicators /\
  education (parseResumeText text) =
    filter (includes lowerText) educationKeywords /\
  certifications (parseResumeText text) =
    filter (includes lowerText) certKeywords.
Proof.
  unfold parseResumeText.
  cbn [skills keywords experience education certifications].
  repeat split.
  - now rewrite filter_app.
  - apply (push_filter (includes (toLowerCase text)) experienceIndicators []).
Qed.

Lemma parseResumeText_lower_agree (text text' : string) :
  toLowerCase text = toLowerCase text' ->
  skills (parseResumeText text) = skills (parseResumeText text') /\
  keywords (parseResumeText text) = keywords (parseResumeText text') /\
  experience (parseResumeText text) = experience (parseResumeText text') /\
  education (parseResumeText text) = education (parseResumeText text') /\
  certifications (parseResumeText text) = certifications (parseResumeText text').
Proof.
  intro H.
  destruct (parseResumeText_fields text) as (-> & -> & -> & -> & ->).
  destruct (parseResumeText_fields text') as (-> & -> & -> & -> & ->).
  cbv zeta. rewrite H. repeat split.
Qed.

End ParsedFields.

(** X1. Lower-casing a resume changes none of its vocabulary fields:
    skills, keywords, experience, education and certifications are
    those of the original text. *)
Theorem parseResumeText_lowercased (text : string) :
  skills (parseResumeText (toLowerCase text)) = skills (parseResumeText text) /\
  keywords (parseResumeText (toLowerCase text)) = keywords (parseResumeText text) /\
  experience (parseResumeText (toLowerCase text)) =
    experience (parseResumeText text) /\
  education (parseResumeText (toLowerCase text)) =
    education (parseResumeText text) /\
  certifications (parseResumeText (toLowerCase text)) =
    certifications (parseResumeText text).
Proof. apply parseResumeText_lower_agree, toLowerCase_idem. Qed.

(** X2. Text added before or after a resume never removes an entry:
    every skill, keyword, experience marker, education marker and
    certification found in a text is found in the longer text. *)
Theorem parseResumeText_extend (before text after term : string) :
  let longer := before ++ text ++ after in
  (In term (skills (parseResumeText text)) ->
   In term (skills (parseResumeText longer))) /\
  (In term (keywords (parseResumeText text)) ->
   In term (keywords (parseResumeText longer))) /\
  (In term (experience (parseResumeText text)) ->
   In term (experience (parseResumeText longer))) /\
  (In term (education (parseResumeText text)) ->
   In term (education (parseResumeText longer))) /\
  (In term (certifications (parseResumeText text)) ->
   In term (certifications (parseResumeText longer))).
Proof.
  intro longer.
  destruct (parseResumeText_fields text) as (-> & -> & -> & -> & ->).
  destruct (parseResumeText_fields longer) as (-> & -> & -> & -> & ->).
  cbv zeta. unfold longer. rewrite !toLowerCase_app.
  repeat split; intro H; apply filter_In in H; destruct H as [Hin Hfound];
    apply filter_In; (split; [assumption | now apply includes_extend]).
Qed.

(** X3. The vocabulary fields of a parsed resume are sets: none has a
    duplicate; and the keywords are the skills followed by the action
    verbs found, so that every skill is a keyword. *)
Theorem parseResumeText_sets (text : string) :
  let resume := parseResumeText text in
  NoDup (skills resume) /\
  NoDup (keywords resume) /\
  NoDup (experience resume) /\
  NoDup (education resume) /\
  NoDup (certifications resume) /\
  (exists verbs, keywords resume = (skills resume ++ verbs)%list /\
                 incl verbs ACTION_VERBS) /\
  incl (skills resume) (keywords resume).
Proof.
  intro resume. subst resume.
  destruct (parseResumeText_fields text) as (Hs & Hk & He & Hd & Hc).
  cbv zeta in Hs, Hk, He, Hd, Hc.
  revert Hs Hk He Hd Hc.
  generalize (parseResumeText text) as resume.
  intros resume -> -> -> -> ->.
  pose proof skill_and_verb_tables_distinct as Htables.
  split; [apply NoDup_filter; exact (NoDup_app_remove_r _ _ Htables)|].
  split; [now apply NoDup_filter|].
  split; [apply NoDup_filter, experienceIndicators_distinct|].
  split; [apply NoDup_filter, educationKeywords_distinct|].
  split; [apply NoDup_filter, certKeywords_distinct|].
  rewrite filter_app. split.
  - eexists. split; [reflexivity|]. intros x Hx.
    exact (proj1 (proj1 (filter_In _ _ _) Hx)).
  - intros x Hx. apply in_or_app. now left.
Qed.

(* ================================================================= *)
(** ** The matcher finds the words of the language *)

Section MatcherCorrect.

Variable ignoreCase : bool.

Lemma run_Star (r : regex) (s : string) (k : string -> option string) :
  run ignoreCase (Star r) s k =
  iterateFrom (run ignoreCase r) k (String.length s) s.
Proof. reflexivity. Qed.

Lemma run_Plus (r : regex) (s : string) (k : string -> option string) :
  run ignoreCase (Plus r) s k =
  run ignoreCase r s
      (fun s1 => iterateFrom (run ignoreCase r) k (String.length s1) s1).
Proof. reflexivity. Qed.

Lemma iterateFrom_sound (L : string -> Prop)
      (body : string -> (string -> option string) -> option string)
      (k : string -> option string) :
  (forall s k' out, body s k' = Some out ->
     exists w rest, s = w ++ rest /\ L w /\ k' rest = Some out) ->
  forall fuel s out,
    iterateFrom body k fuel s = Some out ->
    exists w rest, s = w ++ rest /\ starOf L w /\ k rest = Some out.
Proof.
  intros Hbody. induction fuel as [|fuel IH]; intros s out H; simpl in H.
  - exists "", s. repeat split; [constructor | assumption].
  - destruct (body s _) as [out'|] eqn:Hb.
    + injection H as ->.
      destruct (Hbody _ _ _ Hb) as (w1 & rest1 & -> & Hw1 & Hk).
      destruct (Nat.ltb _ _); [|discriminate].
      destruct (IH _ _ Hk) as (w2 & rest & -> & Hw2 & Hk2).
      exists (w1 ++ w2), rest. rewrite append_assoc.
      repeat split; [now constructor | assumption].
    + exists "", s. repeat split; [constructor | assumption].
Qed.

(** A successful run has consumed a word of the language, and its
    continuation has accepted the rest. *)
Lemma run_sound (r : regex) :
  forall s k out,
    run ignoreCase r s k = Some out ->
    exists w rest, s = w ++ rest /\ lang ignoreCase r w /\ k rest = Some out.
Proof.
  induction r as [a|l| |r1 IH1 r2 IH2|r1 IH1 r2 IH2|r IH|r IH|r IH];
    intros s k out H.
  - cbn in H. destruct s as [|c s]; [discriminate|].
    destruct (accepts ignoreCase a c) eqn:Ha; [|discriminate].
    exists (String c ""), s. repeat split; [|assumption]. now exists c.
  - cbn in H. destruct s as [|c s]; [discriminate|].
    destruct (existsb _ l) eqn:Ha; [|discriminate].
    exists (String c ""), s. repeat split; [|assumption]. now exists c.
  - cbn in H. exists "", s. repeat split; assumption.
  - cbn in H. destruct (IH1 _ _ _ H) as (w1 & rest1 & -> & Hw1 & H2).
    destruct (IH2 _ _ _ H2) as (w2 & rest & -> & Hw2 & Hk).
    exists (w1 ++ w2), rest. rewrite append_assoc.
    repeat split; [|assumption]. now exists w1, w2.
  - cbn in H. destruct (run ignoreCase r1 s k) as [out1|] eqn:H1.
    + destruct (IH1 _ _ _ H1) as (w & rest & -> & Hw & Hk).
      exists w, rest. repeat split; [now left | congruence].
    + destruct (IH2 _ _ _ H) as (w & rest & -> & Hw & Hk).
      exists w, rest. repeat split; [now right | assumption].
  - cbn in H. destruct (run ignoreCase r s k) as [out1|] eqn:H1.
    + destruct (IH _ _ _ H1) as (w & rest & -> & Hw & Hk).
      exists w, rest. repeat split; [now right | congruence].
    + exists "", s. repeat split; [now left | assumption].
  - rewrite run_Star in H.
    exact (iterateFrom_sound (lang ignoreCase r) _ k IH _ _ _ H).
  - rewrite run_Plus in H.
    destruct (IH _ _ _ H) as (w1 & rest1 & -> & Hw1 & H2).
    destruct (iterateFrom_sound (lang ignoreCase r) _ k IH _ _ _ H2)
      as (w2 & rest & -> & Hw2 & Hk).
    exists (w1 ++ w2), rest. rewrite append_assoc.
    repeat split; [|assumption]. now exists w1, w2.
Qed.

Lemma iterateFrom_complete (L : string -> Prop)
      (body : string -> (string -> option string) -> option string)
      (k : string -> option string) :
  (forall w rest k', L w -> k' rest <> None -> body (w ++ rest) k' <> None) ->
  forall w, starOf L w ->
  forall rest fuel,
    String.length (w ++ rest) <= fuel ->
    k rest <> None ->
    iterateFrom body k fuel (w ++ rest) <> None.
Proof.
  intros Hbody w Hw. induction Hw as [|w1 w2 Hw1 Hw2 IH]; intros rest fuel Hf Hk.
  - destruct fuel as [|fuel]; simpl; [assumption|].
    destruct (body rest _); [discriminate | assumption].
  - destruct w1 as [|c w1]; [now apply IH|].
    destruct fuel as [|fuel]; [simpl in Hf; lia|].
    cbn [iterateFrom].
    match goal with
    | |- match body ?s ?kk with _ => _ end <> None =>
        assert (Hb : body s kk <> None)
    end.
    { rewrite append_assoc. apply Hbody; [assumption|].
      rewrite <- append_assoc.
      replace (Nat.ltb _ _) with true.
      - apply IH; [|assumption].
        rewrite !append_length in Hf. simpl in Hf.
        rewrite append_length. lia.
      - symmetry. apply Nat.ltb_lt.
        cbn [append String.length]. rewrite ?append_length.
        cbn [String.length]. rewrite ?append_length. lia. }
    destruct (body _ _); [discriminate | now elim Hb].
Qed.

(** A run succeeds whenever a word of the language is followed by
    something its continuation accepts. *)
Lemma run_complete (r : regex) :
  forall w rest k,
    lang ignoreCase r w -> k rest <> None ->
    run ignoreCase r (w ++ rest) k <> None.
Proof.
  induction r as [a|l| |r1 IH1 r2 IH2|r1 IH1 r2 IH2|r IH|r IH|r IH];
    intros w rest k Hw Hk.
  - destruct Hw as (c & -> & Ha). cbn. now rewrite Ha.
  - destruct Hw as (c & -> & Ha). cbn. now rewrite Ha.
  - cbn in Hw. subst. assumption.
  - destruct Hw as (w1 & w2 & -> & Hw1 & Hw2). cbn. rewrite append_assoc.
    apply IH1; [assumption|]. now apply IH2.
  - cbn. destruct Hw as [Hw|Hw].
    + pose proof (IH1 _ _ _ Hw Hk) as H1.
      destruct (run ignoreCase r1 (w ++ rest) k); [discriminate | now elim H1].
    + destruct (run ignoreCase r1 (w ++ rest) k); [discriminate|].
      now apply IH2.
  - destruct Hw as [->|Hw]; cbn.
    + destruct (run ignoreCase r rest k); [discriminate | assumption].
    + pose proof (IH _ _ _ Hw Hk) as H1.
      destruct (run ignoreCase r (w ++ rest) k); [discriminate | now elim H1].
  - rewrite run_Star.
    apply (iterateFrom_complete (lang ignoreCase r) _ k IH); auto.
  - destruct Hw as (w1 & w2 & -> & Hw1 & Hw2). rewrite run_Plus.
    rewrite append_assoc. apply IH; [assumption|].
    apply (iterateFrom_complete (lang ignoreCase r) _ k IH); auto.
Qed.

Lemma matchHere_sound (r : regex) (s rest : string) :
  matchHere ignoreCase r s = Some rest ->
  exists w, s = w ++ rest /\ lang ignoreCase r w.
Proof.
  intro H. destruct (run_sound r _ _ _ H) as (w & rest' & -> & Hw & E).
  injection E as ->. now exists w.
Qed.

Lemma matchHere_complete (r : regex) (w rest : string) :
  lang ignoreCase r w -> matchHere ignoreCase r (w ++ rest) <> None.
Proof. intro H. apply run_complete; [assumption | discriminate]. Qed.

Lemma substring_prefix (w rest : string) :
  String.substring 0 (String.length (w ++ rest) - String.length rest)
                   (w ++ rest) = w.
Proof.
  rewrite append_length, Nat.add_sub.
  induction w as [|c w IH]; simpl.
  - now destruct rest.
  - now rewrite IH.
Qed.

(** Every match the scan reports is a word of the language lying in the
    text. *)
Lemma scan_sound (r : regex) :
  forall fuel s m,
    In m (scan ignoreCase fuel r s) ->
    (exists before after, s = before ++ m ++ after) /\ lang ignoreCase r m.
Proof.
  induction fuel as [|fuel IH]; intros s m H; simpl in H; [contradiction|].
  destruct (matchHere ignoreCase r s) as [rest|] eqn:Hm.
  - destruct (matchHere_sound _ _ _ Hm) as (w & -> & Hw).
    rewrite substring_prefix in H. destruct H as [<-|H].
    + split; [now exists "", rest | assumption].
    + destruct (w ++ rest) as [|c t] eqn:Es; [contradiction|].
      rewrite <- Es in H. rewrite append_length, Nat.add_sub in H.
      destruct (Nat.eqb (String.length w) 0) eqn:E0.
      * rewrite Es in H. simpl in H.
        destruct (IH _ _ H) as [(b & a & ->) Hl].
        split; [now exists (String c b), a | assumption].
      * destruct (IH _ _ H) as [(b & a & Hr) Hl].
        split; [|assumption]. exists (w ++ b), a.
        rewrite <- Es, Hr. now rewrite append_assoc.
  - destruct s as [|c t]; [contradiction|].
    destruct (IH _ _ H) as [(b & a & ->) Hl].
    split; [now exists (String c b), a | assumption].
Qed.

(** The scan reports something whenever a word of the language lies in
    the text. *)
Lemma scan_complete (r : regex) (w after : string) :
  lang ignoreCase r w ->
  forall before fuel,
    String.length (before ++ w ++ after) < fuel ->
    scan ignoreCase fuel r (before ++ w ++ after) <> [].
Proof.
  intros Hw. induction before as [|c before IH]; intros fuel Hf.
  - destruct fuel as [|fuel]; [lia|]. simpl.
    pose proof (matchHere_complete r w after Hw) as Hm.
    destruct (matchHere ignoreCase r (w ++ after)); [discriminate | now elim Hm].
  - destruct fuel as [|fuel]; [lia|]. cbn [scan].
    destruct (matchHere ignoreCase r _); [discriminate|].
    simpl. apply IH. simpl in Hf. lia.
Qed.

End MatcherCorrect.

Section Metrics.

Lemma matchGlobal_In (p : pattern) (text m : string) :
  (exists ms, matchGlobal p text = Some ms /\ In m ms) <->
  In m (scan (ignoreCaseFlag p) (S (String.length text)) (source p) text).
Proof.
  unfold matchGlobal.
  destruct (scan _ _ _ _) as [|x l]; split.
  - intros (ms & H & _). discriminate.
  - contradiction.
  - intros (ms & H & Hin). now injection H as <-.
  - intro H. now eexists.
Qed.

Lemma pushMatches_In (text m : string) (ps : list pattern) :
  forall acc,
    In m (fold_left
            (fun (metrics : list string) (p : pattern) =>
               match matchGlobal p text with
               | Some matches => (metrics ++ matches)%list
               | None => metrics
               end) ps acc) <->
    In m acc \/
    exists p, In p ps /\
              In m (scan (ignoreCaseFlag p) (S (String.length text))
                         (source p) text).
Proof.
  induction ps as [|p ps IH]; intro acc; simpl.
  - split; [auto | intros [H|(p & [] & _)]; assumption].
  - rewrite IH. split.
    + intros [H|(q & Hq & Hm)].
      * destruct (matchGlobal p text) as [ms|] eqn:E.
        -- apply in_app_or in H. destruct H as [H|H]; [now left|].
           right. exists p. split; [now left|].
           apply matchGlobal_In. now exists ms.
        -- now left.
      * right. exists q. split; [now right | assumption].
    + intros [H|(q & [<-|Hq] & Hm)].
      * left. destruct (matchGlobal p text); [apply in_or_app|]; auto.
      * left. apply matchGlobal_In in Hm. destruct Hm as (ms & -> & Hin).
        apply in_or_app. now right.
      * right. now exists q.
Qed.

Lemma extractMetrics_In (text m : string) :
  In m (extractMetrics text) <->
  exists p, In p METRICS_PATTERNS /\
            In m (scan (ignoreCaseFlag p) (S (String.length text))
                       (source p) text).
Proof.
  unfold extractMetrics. rewrite pushMatches_In. simpl In at 1. tauto.
Qed.

Lemma extractMetrics_sound (text m : string) :
  In m (extractMetrics text) ->
  exists p, In p METRICS_PATTERNS /\ occursIn p text m.
Proof.
  intro H. apply extractMetrics_In in H. destruct H as (p & Hp & Hm).
  exists p. split; [assumption|]. now apply scan_sound in Hm.
Qed.

Lemma extractMetrics_complete (text w : string) (p : pattern) :
  In p METRICS_PATTERNS -> occursIn p text w -> extractMetrics text <> [].
Proof.
  intros Hp [(before & after & ->) Hw] Hnil.
  pose proof (scan_complete (ignoreCaseFlag p) (source p) w after Hw before
                (S (String.length (before ++ w ++ after))) (Nat.lt_succ_diag_r _))
    as Hs.
  destruct (scan _ _ _ _) as [|x l] eqn:E; [now elim Hs|].
  assert (Hx : In x (extractMetrics (before ++ w ++ after))).
  { apply extractMetrics_In. exists p. split; [assumption|].
    rewrite E. now left. }
  rewrite Hnil in Hx. contradiction.
Qed.

(** A word of one of the six patterns begins with a digit or with the
    dollar sign. *)
Lemma metric_word_head (p : pattern) (w : string) :
  In p METRICS_PATTERNS -> lang (ignoreCaseFlag p) (source p) w ->
  exists c tail, w = String c tail /\ (isDigit c = true \/ c = "$"%char).
Proof.
  intros Hp Hw. simpl in Hp.
  destruct Hp as [<-|[<-|[<-|[<-|[<-|[<-|[]]]]]]];
    cbn [ignoreCaseFlag source countOf lang] in Hw;
    destruct Hw as (w1 & w2 & -> & H1 & _).
  - destruct H1 as (a & b & -> & (c & -> & Hc) & _).
    exists c, (b ++ w2). split; [reflexivity | now left].
  - destruct H1 as (c & -> & Hc). exists c, w2. split; [reflexivity|].
    right. cbn in Hc. now apply Ascii.eqb_eq in Hc.
  - destruct H1 as (a & b & -> & (c & -> & Hc) & _).
    exists c, (b ++ w2). split; [reflexivity | now left].
  - destruct H1 as (a & b & -> & (c & -> & Hc) & _).
    exists c, (b ++ w2). split; [reflexivity | now left].
  - destruct H1 as (a & b & -> & (c & -> & Hc) & _).
    exists c, (b ++ w2). split; [reflexivity | now left].
  - destruct H1 as (a & b & -> & (c & -> & Hc) & _).
    exists c, (b ++ w2). split; [reflexivity | now left].
Qed.

End Metrics.

(** X4. Every metric of a parsed resume is a piece of the original
    text, is a whole word of one of the six metrics patterns, and
    begins with a digit or with the dollar sign. *)
Theorem metrics_sound (text m : string) :
  In m (metrics (parseResumeText text)) ->
  includes text m = true /\
  (exists p, In p METRICS_PATTERNS /\ occursIn p text m) /\
  (exists c tail, m = String c tail /\ (isDigit c = true \/ c = "$"%char)).
Proof.
  intro H. change (metrics (parseResumeText text)) with (extractMetrics text) in H.
  destruct (extractMetrics_sound _ _ H) as (p & Hp & Hocc).
  split; [|split].
  - apply includes_iff. exact (proj1 Hocc).
  - now exists p.
  - exact (metric_word_head p m Hp (proj2 Hocc)).
Qed.

Lemma metrics_sound_witness :
  includes "Cut costs by 40% in 2 years" "2 years" = true.
Proof.
  apply (metrics_sound "Cut costs by 40% in 2 years" "2 years").
  vm_compute. right. left. reflexivity.
Defined.

(** X5. A parsed resume has a metric exactly when a word of one of the
    six patterns occurs in its text; so any text in which a digit is
    followed by the percent sign has one. *)
Theorem metrics_present_iff (text : string) :
  (metrics (parseResumeText text) <> [] <->
   exists p w, In p METRICS_PATTERNS /\ occursIn p text w) /\
  (forall before after d,
     isDigit d = true ->
     text = before ++ String d "%" ++ after ->
     metrics (parseResumeText text) <> []).
Proof.
  change (metrics (parseResumeText text)) with (extractMetrics text).
  split; [split|].
  - intro H. destruct (extractMetrics text) as [|m l] eqn:E; [now elim H|].
    destruct (extractMetrics_sound text m) as (p & Hp & Hocc).
    { rewrite E. now left. }
    now exists p, m.
  - intros (p & w & Hp & Hocc). now apply (extractMetrics_complete text w p).
  - intros before after d Hd ->.
    apply (extractMetrics_complete _ (String d "%")
             (mkPattern (Seq (Plus (One Digit)) (One (Lit "%"))) false)).
    + now left.
    + split; [now exists before, after|].
      cbn [ignoreCaseFlag source lang].
      exists (String d ""), "%". repeat split.
      * exists (String d ""), "". repeat split.
        -- now exists d.
        -- constructor.
      * exists "%"%char. split; reflexivity.
Qed.

(* ================================================================= *)
(** ** [extractKeywordsFromText]: the Set removes nothing *)

Section MoreArrayFacts.

Lemma slice0_In {A} (n : nat) (a : list A) (x : A) :
  In x (slice0 n a) -> In x a.
Proof.
  unfold slice0. intro H. rewrite <- (firstn_skipn n a).
  apply in_or_app. now left.
Qed.

Lemma slice0_NoDup {A} (n : nat) (a : list A) : NoDup a -> NoDup (slice0 n a).
Proof.
  unfold slice0. intro H. rewrite <- (firstn_skipn n a) in H.
  exact (NoDup_app_remove_r _ _ H).
Qed.

Lemma slice0_all {A} (n : nat) (a : list A) :
  List.length a <= n -> slice0 n a = a.
Proof. unfold slice0. apply firstn_all2. Qed.

Lemma slice0_length_min {A} (n : nat) (a : list A) :
  List.length (slice0 n a) = Nat.min n (List.length a).
Proof. unfold slice0. apply length_firstn. Qed.

Lemma pushIf_length_fired (c : bool) (item : string) (a : list string) :
  List.length (pushIf c item a) = List.length a + fired c.
Proof.
  unfold pushIf, fired. destruct c; [rewrite length_app; simpl|]; lia.
Qed.

Lemma pushIf_In (c : bool) (item x : string) (a : list string) :
  In x (pushIf c item a) <-> In x a \/ (c = true /\ x = item).
Proof.
  unfold pushIf. destruct c.
  - rewrite in_app_iff. simpl. intuition congruence.
  - intuition congruence.
Qed.

Lemma fromSet_elim (a : list string) (x : string) :
  In x (fromSet a) -> In x a.
Proof. apply fromSet_In. Qed.

Lemma filter_elim {A} (f : A -> bool) (l : list A) (x : A) :
  In x (filter f l) -> In x l /\ f x = true.
Proof. apply filter_In. Qed.

End MoreArrayFacts.

(** X6. The keyword list of a text is, in table order, the list of the
    vocabulary terms (skills, then job terms) whose lower-case form
    occurs in the text: the two tables share no term, so the final
    [Set] removes nothing, and the list has no duplicate. *)
Theorem extractKeywordsFromText_table_order (text : string) :
  extractKeywordsFromText text =
    filter (fun term => includes text (toLowerCase term))
           (TECH_SKILLS ++ jobTerms)%list /\
  NoDup (extractKeywordsFromText text).
Proof.
  split; [|apply extractKeywordsFromText_NoDup].
  rewrite extractKeywordsFromText_keywordSet. unfold Spec.keywordSet.
  apply fromSet_id. apply NoDup_filter, keyword_tables_distinct.
Qed.

(* ================================================================= *)
(** ** [analyzeResumeForJob]: matching and missing terms *)

Section MatchingAndMissing.

Lemma matching_missing_apart (ours theirs : list string) (x y : string) :
  In x ours ->
  In y (filter (fun kw => negb (some (fun rk => sameName rk kw) ours)) theirs) ->
  sameName x y = false.
Proof.
  intros Hx Hy. apply filter_elim in Hy. destruct Hy as [_ Hy].
  apply negb_true_iff in Hy.
  destruct (sameName x y) eqn:E; [|reflexivity].
  assert (Hs : some (fun rk => sameName rk y) ours = true).
  { unfold some. apply existsb_exists. now exists x. }
  congruence.
Qed.

End MatchingAndMissing.

(** X7. The matching and missing lists of an analysis are sets, taken
    from the resume and from the job respectively, and they are apart:
    no matching skill names a missing skill, no matching keyword names
    a missing keyword, case ignored. *)
Theorem matching_and_missing_apart (resume : ParsedResume)
        (jobTitle jobDescription : string) (jobRequirements : list string) :
  let a := analyzeResumeForJob resume jobTitle jobDescription jobRequirements in
  let jobText := jobTextOf jobTitle jobDescription jobRequirements in
  (NoDup (matchingSkills a) /\ NoDup (missingSkills a) /\
   NoDup (matchingKeywords a) /\ NoDup (missingKeywords a)) /\
  (incl (matchingSkills a) (skills resume) /\
   incl (missingSkills a) (jobSkillsOf jobText) /\
   incl (missingKeywords a) (extractKeywordsFromText jobText)) /\
  (forall x y, In x (matchingSkills a) -> In y (missingSkills a) ->
               sameName x y = false) /\
  (forall x y, In x (matchingKeywords a) -> In y (missingKeywords a) ->
               sameName x y = false).
Proof.
  intros a jobText. subst a jobText. unfold analyzeResumeForJob.
  cbn [matchingSkills missingSkills matchingKeywords missingKeywords].
  generalize (jobTextOf jobTitle jobDescription jobRequirements) as jobText.
  intro jobText.
  generalize (jobSkillsOf jobText) as jobSkills.
  generalize (extractKeywordsFromText jobText) as jobKeywords.
  generalize (extractKeywordsFromText (toLowerCase (rawText resume)))
    as resumeKeywords.
  intros resumeKeywords jobKeywords jobSkills.
  split; [|split; [|split]].
  - repeat split; try apply slice0_NoDup; apply fromSet_NoDup.
  - repeat split; intros x Hx.
    + apply fromSet_elim in Hx. unfold matchingSkillsOf in Hx.
      now apply filter_elim in Hx.
    + apply slice0_In, fromSet_elim in Hx. unfold missingSkillsOf in Hx.
      now apply filter_elim in Hx.
    + apply slice0_In, fromSet_elim in Hx. unfold missingKeywordsOf in Hx.
      apply slice0_In in Hx. now apply filter_elim in Hx.
  - intros x y Hx Hy. apply fromSet_elim in Hx.
    apply slice0_In, fromSet_elim in Hy.
    unfold matchingSkillsOf in Hx. apply filter_elim in Hx.
    exact (matching_missing_apart _ _ _ _ (proj1 Hx) Hy).
  - intros x y Hx Hy. apply slice0_In, fromSet_elim in Hx.
    apply slice0_In, fromSet_elim in Hy.
    unfold matchingKeywordsOf in Hx. apply filter_elim in Hx.
    unfold missingKeywordsOf in Hy. apply slice0_In in Hy.
    exact (matching_missing_apart _ _ _ _ (proj1 Hx) Hy).
Qed.

(* ================================================================= *)
(** ** [analyzeResumeForJob]: the score of a parsed resume *)

Section ScoreRange.

Lemma scoreOf_rawScoreOf (s k : Q) (m v c : bool) :
  scoreOf s k m v c = Z.max 0 (Z.min 100 (rawScoreOf s k m v c)).
Proof. unfold scoreOf, rawScoreOf. reflexivity. Qed.

Lemma bonus_mono (flag flag' : bool) (points : Z) :
  (0 <= points)%Z -> (flag = true -> flag' = true) ->
  (bonus flag points <= bonus flag' points)%Q.
Proof.
  intros Hp H. unfold bonus, ofZ.
  destruct flag, flag'; try apply Qle_refl.
  - discriminate (H eq_refl).
  - now rewrite <- Zle_Qle.
Qed.

Lemma rawScoreOf_mono (s s' k k' : Q) (m m' v v' c c' : bool) :
  (s <= s')%Q -> (k <= k')%Q ->
  (m = true -> m' = true) -> (v = true -> v' = true) ->
  (c = true -> c' = true) ->
  (rawScoreOf s k m v c <= rawScoreOf s' k' m' v' c')%Z.
Proof.
  intros Hs Hk Hm Hv Hc. unfold rawScoreOf. apply round_mono.
  repeat apply add_mono; try (apply bonus_mono; [lia | assumption]);
    apply mul_mono_l; try assumption; discriminate.
Qed.

Lemma rawScoreOf_zero (m v c : bool) :
  rawScoreOf 0 0 m v c =
  ((if m then 15 else 0) + (if v then 10 else 0) + (if c then 5 else 0))%Z.
Proof. destruct m, v, c; vm_compute; reflexivity. Qed.

Lemma rawScoreOf_one (m v c : bool) :
  rawScoreOf 1 1 m v c =
  (70 + ((if m then 15 else 0) + (if v then 10 else 0) +
         (if c then 5 else 0)))%Z.
Proof. destruct m, v, c; vm_compute; reflexivity. Qed.

Lemma matchRatio_nonneg (matching total : list string) :
  (0 <= matchRatio matching total)%Q.
Proof.
  unfold matchRatio.
  destruct (Nat.ltb_spec 0 (List.length total)) as [Hpos|_]; [|discriminate].
  unfold div. rewrite <- rnd_0. apply rnd_mono.
  apply Qle_shift_div_l; [now apply ofLength_pos|].
  rewrite Qmult_0_l. apply ofLength_nonneg.
Qed.

Lemma jobSkillsOf_eq (jobText : string) :
  jobSkillsOf jobText =
  filter (fun skill => includes jobText (toLowerCase skill)) TECH_SKILLS.
Proof. reflexivity. Qed.

Lemma jobSkillsOf_lowercase (jobText x : string) :
  In x (jobSkillsOf jobText) -> toLowerCase x = x.
Proof.
  intro H. rewrite jobSkillsOf_eq in H. apply filter_elim in H.
  destruct H as [H _].
  apply vocabulary_lowercase. apply in_or_app. left. exact H.
Qed.

Lemma parsed_skills_lowercase (text x : string) :
  In x (skills (parseResumeText text)) -> toLowerCase x = x.
Proof.
  intro H. rewrite parseResumeText_skills in H. apply filter_elim in H.
  destruct H as [H _].
  apply vocabulary_lowercase. apply in_or_app. left. exact H.
Qed.

Lemma parsed_skills_NoDup (text : string) :
  NoDup (skills (parseResumeText text)).
Proof.
  rewrite parseResumeText_skills. apply NoDup_filter.
  exact (NoDup_app_remove_r _ _ skill_and_verb_tables_distinct).
Qed.

Lemma matchingSkillsOf_eq (resume : ParsedResume) (jobSkills : list string) :
  matchingSkillsOf resume jobSkills =
  matchingKeywordsOf (skills resume) jobSkills.
Proof. reflexivity. Qed.

(** A parsed resume matches no more skills than the job has. *)
Lemma parsed_matchingSkills_le (text jobText : string) :
  List.length (matchingSkillsOf (parseResumeText text) (jobSkillsOf jobText))
  <= List.length (jobSkillsOf jobText).
Proof.
  rewrite matchingSkillsOf_eq. apply matching_length_le.
  - apply parsed_skills_NoDup.
  - apply parsed_skills_lowercase.
  - apply jobSkillsOf_lowercase.
Qed.

End ScoreRange.

(** X8. For a resume produced by [parseResumeText] the clamp is idle:
    the rounded weighted sum already lies between the points earned by
    the resume's own signals (15 for metrics, 10 for action verbs, 5
    for certifications) and 70 more, the skill ratio being at most 1. *)
Theorem parsed_resume_score_range (text jobTitle jobDescription : string)
        (jobRequirements : list string) :
  let resume := parseResumeText text in
  let jobText := jobTextOf jobTitle jobDescription jobRequirements in
  let hasMetrics := Nat.ltb 0 (List.length (metrics resume)) in
  let hasActionVerbs := hasActionVerbsIn (toLowerCase text) in
  let hasCertifications := Nat.ltb 0 (List.length (certifications resume)) in
  let own := ((if hasMetrics then 15 else 0) +
              (if hasActionVerbs then 10 else 0) +
              (if hasCertifications then 5 else 0))%Z in
  let score :=
    resumeScore
      (analyzeResumeForJob resume jobTitle jobDescription jobRequirements) in
  (skillMatchRatioOf resume jobText <= 1)%Q /\
  score = rawScoreOf (skillMatchRatioOf resume jobText)
                     (keywordMatchRatioOf resume jobText)
                     hasMetrics hasActionVerbs hasCertifications /\
  (own <= score <= 70 + own)%Z.
Proof.
  intros resume jobText hasMetrics hasActionVerbs hasCertifications own score.
  assert (Hs : (0 <= skillMatchRatioOf resume jobText <= 1)%Q).
  { apply matchRatio_range, parsed_matchingSkills_le. }
  assert (Hk : (0 <= keywordMatchRatioOf resume jobText <= 1)%Q).
  { apply matchRatio_range, matchingKeywords_le. }
  assert (Hlo : (own <= rawScoreOf (skillMatchRatioOf resume jobText)
                                   (keywordMatchRatioOf resume jobText)
                                   hasMetrics hasActionVerbs hasCertifications)%Z).
  { unfold own. rewrite <- rawScoreOf_zero.
    apply rawScoreOf_mono; tauto. }
  assert (Hhi : (rawScoreOf (skillMatchRatioOf resume jobText)
                            (keywordMatchRatioOf resume jobText)
                            hasMetrics hasActionVerbs hasCertifications
                 <= 70 + own)%Z).
  { unfold own. rewrite <- rawScoreOf_one.
    apply rawScoreOf_mono; tauto. }
  assert (Hown : (0 <= own <= 30)%Z).
  { unfold own. destruct hasMetrics, hasActionVerbs, hasCertifications; lia. }
  assert (E : score = rawScoreOf (skillMatchRatioOf resume jobText)
                                 (keywordMatchRatioOf resume jobText)
                                 hasMetrics hasActionVerbs hasCertifications).
  { unfold score. rewrite resumeScore_eq. cbv zeta.
    rewrite scoreOf_rawScoreOf. fold jobText. cbn [rawText resume parseResumeText].
    fold resume. fold hasMetrics hasCertifications hasActionVerbs. lia. }
  split; [tauto|]. split; [assumption|]. rewrite E. lia.
Qed.

(** X9. Whatever the job and however the profile was built, the score
    is at least the points of the profile's own signals: 15 for a
    metric, 10 for an action verb in the raw text, 5 for a
    certification. *)
Theorem score_floor (resume : ParsedResume) (jobTitle jobDescription : string)
        (jobRequirements : list string) :
  ((if Nat.ltb 0 (List.length (metrics resume)) then 15 else 0) +
   (if hasActionVerbsIn (toLowerCase (rawText resume)) then 10 else 0) +
   (if Nat.ltb 0 (List.length (certifications resume)) then 5 else 0)
   <= resumeScore
        (analyzeResumeForJob resume jobTitle jobDescription jobRequirements))%Z.
Proof.
  rewrite resumeScore_eq. cbv zeta. rewrite scoreOf_rawScoreOf.
  set (m := Nat.ltb 0 (List.length (metrics resume))).
  set (v := hasActionVerbsIn (toLowerCase (rawText resume))).
  set (c := Nat.ltb 0 (List.length (certifications resume))).
  match goal with
  | |- (_ <= Z.max 0 (Z.min 100 (rawScoreOf ?s ?k _ _ _)))%Z =>
      assert (H : (rawScoreOf 0 0 m v c <= rawScoreOf s k m v c)%Z)
        by (apply rawScoreOf_mono; try tauto; apply matchRatio_nonneg)
  end.
  rewrite rawScoreOf_zero in H. destruct m, v, c; lia.
Qed.

(* ================================================================= *)
(** ** [analyzeResumeForJob]: the advice *)

Section Advice.

(** The strengths, by their triggers; [m1] and [m4] are the two built
    from a template. *)
Lemma strengths_metrics (c1 c2 c3 c4 c5 : bool) (m1 m4 : string) :
  m1 <> metricsStrength -> m4 <> metricsStrength ->
  (In metricsStrength
      (slice0 4
         (pushIf c5 "Strong keyword alignment with job description"
            (pushIf c4 m4
               (pushIf c3 actionVerbsStrength
                  (pushIf c2 metricsStrength (pushIf c1 m1 []))))))
   <-> c2 = true).
Proof.
  intros H1 H4. destruct c1, c2, c3, c4, c5; cbn;
    (split; [intro H; repeat (destruct H as [H|H]; try discriminate H;
                              try (now elim H1); try (now elim H4));
             try contradiction; reflexivity
            | intro H; try discriminate H; tauto]).
Qed.

Lemma strengths_actionVerbs (c1 c2 c3 c4 c5 : bool) (m1 m4 : string) :
  m1 <> actionVerbsStrength -> m4 <> actionVerbsStrength ->
  (In actionVerbsStrength
      (slice0 4
         (pushIf c5 "Strong keyword alignment with job description"
            (pushIf c4 m4
               (pushIf c3 actionVerbsStrength
                  (pushIf c2 metricsStrength (pushIf c1 m1 []))))))
   <-> c3 = true).
Proof.
  intros H1 H4. destruct c1, c2, c3, c4, c5; cbn;
    (split; [intro H; repeat (destruct H as [H|H]; try discriminate H;
                              try (now elim H1); try (now elim H4));
             try contradiction; reflexivity
            | intro H; try discriminate H; tauto]).
Qed.

Lemma improvements_metrics (c1 c2 c3 c4 : bool) (m1 m4 : string) :
  m1 <> metricsAdvice -> m4 <> metricsAdvice ->
  (In metricsAdvice
      (slice0 4
         (pushIf c4 m4
            (pushIf c3 actionVerbsAdvice
               (pushIf c2 metricsAdvice (pushIf c1 m1 [])))))
   <-> c2 = true).
Proof.
  intros H1 H4. destruct c1, c2, c3, c4; cbn;
    (split; [intro H; repeat (destruct H as [H|H]; try discriminate H;
                              try (now elim H1); try (now elim H4));
             try contradiction; reflexivity
            | intro H; try discriminate H; tauto]).
Qed.

Lemma improvements_actionVerbs (c1 c2 c3 c4 : bool) (m1 m4 : string) :
  m1 <> actionVerbsAdvice -> m4 <> actionVerbsAdvice ->
  (In actionVerbsAdvice
      (slice0 4
         (pushIf c4 m4
            (pushIf c3 actionVerbsAdvice
               (pushIf c2 metricsAdvice (pushIf c1 m1 [])))))
   <-> c3 = true).
Proof.
  intros H1 H4. destruct c1, c2, c3, c4; cbn;
    (split; [intro H; repeat (destruct H as [H|H]; try discriminate H;
                              try (now elim H1); try (now elim H4));
             try contradiction; reflexivity
            | intro H; try discriminate H; tauto]).
Qed.

Lemma pushed5_length (cap : nat) (c1 c2 c3 c4 c5 : bool)
      (m1 m2 m3 m4 m5 : string) :
  List.length
    (slice0 cap
       (pushIf c5 m5 (pushIf c4 m4 (pushIf c3 m3
          (pushIf c2 m2 (pushIf c1 m1 []))))))
  = Nat.min cap (firedCount [c1; c2; c3; c4; c5]).
Proof.
  rewrite slice0_length_min, !pushIf_length_fired.
  destruct c1, c2, c3, c4, c5; reflexivity.
Qed.

Lemma pushed4_length (c1 c2 c3 c4 : bool) (m1 m2 m3 m4 : string) :
  List.length
    (slice0 4
       (pushIf c4 m4 (pushIf c3 m3 (pushIf c2 m2 (pushIf c1 m1 [])))))
  = firedCount [c1; c2; c3; c4].
Proof.
  rewrite slice0_length_min, !pushIf_length_fired.
  destruct c1, c2, c3, c4; reflexivity.
Qed.

End Advice.

(** X10. The advice about metrics and about action verbs is never
    contradictory and never missing: the analysis praises the use of
    metrics exactly when the profile has two or more, and asks for more
    exactly when it has fewer; it praises action verbs exactly when
    one occurs in the raw text, and asks for them exactly when none
    does. *)
Theorem advice_consistent (resume : ParsedResume)
        (jobTitle jobDescription : string) (jobRequirements : list string) :
  let a := analyzeResumeForJob resume jobTitle jobDescription jobRequirements in
  let hasActionVerbs := hasActionVerbsIn (toLowerCase (rawText resume)) in
  (In metricsStrength (strengthsFound a) <-> 2 <= List.length (metrics resume)) /\
  (In metricsAdvice (improvementAreas a) <-> List.length (metrics resume) < 2) /\
  (In actionVerbsStrength (strengthsFound a) <-> hasActionVerbs = true) /\
  (In actionVerbsAdvice (improvementAreas a) <-> hasActionVerbs = false).
Proof.
  intros a hasActionVerbs. subst a hasActionVerbs.
  unfold analyzeResumeForJob. cbn [strengthsFound improvementAreas].
  split; [|split; [|split]].
  - rewrite <- Nat.leb_le. apply strengths_metrics; intro E; discriminate E.
  - rewrite <- Nat.ltb_lt. apply improvements_metrics; intro E; discriminate E.
  - apply strengths_actionVerbs; intro E; discriminate E.
  - rewrite <- negb_true_iff.
    apply improvements_actionVerbs; intro E; discriminate E.
Qed.

(** X11. Each list of advice has one entry for every rule that fires,
    up to its cap: the strengths are the fired ones of five rules,
    at most 4; the metrics suggestions those of five, at most 3; the
    improvement areas those of four, so that their cap of 4 never
    drops one. *)
Theorem advice_counts (resume : ParsedResume)
        (jobTitle jobDescription : string) (jobRequirements : list string) :
  let a := analyzeResumeForJob resume jobTitle jobDescription jobRequirements in
  let jobText := jobTextOf jobTitle jobDescription jobRequirements in
  List.length (strengthsFound a) =
    Nat.min 4 (firedCount (strengthTriggers resume jobText)) /\
  List.length (improvementAreas a) =
    firedCount (improvementTriggers resume jobText) /\
  List.length (metricsSuggestions a) =
    Nat.min 3 (firedCount (suggestionTriggers jobText)).
Proof.
  intros a jobText. subst a jobText.
  unfold analyzeResumeForJob.
  cbn [strengthsFound improvementAreas metricsSuggestions].
  split; [|split].
  - apply pushed5_length.
  - apply pushed4_length.
  - apply pushed5_length.
Qed.

Section SameRatios.

Lemma skillMatchRatioOf_ext (resume resume' : ParsedResume) (jobText : string) :
  skills resume = skills resume' ->
  skillMatchRatioOf resume jobText = skillMatchRatioOf resume' jobText.
Proof.
  intro H. unfold skillMatchRatioOf, matchingSkillsOf. now rewrite H.
Qed.

Lemma keywordMatchRatioOf_ext (resume resume' : ParsedResume)
      (jobText : string) :
  rawText resume = rawText resume' ->
  keywordMatchRatioOf resume jobText = keywordMatchRatioOf resume' jobText.
Proof. intro H. unfold keywordMatchRatioOf. now rewrite H. Qed.

End SameRatios.

(** X12. One more certification, or one more metric, never lowers the
    score of a profile against a job. *)
Theorem more_signals_never_hurt (resume : ParsedResume)
        (jobTitle jobDescription : string) (jobRequirements : list string)
        (cert metric : string) :
  let score := fun r =>
    resumeScore (analyzeResumeForJob r jobTitle jobDescription jobRequirements) in
  (score resume <= score (withCertification resume cert))%Z /\
  (score resume <= score (withMetric resume metric))%Z.
Proof.
  intro score. subst score. cbv beta. rewrite !resumeScore_eq. cbv zeta.
  generalize (jobTextOf jobTitle jobDescription jobRequirements) as jobText.
  intro jobText.
  rewrite (skillMatchRatioOf_ext (withCertification resume cert) resume)
    by reflexivity.
  rewrite (keywordMatchRatioOf_ext (withCertification resume cert) resume)
    by reflexivity.
  rewrite (skillMatchRatioOf_ext (withMetric resume metric) resume)
    by reflexivity.
  rewrite (keywordMatchRatioOf_ext (withMetric resume metric) resume)
    by reflexivity.
  cbn [withCertification withMetric rawText metrics certifications].
  rewrite !scoreOf_rawScoreOf.
  split; apply Z.max_le_compat_l, Z.min_le_compat_l, rawScoreOf_mono;
    try apply Qle_refl; try tauto; intros _;
    rewrite length_app; simpl; apply Nat.ltb_lt; lia.
Qed.

(* ================================================================= *)
(** ** [analyzeLinkedInProfile]: presence of a profile *)

Section Trimming.

Lemma trimEnd_empty (s : string) :
  trimEnd s = "" <-> allWhiteSpace s = true.
Proof.
  induction s as [|c s IH]; simpl; [tauto|].
  destruct (trimEnd s) as [|d t] eqn:E.
  - destruct (isWhiteSpace c); simpl.
    + split; [intros _; now apply IH | reflexivity].
    + split; discriminate.
  - split; [discriminate|].
    intro H. apply andb_prop in H. destruct H as [_ H].
    apply IH in H. discriminate.
Qed.

Lemma allWhiteSpace_trimStart (s : string) :
  allWhiteSpace (trimStart s) = allWhiteSpace s.
Proof.
  induction s as [|c s IH]; simpl; [reflexivity|].
  destruct (isWhiteSpace c) eqn:E; simpl; [assumption|].
  now rewrite E.
Qed.

Lemma trim_empty_iff (s : string) :
  trim s = "" <-> allWhiteSpace s = true.
Proof. unfold trim. now rewrite trimEnd_empty, allWhiteSpace_trimStart. Qed.

End Trimming.

(** X13. A reference counts as a profile exactly when it has a
    character that is not white space. *)
Theorem hasProfile_iff (linkedinUrl : string) :
  hasProfileOf linkedinUrl = negb (allWhiteSpace linkedinUrl).
Proof.
  destruct (allWhiteSpace linkedinUrl) eqn:E.
  - now apply hasProfileOf_blank.
  - apply hasProfileOf_trimmed. intro H. apply trim_empty_iff in H. congruence.
Qed.

(* ================================================================= *)
(** ** [analyzeLinkedInProfile]: the range of the score *)

Section LinkedInScore.

Lemma completenessOf_values (linkedinUrl : string) :
  completenessOf linkedinUrl = 50%Z \/
  completenessOf linkedinUrl = 75%Z \/
  completenessOf linkedinUrl = 100%Z.
Proof.
  unfold completenessOf.
  destruct (includes _ _), (Nat.ltb _ _); simpl; auto.
Qed.

Lemma linkedinScoreOf_alone (linkedinUrl : string) :
  linkedinScoreOf linkedinUrl None = 50%Z \/
  linkedinScoreOf linkedinUrl None = 75%Z \/
  linkedinScoreOf linkedinUrl None = 100%Z.
Proof.
  destruct (hasProfileOf linkedinUrl) eqn:Hp.
  - rewrite linkedinScoreOf_present by assumption. apply completenessOf_values.
  - left. unfold linkedinScoreOf. now rewrite Hp.
Qed.

Lemma linkedinScoreOf_blended (linkedinUrl : string) (ra : ResumeAnalysis) :
  (0 <= resumeScore ra <= 100)%Z ->
  (25 <= linkedinScoreOf linkedinUrl (Some ra) <= 100)%Z.
Proof.
  intro Hr. destruct (hasProfileOf linkedinUrl) eqn:Hp.
  - rewrite linkedinScoreOf_present by assumption.
    pose proof (completenessOf_values linkedinUrl) as Hc.
    rewrite blend_exact
      by (first [assumption | destruct Hc as [E|[E|E]]; rewrite E; lia]).
    destruct Hc as [->|[->| ->]];
      (split; [apply Z.div_le_lower_bound
              | apply Z.lt_succ_r, Z.div_lt_upper_bound]; lia).
  - unfold linkedinScoreOf. rewrite Hp. lia.
Qed.

Lemma analyzeResumeForJob_score_range (resume : ParsedResume)
      (jobTitle jobDescription : string) (jobRequirements : list string) :
  (0 <= resumeScore
          (analyzeResumeForJob resume jobTitle jobDescription jobRequirements)
     <= 100)%Z.
Proof. rewrite resumeScore_eq. cbv zeta. unfold scoreOf. lia. Qed.

End LinkedInScore.

(** X14. Alone, the Profile Completeness Scorer gives 50, 75 or 100;
    blended with the analysis that [analyzeResumeForJob] made of any
    resume for any job, it gives a score between 25 and 100. *)
Theorem linkedinScore_range (linkedinUrl jobTitle jobDescription : string)
        (jobRequirements : list string) (resume : ParsedResume)
        (title' description' : string) (requirements' : list string) :
  let alone :=
    LinkedIn.linkedinScore
      (analyzeLinkedInProfile linkedinUrl jobTitle jobDescription
                              jobRequirements None) in
  let blended :=
    LinkedIn.linkedinScore
      (analyzeLinkedInProfile linkedinUrl jobTitle jobDescription
         jobRequirements
         (Some (analyzeResumeForJob resume title' description' requirements'))) in
  (alone = 50 \/ alone = 75 \/ alone = 100)%Z /\
  (25 <= blended <= 100)%Z.
Proof.
  intros alone blended. subst alone blended.
  unfold analyzeLinkedInProfile. cbn [LinkedIn.linkedinScore]. split.
  - apply linkedinScoreOf_alone.
  - apply linkedinScoreOf_blended, analyzeResumeForJob_score_range.
Qed.

(* ================================================================= *)
(** ** [analyzeLinkedInProfile]: the lists *)

Section LinkedInLists.

Lemma fromSet_length_le (a : list string) :
  List.length (fromSet a) <= List.length a.
Proof.
  induction a as [|x r IH]; simpl; [lia|].
  pose proof (filter_length_le (fun y => negb (String.eqb x y)) (fromSet r)) as H.
  lia.
Qed.

Lemma jobSkillsOf_NoDup (jobText : string) : NoDup (jobSkillsOf jobText).
Proof.
  rewrite jobSkillsOf_eq. apply NoDup_filter.
  exact (NoDup_app_remove_r _ _ skill_and_verb_tables_distinct).
Qed.

Lemma analysis_skills_apart (resume : ParsedResume)
      (jobTitle jobDescription : string) (jobRequirements : list string)
      (x y : string) :
  let a := analyzeResumeForJob resume jobTitle jobDescription jobRequirements in
  In x (matchingSkills a) -> In y (missingSkills a) -> sameName x y = false.
Proof.
  intro a. subst a. unfold analyzeResumeForJob.
  cbn [matchingSkills missingSkills].
  generalize (jobSkillsOf (jobTextOf jobTitle jobDescription jobRequirements))
    as jobSkills.
  intros jobSkills Hx Hy.
  apply fromSet_elim in Hx. apply slice0_In, fromSet_elim in Hy.
  unfold matchingSkillsOf in Hx. apply filter_elim in Hx.
  exact (matching_missing_apart _ _ _ _ (proj1 Hx) Hy).
Qed.

End LinkedInLists.

(** X15. The lists of the profile analysis keep their sizes: two
    summary remarks without a profile and three with one, at most five
    endorsement suggestions and four skill gaps, none repeated, and
    the five general improvements. *)
Theorem linkedin_lists (linkedinUrl jobTitle jobDescription : string)
        (jobRequirements : list string)
        (resumeAnalysis : option ResumeAnalysis) :
  let a :=
    analyzeLinkedInProfile linkedinUrl jobTitle jobDescription
                           jobRequirements resumeAnalysis in
  List.length (LinkedIn.summaryFeedback a) =
    (if hasProfileOf linkedinUrl then 3 else 2) /\
  List.length (LinkedIn.endorsementSuggestions a) <= 5 /\
  List.length (LinkedIn.skillGaps a) <= 4 /\
  NoDup (LinkedIn.endorsementSuggestions a) /\
  NoDup (LinkedIn.skillGaps a) /\
  List.length (LinkedIn.improvements a) = 5.
Proof.
  intro a. subst a. unfold analyzeLinkedInProfile.
  cbn [LinkedIn.summaryFeedback LinkedIn.endorsementSuggestions
       LinkedIn.skillGaps LinkedIn.improvements].
  split; [now destruct (hasProfileOf linkedinUrl)|].
  split; [eapply Nat.le_trans; [apply fromSet_length_le|];
          destruct resumeAnalysis; apply slice0_length|].
  split; [eapply Nat.le_trans; [apply fromSet_length_le|];
          destruct resumeAnalysis; apply slice0_length|].
  split; [apply fromSet_NoDup|].
  split; [apply fromSet_NoDup | reflexivity].
Qed.

(** X16. Without an analysis of the resume the skill gaps are the first
    four of the endorsement suggestions: every skill reported as a gap
    is also suggested for endorsement. *)
Theorem gaps_without_resume (linkedinUrl jobTitle jobDescription : string)
        (jobRequirements : list string) :
  let a :=
    analyzeLinkedInProfile linkedinUrl jobTitle jobDescription
                           jobRequirements None in
  LinkedIn.skillGaps a = slice0 4 (LinkedIn.endorsementSuggestions a) /\
  incl (LinkedIn.skillGaps a) (LinkedIn.endorsementSuggestions a).
Proof.
  intro a. subst a. unfold analyzeLinkedInProfile.
  cbn [LinkedIn.endorsementSuggestions LinkedIn.skillGaps].
  pose proof (jobSkillsOf_NoDup
                (jobTextOf jobTitle jobDescription jobRequirements)) as Hnd.
  revert Hnd.
  generalize (jobSkillsOf (jobTextOf jobTitle jobDescription jobRequirements))
    as jobSkills.
  intros jobSkills Hnd.
  rewrite !fromSet_id by now apply slice0_NoDup.
  assert (E : slice0 4 jobSkills = slice0 4 (slice0 5 jobSkills)).
  { unfold slice0. now rewrite firstn_firstn. }
  split; [assumption|].
  rewrite E. intros x Hx. now apply slice0_In in Hx.
Qed.

(** X17. With the analysis that [analyzeResumeForJob] made of the
    resume, the two lists are apart: no endorsement suggestion names a
    skill gap, case ignored. *)
Theorem gaps_with_resume (linkedinUrl jobTitle jobDescription : string)
        (jobRequirements : list string) (resume : ParsedResume)
        (title' description' : string) (requirements' : list string)
        (x y : string) :
  let ra := analyzeResumeForJob resume title' description' requirements' in
  let a :=
    analyzeLinkedInProfile linkedinUrl jobTitle jobDescription
                           jobRequirements (Some ra) in
  In x (LinkedIn.endorsementSuggestions a) ->
  In y (LinkedIn.skillGaps a) ->
  sameName x y = false.
Proof.
  intros ra a. subst a. unfold analyzeLinkedInProfile.
  cbn [LinkedIn.endorsementSuggestions LinkedIn.skillGaps].
  intros Hx Hy.
  apply fromSet_elim, slice0_In in Hx. apply fromSet_elim, slice0_In in Hy.
  exact (analysis_skills_apart resume title' description' requirements'
                               x y Hx Hy).
Qed.

Lemma gaps_with_resume_witness :
  sameName "python" "docker" = false.
Proof.
  apply (gaps_with_resume "https://www.linkedin.com/in/jane" "Engineer"
           "python and docker" [] (parseResumeText "I know Python")
           "Engineer" "python and docker" [] "python" "docker").
  - vm_compute. left. reflexivity.
  - vm_compute. left. reflexivity.
Defined.

(* ================================================================= *)
(** ** [analyzeLinkedInProfile]: the headline *)

Section Headline.

Lemma splitSpace_nonempty (s : string) : splitSpace s <> [].
Proof.
  destruct s as [|c r]; simpl; [discriminate|].
  destruct (Ascii.eqb c " "); [discriminate|].
  destruct (splitSpace r); discriminate.
Qed.

(** Joining with spaces what was split at spaces gives the string back. *)
Lemma join_splitSpace (s : string) : join " " (splitSpace s) = s.
Proof.
  unfold join. induction s as [|c r IH]; [reflexivity|].
  cbn [splitSpace]. destruct (Ascii.eqb_spec c " ") as [->|_].
  - pose proof (splitSpace_nonempty r) as Hne.
    destruct (splitSpace r) as [|h t]; [now elim Hne|].
    change (String.concat " " ("" :: h :: t))
      with ("" ++ " " ++ String.concat " " (h :: t)).
    now rewrite IH.
  - pose proof (splitSpace_nonempty r) as Hne.
    destruct (splitSpace r) as [|h t]; [now elim Hne|].
    destruct t as [|y t].
    + cbn [String.concat] in *. now rewrite IH.
    + change (String.concat " " (String c h :: y :: t))
        with (String c (h ++ " " ++ String.concat " " (y :: t))).
      change (String.concat " " (h :: y :: t))
        with (h ++ " " ++ String.concat " " (y :: t)) in IH.
      now rewrite IH.
Qed.

Lemma splitSpace_no_space (s piece : string) :
  In piece (splitSpace s) -> countSpaces piece = 0.
Proof.
  revert piece. induction s as [|c r IH]; intros piece H.
  - destruct H as [<-|[]]. reflexivity.
  - cbn [splitSpace] in H. destruct (Ascii.eqb c " ") eqn:E.
    + destruct H as [<-|H]; [reflexivity | now apply IH].
    + destruct (splitSpace r) as [|h t].
      * destruct H as [<-|[]]. simpl. now rewrite E.
      * destruct H as [<-|H].
        -- simpl. rewrite E. apply IH. now left.
        -- apply IH. now right.
Qed.

Lemma countSpaces_app (a b : string) :
  countSpaces (a ++ b) = countSpaces a + countSpaces b.
Proof. induction a as [|c a IH]; simpl; [reflexivity | rewrite IH; lia]. Qed.

Lemma concat_app (sep : string) (a b : list string) :
  a <> [] -> b <> [] ->
  String.concat sep (a ++ b) = String.concat sep a ++ sep ++ String.concat sep b.
Proof.
  intros Ha Hb. induction a as [|x a IH]; [now elim Ha|].
  destruct a as [|x' a].
  - destruct b as [|y b]; [now elim Hb | reflexivity].
  - change (String.concat sep ((x :: x' :: a) ++ b))
      with (x ++ sep ++ String.concat sep ((x' :: a) ++ b)).
    rewrite IH by discriminate.
    change (String.concat sep (x :: x' :: a))
      with (x ++ sep ++ String.concat sep (x' :: a)).
    now rewrite !append_assoc.
Qed.

(** The last two pieces, joined: a suffix with at most one space, which
    is everything when there are no more than two. *)
Lemma lastTwo_suffix (s : string) :
  let role := join " " (sliceLast 2 (splitSpace s)) in
  exists before,
    s = before ++ role /\
    countSpaces role <= 1 /\
    (before = "" \/ (countSpaces role = 1 /\ exists b, before = b ++ " ")).
Proof.
  intro role. subst role.
  pose proof (join_splitSpace s) as Hj.
  pose proof (splitSpace_no_space s) as Hns.
  pose proof (splitSpace_nonempty s) as Hne.
  unfold join, sliceLast in *.
  destruct (splitSpace s) as [|x l]; [now elim Hne|]. clear Hne.
  destruct l as [|y l].
  - exists "". cbn. cbn in Hj. subst s.
    rewrite (Hns x) by now left. repeat split; auto.
  - destruct l as [|z l].
    + exists "". cbn [skipn List.length Nat.sub].
      rewrite Hj. split; [reflexivity|]. split; [|now left].
      rewrite <- Hj. cbn [String.concat].
      rewrite !countSpaces_app, (Hns x), (Hns y) by (simpl; auto).
      simpl. lia.
    + set (whole := x :: y :: z :: l) in *.
      set (k := List.length whole - 2).
      assert (Hk : List.length (skipn k whole) = 2).
      { rewrite length_skipn. unfold k, whole. cbn [List.length]. lia. }
      assert (Hf : firstn k whole <> []).
      { intro E. apply (f_equal (@List.length string)) in E.
        rewrite length_firstn in E. unfold k, whole in E.
        cbn [List.length] in E. lia. }
      destruct (skipn k whole) as [|p [|q [|? ?]]] eqn:Es;
        try discriminate Hk.
      assert (Hp : countSpaces p = 0).
      { apply Hns. rewrite <- (firstn_skipn k whole). apply in_or_app.
        right. rewrite Es. now left. }
      assert (Hq : countSpaces q = 0).
      { apply Hns. rewrite <- (firstn_skipn k whole). apply in_or_app.
        right. rewrite Es. right. now left. }
      exists (String.concat " " (firstn k whole) ++ " ").
      split; [|split].
      * rewrite <- Hj at 1. rewrite <- (firstn_skipn k whole) at 1.
        rewrite concat_app by (rewrite ?Es; auto; discriminate).
        rewrite Es. now rewrite append_assoc.
      * cbn [String.concat]. rewrite !countSpaces_app, Hp, Hq. simpl. lia.
      * right. split.
        -- cbn [String.concat]. rewrite !countSpaces_app, Hp, Hq.
           reflexivity.
        -- now eexists.
Qed.

End Headline.

(** X18. The suggested headline opens with the last two words of the
    job title: a suffix of the title with at most one space, the whole
    title when that is all it has, and otherwise preceded by a space. *)
Theorem headline_role (linkedinUrl jobTitle jobDescription : string)
        (jobRequirements : list string)
        (resumeAnalysis : option ResumeAnalysis) :
  let a :=
    analyzeLinkedInProfile linkedinUrl jobTitle jobDescription
                           jobRequirements resumeAnalysis in
  exists before role rest,
    jobTitle = before ++ role /\
    LinkedIn.headlineSuggestion a = role ++ " | " ++ rest /\
    countSpaces role <= 1 /\
    (before = "" \/ (countSpaces role = 1 /\ exists b, before = b ++ " ")).
Proof.
  intro a. subst a. unfold analyzeLinkedInProfile.
  cbn [LinkedIn.headlineSuggestion].
  destruct (lastTwo_suffix jobTitle) as (before & Ht & Hc & Hb).
  cbv zeta in Ht, Hc, Hb.
  exists before, (join " " (sliceLast 2 (splitSpace jobTitle))).
  destruct resumeAnalysis as [ra|];
    [destruct (Nat.ltb 0 (List.length (matchingSkills ra)))|];
    eexists; (split; [exact Ht|]); (split; [reflexivity|]);
    (split; [exact Hc | exact Hb]).
Qed.

Example generateRequirements_sample :
  Stream.generateRequirements (Stream.extractKeywords "Senior React and Python developer") =
  (Stream.baseRequirements ++
   [ "3+ years of experience with React and modern JavaScript";
     "Proficiency in TypeScript and CSS-in-JS solutions" ])%list.
Proof. vm_compute. reflexivity. Qed.

(* ================================================================= *)
(** ** Random draws *)

Section UnitDraws.

Lemma rnd_positive (r : Q) : (0 < r)%Q -> rnd r = nearest r.
Proof.
  intro H. unfold rnd.
  now rewrite (proj1 (Qgt_alt r 0) H).
Qed.

(** The largest double below one is [1 - 2^-53]. *)
Lemma unitDouble_le (r : Q) : unitDouble r -> (r <= 1 - pow2 (-53))%Q.
Proof.
  intros (H0 & H1 & Hr).
  destruct (Qlt_le_dec 0 r) as [Hpos|Hle].
  2:{ apply Qle_trans with 0%Q; [exact Hle|]. vm_compute. discriminate. }
  rewrite (rnd_positive r Hpos), nearest_eq in Hr.
  destruct (exponent_spec r Hpos) as [Hlo Hhi].
  assert (He : (exponent r < 0)%Z).
  { apply pow2_lt_inv. change (pow2 0) with 1%Q.
    eapply Qle_lt_trans; [exact Hlo | exact H1]. }
  destruct (Z.eq_dec (exponent r) (-1)) as [E|E].
  - unfold ulp in Hr. rewrite E in Hr. change (-1 - 52)%Z with (-53)%Z in Hr.
    set (m := roundHalfEven (r / pow2 (-1 - 52))) in *.
    assert (Hm : (m < 2 ^ 53)%Z).
    { destruct (Z_lt_le_dec m (2 ^ 53)) as [?|Hge]; [assumption|exfalso].
      apply (Qlt_irrefl 1). eapply Qle_lt_trans; [|exact H1].
      rewrite <- Hr.
      apply Qle_trans with (inject_Z (2 ^ 53) * pow2 (-53))%Q.
      - vm_compute. discriminate.
      - apply Qmult_le_compat_r; [now rewrite <- Zle_Qle|].
        apply Qlt_le_weak, pow2_pos. }
    rewrite <- Hr.
    apply Qle_trans with (inject_Z (2 ^ 53 - 1) * pow2 (-53))%Q.
    + apply Qmult_le_compat_r; [rewrite <- Zle_Qle; apply Z.lt_le_pred, Hm|].
      apply Qlt_le_weak, pow2_pos.
    + vm_compute. discriminate.
  - apply Qle_trans with (pow2 (-1)).
    + apply Qlt_le_weak. eapply Qlt_le_trans; [exact Hhi|].
      apply pow2_le. lia.
    + vm_compute. discriminate.
Qed.

Lemma mul_nonneg (r c : Q) : (0 <= r)%Q -> (0 <= c)%Q -> (0 <= r [*] c)%Q.
Proof.
  intros Hr Hc. unfold mul. rewrite <- rnd_0 at 1.
  apply rnd_mono. now apply Qmult_le_0_compat.
Qed.

Lemma below_table :
  forallb (fun k => (Qfloor ((1 - pow2 (-53)) [*] ofLength k) <? Z.of_nat k)%Z)
          (seq 1 100) = true.
Proof. vm_compute. reflexivity. Qed.

(** [Math.floor(Math.random() * n)] is one of [0 .. n-1]. *)
Lemma floor_draw_range (r : Q) (n : nat) :
  unitDouble r -> 0 < n <= 100 ->
  (0 <= JsMath.floor (r [*] ofLength n) < Z.of_nat n)%Z.
Proof.
  intros Hr Hn. pose proof (unitDouble_le r Hr) as Hle.
  destruct Hr as (H0 & _ & _). unfold JsMath.floor. split.
  - change 0%Z with (Qfloor 0). apply Qfloor_resp_le.
    apply mul_nonneg; [exact H0 | apply ofLength_nonneg].
  - assert (Hin : In n (seq 1 100)) by (apply in_seq; lia).
    pose proof (proj1 (forallb_forall _ _) below_table n Hin) as Hb.
    cbv beta in Hb. apply Z.ltb_lt in Hb.
    eapply Z.le_lt_trans; [|exact Hb].
    apply Qfloor_resp_le. unfold mul. apply rnd_mono.
    apply Qmult_le_compat_r; [exact Hle | apply ofLength_nonneg].
Qed.

End UnitDraws.

(* ================================================================= *)
(** ** Generators *)

Section Generators.

Lemma returns_ret {A} (a : A) (w : Gen.World) (P : A -> Gen.World -> Prop) :
  P a w -> returns (Gen.ret a) w P.
Proof. intro H. exact H. Qed.

Lemma returns_bind {A B} (m : Gen.M A) (k : A -> Gen.M B) (w : Gen.World)
      (P : B -> Gen.World -> Prop) :
  returns m w (fun a w' => returns (k a) w' P) ->
  returns (Gen.bind m k) w P.
Proof.
  unfold returns, Gen.bind. destruct (m w) as [[a w']|]; [|intros []].
  intro H. exact H.
Qed.

Lemma returns_weaken {A} (m : Gen.M A) (w : Gen.World)
      (P Q : A -> Gen.World -> Prop) :
  (forall a w', P a w' -> Q a w') -> returns m w P -> returns m w Q.
Proof.
  unfold returns. intros HPQ H. destruct (m w) as [[a w']|]; [|exact H].
  now apply HPQ.
Qed.

Lemma returns_exists {A} (m : Gen.M A) (w : Gen.World)
      (P : A -> Gen.World -> Prop) :
  returns m w P <-> exists a w', m w = Some (a, w') /\ P a w'.
Proof.
  unfold returns. split.
  - destruct (m w) as [[a w']|]; [|intros []]. intro H. now exists a, w'.
  - intros (a & w' & -> & H). exact H.
Qed.

Lemma returns_random (w : Gen.World) :
  fair w -> returns Gen.random w (fun r w' => unitDouble r /\ fair w').
Proof. intro H. split; [apply H | exact H]. Qed.

Lemma returns_now (w : Gen.World) :
  fair w -> returns Gen.now w (fun _ w' => fair w').
Proof. intro H. exact H. Qed.

Lemma index_Some {A} (a : list A) (i : Z) :
  (0 <= i < Z.of_nat (List.length a))%Z ->
  exists v, JsMath.index a i = Some v /\ In v a.
Proof.
  intros [H0 H1]. unfold JsMath.index.
  destruct (Z.ltb_spec i 0) as [?|_]; [lia|].
  destruct (nth_error a (Z.to_nat i)) as [v|] eqn:E.
  - exists v. split; [reflexivity|]. eapply nth_error_In, E.
  - apply nth_error_None in E. lia.
Qed.

(** A draw from a table of at most a hundred entries is one of them. *)
Lemma returns_pick (a : list string) (w : Gen.World) :
  fair w -> 0 < List.length a <= 100 ->
  returns (Stream.pick a) w (fun v w' => In v a /\ fair w').
Proof.
  intros Hw Ha. unfold Stream.pick. apply returns_bind.
  eapply returns_weaken; [|apply returns_random, Hw].
  intros r w' [Hr Hw'].
  destruct (index_Some a _ (floor_draw_range r _ Hr Ha)) as (v & -> & Hv).
  apply returns_ret. now split.
Qed.

End Generators.

(* ================================================================= *)
(** ** Keywords, requirements, locations and titles of the job search *)

Section SearchKeywords.

Lemma extractKeywords_In (description x : string) :
  In x (Stream.extractKeywords description) <->
  In x Stream.commonKeywords /\ includes (toLowerCase description) x = true.
Proof. unfold Stream.extractKeywords. apply filter_In. Qed.

End SearchKeywords.

(** X19. The search keywords of a description do not depend on its
    case, are never lost when text is put before or after it, come
    without repetition, and hold "java" whenever they hold
    "javascript", since a keyword is looked for anywhere in the text. *)
Theorem extractKeywords_substrings (before description after : string) :
  Stream.extractKeywords (toLowerCase description) =
    Stream.extractKeywords description /\
  incl (Stream.extractKeywords description)
       (Stream.extractKeywords (before ++ description ++ after)) /\
  NoDup (Stream.extractKeywords description) /\
  (In "javascript" (Stream.extractKeywords description) ->
   In "java" (Stream.extractKeywords description)).
Proof.
  split; [|split; [|split]].
  - unfold Stream.extractKeywords. now rewrite toLowerCase_idem.
  - intros x Hx. apply extractKeywords_In in Hx. destruct Hx as [Hx Hin].
    apply extractKeywords_In. split; [assumption|].
    rewrite !toLowerCase_app. now apply includes_extend.
  - unfold Stream.extractKeywords. apply NoDup_filter.
    apply distinct_NoDup. vm_compute. reflexivity.
  - intro H. apply extractKeywords_In in H. destruct H as [_ H].
    apply extractKeywords_In. split; [vm_compute; tauto|].
    apply includes_iff in H. destruct H as (pre & post & ->).
    apply includes_iff. exists pre, ("script" ++ post).
    reflexivity.
Qed.

(** X20. The requirements of a job are the four general ones, then
    the two of the first technology group its keywords ask for: the
    cap of six leaves no room for a second group. *)
Theorem requirements_first_group (keywords : list string) :
  let asks a b := JsMath.has a keywords || JsMath.has b keywords in
  Stream.generateRequirements keywords =
  (Stream.baseRequirements ++
   (if asks "react" "frontend" then
      [ "3+ years of experience with React and modern JavaScript";
        "Proficiency in TypeScript and CSS-in-JS solutions" ]
    else if asks "python" "backend" then
      [ "Strong Python skills with experience in Django or FastAPI";
        "Database design experience with PostgreSQL or MongoDB" ]
    else if asks "aws" "cloud" then
      [ "AWS certification or equivalent cloud platform experience";
        "Experience with infrastructure as code (Terraform, CloudFormation)" ]
    else if asks "ml" "data" then
      [ "Experience with ML frameworks (PyTorch, TensorFlow, scikit-learn)";
        "Strong statistical analysis and data visualization skills" ]
    else []))%list.
Proof.
  intro asks. unfold Stream.generateRequirements. subst asks. cbv beta.
  destruct (JsMath.has "react" keywords || JsMath.has "frontend" keywords);
  destruct (JsMath.has "python" keywords || JsMath.has "backend" keywords);
  destruct (JsMath.has "aws" keywords || JsMath.has "cloud" keywords);
  destruct (JsMath.has "ml" keywords || JsMath.has "data" keywords);
  reflexivity.
Qed.

(** X21. The locations offered for a description are never empty and
    are all from [LOCATIONS]; New York in the description decides
    them, else San Francisco, else "remote", which still offers the
    first five cities after the remote ones. *)
Theorem preferredLocations_precedence (description : string) :
  let text := toLowerCase description in
  let newYork := includes text "new york" || includes text "nyc" in
  let sanFrancisco := includes text "san francisco" || includes text "sf" in
  let offered := Stream.preferredLocationsOf description in
  0 < List.length offered <= 15 /\
  incl offered Stream.LOCATIONS /\
  offered =
    (if newYork then
       [ "New York, NY"; "Remote"; "Hybrid - New York"; "Remote (US)";
         "Remote (Worldwide)" ]
     else if sanFrancisco then
       [ "San Francisco, CA"; "Remote"; "Hybrid - San Francisco";
         "Remote (US)"; "Remote (Worldwide)" ]
     else if includes text "remote" then
       [ "Remote"; "Remote (US)"; "Remote (Worldwide)";
         "San Francisco, CA"; "New York, NY"; "Seattle, WA"; "Austin, TX";
         "Boston, MA" ]
     else Stream.LOCATIONS).
Proof.
  intros text newYork sanFrancisco offered.
  subst offered newYork sanFrancisco. unfold Stream.preferredLocationsOf.
  fold text.
  destruct (includes text "new york" || includes text "nyc");
  destruct (includes text "san francisco" || includes text "sf");
  destruct (includes text "remote");
  (split; [vm_compute; lia | split; [|reflexivity]]);
  intros x Hx; vm_compute in Hx; vm_compute; tauto.
Qed.

Section Titles.

Lemma levelsFor_levels (keywords : list string) :
  incl (levelsFor keywords) Stream.levels.
Proof.
  unfold levelsFor.
  destruct (JsMath.has "lead" keywords);
  [|destruct (JsMath.has "junior" keywords);
    [|destruct (JsMath.has "senior" keywords)]];
  intros x Hx; vm_compute in Hx; vm_compute; tauto.
Qed.

Lemma rolesFor_roles (keywords : list string) :
  incl (rolesFor keywords) Stream.roles.
Proof.
  unfold rolesFor.
  repeat match goal with
         | |- context [if ?b then _ else _] => destruct b
         end;
  intros x Hx; vm_compute in Hx; vm_compute; tauto.
Qed.

Lemma generateJobTitle_returns (keywords : list string) (w : Gen.World) :
  fair w ->
  returns (Stream.generateJobTitle keywords) w
    (fun title w' =>
       (exists level role,
          title = level ++ " " ++ role /\
          In level (levelsFor keywords) /\ In role (rolesFor keywords)) /\
       fair w').
Proof.
  intro Hw. unfold Stream.generateJobTitle.
  apply returns_bind.
  eapply returns_weaken; [|apply returns_pick; [exact Hw | vm_compute; lia]].
  intros role0 w1 [Hrole Hw1]. apply returns_bind.
  eapply returns_weaken; [|apply returns_pick; [exact Hw1 | vm_compute; lia]].
  intros level0 w2 [Hlevel Hw2]. apply returns_bind.
  assert (Hl : In (if JsMath.has "lead" keywords then "Lead"
                   else if JsMath.has "junior" keywords then "Junior"
                   else if JsMath.has "senior" keywords then "Senior"
                   else level0) (levelsFor keywords)).
  { unfold levelsFor.
    destruct (JsMath.has "lead" keywords); [now left|].
    destruct (JsMath.has "junior" keywords); [now left|].
    destruct (JsMath.has "senior" keywords); [now left|]. exact Hlevel. }
  unfold rolesFor.
  destruct (JsMath.has "data" keywords).
  - apply returns_bind.
    eapply returns_weaken; [|apply returns_random, Hw2].
    intros r w3 [_ Hw3]. apply returns_ret, returns_ret.
    split; [|exact Hw3]. eexists _, _. split; [reflexivity|].
    split; [exact Hl|].
    destruct (JsMath.has "designer" keywords); [now left|].
    destruct (JsMath.has "product" keywords && JsMath.has "manager" keywords);
      [now left|].
    destruct (JsMath.has "devops" keywords); [now left|].
    destruct (JsMath.has "ml" keywords || JsMath.has "machine learning" keywords);
      [now left|].
    destruct (Qlt_le_dec (1 # 2) r); [now left | now right; left].
  - apply returns_ret, returns_ret.
    split; [|exact Hw2]. eexists _, _. split; [reflexivity|].
    split; [exact Hl|].
    destruct (JsMath.has "designer" keywords); [now left|].
    destruct (JsMath.has "product" keywords && JsMath.has "manager" keywords);
      [now left|].
    destruct (JsMath.has "devops" keywords); [now left|].
    destruct (JsMath.has "ml" keywords || JsMath.has "machine learning" keywords);
      [now left|].
    destruct (JsMath.has "fullstack" keywords); [now left|].
    destruct (JsMath.has "backend" keywords); [now left|].
    destruct (JsMath.has "frontend" keywords); [now left|]. exact Hrole.
Qed.

End Titles.

(* ================================================================= *)
(** ** [generateJobsForSource] *)

Section Rounds.

Lemma floor_draw_Z (r : Q) (n : Z) :
  unitDouble r -> (0 < n <= 100)%Z ->
  (0 <= JsMath.floor (r [*] ofZ n) < n)%Z.
Proof.
  intros Hr Hn.
  pose proof (floor_draw_range r (Z.to_nat n) Hr) as H.
  unfold ofLength in H. rewrite Z2Nat.id in H by lia.
  apply H. lia.
Qed.

Lemma generateJobAt_returns (keywords preferredLocations : list string)
      (src : Stream.JobSource) (startIndex : nat)
      (parsedResume : option ParsedResume) (linkedinUrl : option string)
      (i : nat) (w : Gen.World) :
  fair w -> 0 < List.length preferredLocations <= 100 ->
  returns (Stream.generateJobAt keywords preferredLocations src startIndex
                                parsedResume linkedinUrl i) w
    (fun job w' =>
       madeBy keywords preferredLocations src startIndex parsedResume
              linkedinUrl i job /\ fair w').
Proof.
  intros Hw Hlocs. unfold Stream.generateJobAt.
  apply returns_bind.
  eapply returns_weaken; [|apply returns_pick; [exact Hw | vm_compute; lia]].
  intros company w1 [Hcompany Hw1]. apply returns_bind.
  eapply returns_weaken; [|apply generateJobTitle_returns, Hw1].
  intros title w2 [Htitle Hw2]. apply returns_bind.
  eapply returns_weaken; [|apply returns_pick; [exact Hw2 | exact Hlocs]].
  intros location w3 [Hlocation Hw3]. apply returns_bind.
  eapply returns_weaken; [|apply returns_pick; [exact Hw3 | vm_compute; lia]].
  intros salary w4 [Hsalary Hw4]. apply returns_bind.
  eapply returns_weaken; [|apply returns_pick; [exact Hw4 | vm_compute; lia]].
  intros type w5 [Htype Hw5]. apply returns_bind.
  eapply returns_weaken; [|apply returns_random, Hw5].
  intros r w6 [Hr Hw6]. apply returns_bind.
  assert (Hdefault : (70 <= JsMath.floor (r [*] ofZ 30) + 70 <= 99)%Z).
  { pose proof (floor_draw_Z r 30 Hr ltac:(lia)). lia. }
  assert (Hrest : forall (scored : option ResumeAnalysis * Z) (w7 : Gen.World),
            fair w7 ->
            fst scored =
              option_map
                (fun resume =>
                   analyzeResumeForJob resume title
                     (Stream.jobDescriptionOf title company)
                     (Stream.generateRequirements keywords))
                (Stream.usable parsedResume) ->
            match fst scored with
            | Some analysis =>
                exists r,
                  unitDouble r /\
                  snd scored =
                  Z.max 40
                    (Z.min 99
                       (round (ofZ (resumeScore analysis) [*] rnd (7 # 10) [+]
                               r [*] ofZ 30)))
            | None => (70 <= snd scored <= 99)%Z
            end ->
            returns
              (stamp <- Gen.now ;;
               days <- Gen.random ;;
               resumeFeedback <-
                 Stream.generateResumeFeedback title company keywords ;;
               linkedInFeedback <- Stream.generateLinkedInFeedback ;;
               Gen.ret
                 (Stream.mkJob
                    ("job-" ++ ofNat (startIndex + i + 1) ++ "-" ++
                     JsMath.ofInt stamp)
                    title company location salary type
                    (Stream.name src) (Stream.icon src)
                    (Stream.jobDescriptionOf title company)
                    (Stream.generateRequirements keywords)
                    (JsMath.ofInt (JsMath.floor (days [*] ofZ 14) + 1) ++
                     " days ago")
                    ("https://careers." ++
                     replaceGlobal whiteSpaceRuns "" (toLowerCase company) ++
                     ".com/jobs/" ++ ofNat (startIndex + i + 1))
                    (snd scored)
                    resumeFeedback linkedInFeedback
                    (fst scored)
                    match Stream.given linkedinUrl with
                    | Some url =>
                        Some (analyzeLinkedInProfile url title
                                (Stream.jobDescriptionOf title company)
                                (Stream.generateRequirements keywords)
                                (fst scored))
                    | None => None
                    end)) w7
              (fun job w' =>
                 madeBy keywords preferredLocations src startIndex
                        parsedResume linkedinUrl i job /\ fair w')).
  { intros scored w7 Hw7 Hanalysis Hscore. apply returns_bind.
    eapply returns_weaken; [|apply returns_now, Hw7].
    intros stamp w8 Hw8. apply returns_bind.
    eapply returns_weaken; [|apply returns_random, Hw8].
    intros days w9 [Hdays Hw9]. apply returns_bind.
    unfold Stream.generateResumeFeedback.
    eapply returns_weaken; [|apply returns_pick; [exact Hw9 | simpl; lia]].
    intros resumeFeedback w10 [HresumeFeedback Hw10]. apply returns_bind.
    unfold Stream.generateLinkedInFeedback.
    eapply returns_weaken; [|apply returns_pick; [exact Hw10 | simpl; lia]].
    intros linkedInFeedback w11 [HlinkedInFeedback Hw11]. apply returns_ret.
    split; [|exact Hw11].
    constructor; cbn [Stream.id Stream.title Stream.company Stream.location
                      Stream.salary Stream.type Stream.source
                      Stream.sourceIcon Stream.description
                      Stream.requirements Stream.postedDate
                      Stream.applicationUrl Stream.matchScore
                      Stream.resumeFeedback Stream.linkedInFeedback
                      Stream.resumeAnalysis Stream.linkedinAnalysis];
      try assumption; try reflexivity.
    - now exists stamp.
    - exists (JsMath.floor (days [*] ofZ 14) + 1)%Z. split; [|reflexivity].
      pose proof (floor_draw_Z days 14 Hdays ltac:(lia)). lia. }
  destruct (Stream.usable parsedResume) as [resume|] eqn:Husable.
  - apply returns_bind.
    eapply returns_weaken; [|apply returns_random, Hw6].
    intros r2 w7 [Hr2 Hw7]. apply returns_ret.
    apply Hrest; [exact Hw7 | reflexivity |].
    cbn [fst snd]. now exists r2.
  - apply returns_ret. apply Hrest; [exact Hw6 | reflexivity | exact Hdefault].
Qed.

Lemma generateJobsFrom_returns (round : nat -> Gen.M Stream.Job)
      (P : nat -> Stream.Job -> Prop) :
  (forall i w, fair w -> returns (round i) w (fun job w' => P i job /\ fair w')) ->
  forall rounds i w,
    fair w ->
    returns (Stream.generateJobsFrom round i rounds) w
      (fun jobs w' =>
         List.length jobs = rounds /\
         (forall k job, nth_error jobs k = Some job -> P (i + k) job) /\
         fair w').
Proof.
  intros Hround rounds. induction rounds as [|rounds IH]; intros i w Hw.
  - apply returns_ret. split; [reflexivity|]. split; [|exact Hw].
    intros [|k] job H; discriminate.
  - cbn [Stream.generateJobsFrom]. apply returns_bind.
    eapply returns_weaken; [|apply Hround, Hw].
    intros job w1 [Hjob Hw1]. apply returns_bind.
    eapply returns_weaken; [|apply IH, Hw1].
    intros jobs w2 (Hlen & Hjobs & Hw2). apply returns_ret.
    split; [simpl; now rewrite Hlen|]. split; [|exact Hw2].
    intros [|k] job' H; simpl in H.
    + injection H as <-. now rewrite Nat.add_0_r.
    + replace (i + S k) with (S i + k) by lia. now apply Hjobs.
Qed.

Lemma preferredLocationsOf_length (description : string) :
  0 < List.length (Stream.preferredLocationsOf description) <= 100.
Proof.
  unfold Stream.preferredLocationsOf.
  set (text := toLowerCase description).
  destruct (includes text "new york" || includes text "nyc");
  destruct (includes text "san francisco" || includes text "sf");
  destruct (includes text "remote"); vm_compute; lia.
Qed.

(** Every call gives [count] jobs, each made by its round. *)
Lemma generateJobsForSource_made (description : string)
      (src : Stream.JobSource) (startIndex count : nat)
      (parsedResume : option ParsedResume) (linkedinUrl : option string)
      (w : Gen.World) :
  fair w ->
  exists jobs w',
    Stream.generateJobsForSource description src startIndex count
                                 parsedResume linkedinUrl w = Some (jobs, w') /\
    List.length jobs = count /\
    forall i job,
      nth_error jobs i = Some job ->
      madeBy (Stream.extractKeywords description)
             (Stream.preferredLocationsOf description)
             src startIndex parsedResume linkedinUrl i job.
Proof.
  intro Hw. unfold Stream.generateJobsForSource.
  pose proof (generateJobsFrom_returns
                (Stream.generateJobAt (Stream.extractKeywords description)
                   (Stream.preferredLocationsOf description) src startIndex
                   parsedResume linkedinUrl)
                (madeBy (Stream.extractKeywords description)
                   (Stream.preferredLocationsOf description) src startIndex
                   parsedResume linkedinUrl)) as H.
  specialize (H (fun i w0 Hw0 =>
                   generateJobAt_returns _ _ _ _ _ _ i w0 Hw0
                     (preferredLocationsOf_length description))
                count 0 w Hw).
  apply returns_exists in H. destruct H as (jobs & w' & E & Hlen & Hjobs & _).
  exists jobs, w'. split; [exact E|]. split; [exact Hlen|].
  intros i job Hi. exact (Hjobs i job Hi).
Qed.

End Rounds.

Section Worlds.

Lemma unitDouble_quarter : unitDouble (1 # 4).
Proof.
  split; [|split].
  - vm_compute. discriminate.
  - vm_compute. reflexivity.
  - vm_compute. reflexivity.
Qed.

Lemma fair_steady (r : Q) (t : Z) : unitDouble r -> fair (steady r t).
Proof. intros H n. exact H. Qed.

End Worlds.

(** X22. Drawing from a table of one to a hundred entries gives one of
    its entries and uses one result of [Math.random()]; from an empty
    table nothing is read. *)
Theorem pick_in_table (a : list string) (w : Gen.World) :
  fair w ->
  (a = [] -> Stream.pick a w = None) /\
  (0 < List.length a <= 100 ->
   exists v w',
     Stream.pick a w = Some (v, w') /\ In v a /\
     Gen.drawn w' = S (Gen.drawn w)).
Proof.
  intro Hw. split.
  - intros ->. unfold Stream.pick, Gen.bind, Gen.random. cbn [List.length].
    assert (E : Gen.draws w (Gen.drawn w) [*] ofLength 0 = 0%Q).
    { destruct (Gen.draws w (Gen.drawn w)) as [n d].
      unfold mul, ofLength, ofZ, rnd, Qcompare. cbn.
      now rewrite Z.mul_0_r. }
    now rewrite E.
  - intro Ha. unfold Stream.pick, Gen.bind, Gen.random.
    destruct (index_Some a _ (floor_draw_range _ _ (Hw (Gen.drawn w)) Ha))
      as (v & -> & Hv).
    exists v. eexists. split; [reflexivity|]. split; [exact Hv | reflexivity].
Qed.

Lemma pick_in_table_witness :
  exists v w',
    Stream.pick Stream.JOB_TYPES (steady (1 # 4) 0) = Some (v, w') /\
    In v Stream.JOB_TYPES /\ Gen.drawn w' = 1.
Proof.
  apply (pick_in_table Stream.JOB_TYPES (steady (1 # 4) 0)).
  - apply fair_steady, unitDouble_quarter.
  - simpl. lia.
Defined.

(** X23. A title is a level, a space and a role, both from the tables
    of [generateJobTitle]; a keyword that names a level or a role
    decides it, the later assignment winning: lead before junior
    before senior, and designer before product manager before devops
    before machine learning before data before fullstack before
    backend before frontend. *)
Theorem title_levels_and_roles (keywords : list string) (w : Gen.World) :
  fair w ->
  exists title w',
    Stream.generateJobTitle keywords w = Some (title, w') /\
    exists level role,
      title = level ++ " " ++ role /\
      In level (levelsFor keywords) /\ In role (rolesFor keywords) /\
      In level Stream.levels /\ In role Stream.roles.
Proof.
  intro Hw.
  pose proof (generateJobTitle_returns keywords w Hw) as H.
  apply returns_exists in H.
  destruct H as (title & w' & E & (level & role & Ht & Hl & Hr) & _).
  exists title, w'. split; [exact E|]. exists level, role.
  split; [exact Ht|]. split; [exact Hl|]. split; [exact Hr|].
  split; [exact (levelsFor_levels _ _ Hl) | exact (rolesFor_roles _ _ Hr)].
Qed.

Lemma title_levels_and_roles_witness :
  exists title w',
    Stream.generateJobTitle ["designer"; "senior"; "lead"]
                            (steady (1 # 4) 0) = Some (title, w') /\
    exists level role,
      title = level ++ " " ++ role /\
      In level ["Lead"] /\ In role ["Product Designer"] /\
      In level Stream.levels /\ In role Stream.roles.
Proof.
  apply (title_levels_and_roles ["designer"; "senior"; "lead"]
                                (steady (1 # 4) 0)).
  apply fair_steady, unitDouble_quarter.
Defined.

(* ================================================================= *)
(** ** The jobs of one source *)

Section JobFacts.

Lemma preferredLocationsOf_incl (description : string) :
  incl (Stream.preferredLocationsOf description) Stream.LOCATIONS.
Proof.
  unfold Stream.preferredLocationsOf.
  set (text := toLowerCase description).
  destruct (includes text "new york" || includes text "nyc");
  destruct (includes text "san francisco" || includes text "sf");
  destruct (includes text "remote");
  intros x Hx; vm_compute in Hx; vm_compute; tauto.
Qed.

Lemma hasProfileOf_allWhiteSpace (linkedinUrl : string) :
  hasProfileOf linkedinUrl = negb (allWhiteSpace linkedinUrl).
Proof.
  destruct (allWhiteSpace linkedinUrl) eqn:E.
  - now apply hasProfileOf_blank.
  - apply hasProfileOf_trimmed. intro H. apply trim_empty_iff in H. congruence.
Qed.

Lemma usable_None (parsedResume : option ParsedResume) :
  Stream.usable parsedResume = None <->
  match parsedResume with
  | Some resume => rawText resume = ""
  | None => True
  end.
Proof.
  unfold Stream.usable. destruct parsedResume as [resume|]; [|tauto].
  destruct (rawText resume); simpl; split; intro H;
    first [reflexivity | discriminate].
Qed.

Lemma given_None (linkedinUrl : option string) :
  Stream.given linkedinUrl = None <->
  match linkedinUrl with
  | Some url => allWhiteSpace url = true
  | None => True
  end.
Proof.
  unfold Stream.given. destruct linkedinUrl as [url|]; [|tauto].
  rewrite hasProfileOf_allWhiteSpace.
  destruct (allWhiteSpace url); simpl; split; intro H;
    first [reflexivity | discriminate].
Qed.

Lemma given_Some (linkedinUrl : option string) (url : string) :
  Stream.given linkedinUrl = Some url -> hasProfileOf url = true.
Proof.
  unfold Stream.given. destruct linkedinUrl as [u|]; [|discriminate].
  destruct (hasProfileOf u) eqn:E; [|discriminate].
  intro H. injection H as <-. exact E.
Qed.

Lemma blend_table :
  forallb
    (fun n =>
       let s := Z.of_nat n in
       (7 * s - 5 <=? 10 * round (ofZ s [*] rnd (7 # 10) [+] 0))%Z &&
       (10 * round (ofZ s [*] rnd (7 # 10) [+]
                    (1 - pow2 (-53)) [*] ofZ 30) <=? 7 * s + 305)%Z)
    (seq 0 101) = true.
Proof. vm_compute. reflexivity. Qed.

(** The blend of a resume score with a draw stays within half a point
    of seven tenths of the score, and of thirty points more. *)
Lemma blend_bounds (r : Q) (s : Z) :
  unitDouble r -> (0 <= s <= 100)%Z ->
  let blended := round (ofZ s [*] rnd (7 # 10) [+] r [*] ofZ 30) in
  (7 * s - 5 <= 10 * blended <= 7 * s + 305)%Z.
Proof.
  intros Hr Hs blended.
  assert (Hin : In (Z.to_nat s) (seq 0 101)) by (apply in_seq; lia).
  pose proof (proj1 (forallb_forall _ _) blend_table _ Hin) as Hb.
  cbv beta zeta in Hb. rewrite Z2Nat.id in Hb by lia.
  apply andb_prop in Hb. destruct Hb as [Hlo Hhi].
  apply Z.leb_le in Hlo. apply Z.leb_le in Hhi.
  assert (H30 : (0 <= ofZ 30)%Q) by (vm_compute; discriminate).
  assert (Hlow : (round (ofZ s [*] rnd (7 # 10) [+] 0) <= blended)%Z).
  { apply round_mono, add_mono; [apply Qle_refl|].
    apply mul_nonneg; [apply Hr | exact H30]. }
  assert (Hhigh : (blended <=
                   round (ofZ s [*] rnd (7 # 10) [+]
                          (1 - pow2 (-53)) [*] ofZ 30))%Z).
  { apply round_mono, add_mono; [apply Qle_refl|].
    apply mul_mono_l; [exact H30 | apply unitDouble_le, Hr]. }
  lia.
Qed.






End JobFacts.

(** X24. For any description, source, numbering, resume and profile
    reference, [generateJobsForSource] gives exactly [count] jobs
    when the draws are results of [Math.random()], and no field of a
    job is read past the end of a table: the job carries the name and
    icon of the source, a company, a location, a salary and a type of
    the tables, the requirements of the description's keywords, a
    title made of a level and a role, the description written for
    that title and company, and an age of one to fourteen days. *)
Theorem jobs_generated (description : string) (src : Stream.JobSource)
        (startIndex count : nat)
        (parsedResume : option ParsedResume) (linkedinUrl : option string)
        (w : Gen.World) :
  fair w ->
  exists jobs w',
    Stream.generateJobsForSource description src startIndex count
                                 parsedResume linkedinUrl w = Some (jobs, w') /\
    List.length jobs = count /\
    forall job,
      In job jobs ->
      Stream.source job = Stream.name src /\
      Stream.sourceIcon job = Stream.icon src /\
      In (Stream.company job) Stream.allCompanies /\
      In (Stream.location job) Stream.LOCATIONS /\
      In (Stream.salary job) Stream.SALARY_RANGES /\
      In (Stream.type job) Stream.JOB_TYPES /\
      Stream.requirements job =
        Stream.generateRequirements (Stream.extractKeywords description) /\
      Stream.description job =
        Stream.jobDescriptionOf (Stream.title job) (Stream.company job) /\
      (exists level role,
         Stream.title job = level ++ " " ++ role /\
         In level Stream.levels /\ In role Stream.roles) /\
      (exists days,
         (1 <= days <= 14)%Z /\
         Stream.postedDate job = JsMath.ofInt days ++ " days ago").
Proof.
  intro Hw.
  destruct (generateJobsForSource_made description src startIndex count
              parsedResume linkedinUrl w Hw) as (jobs & w' & E & Hlen & Hmade).
  exists jobs, w'. split; [exact E|]. split; [exact Hlen|].
  intros job Hin. apply In_nth_error in Hin. destruct Hin as [i Hi].
  destruct (Hmade i job Hi).
  split; [assumption|]. split; [assumption|]. split; [assumption|].
  split; [now apply (preferredLocationsOf_incl description)|].
  split; [assumption|]. split; [assumption|]. split; [assumption|].
  split; [assumption|]. split; [|assumption].
  destruct made_title0 as (level & role & Ht & Hl & Hr).
  exists level, role. split; [exact Ht|].
  split; [exact (levelsFor_levels _ _ Hl) | exact (rolesFor_roles _ _ Hr)].
Qed.

Lemma jobs_generated_witness :
  exists jobs w',
    Stream.generateJobsForSource "Senior React developer, remote"
      (Stream.mkJobSource "LinkedIn" "in" 1200) 0 7 None None
      (steady (1 # 4) 1700000000000) = Some (jobs, w') /\
    List.length jobs = 7.
Proof.
  destruct (jobs_generated "Senior React developer, remote"
              (Stream.mkJobSource "LinkedIn" "in" 1200) 0 7 None None
              (steady (1 # 4) 1700000000000)
              (fair_steady _ _ unitDouble_quarter))
    as (jobs & w' & E & Hlen & _).
  exists jobs, w'. split; [exact E | exact Hlen].
Defined.

(** X25. The match score of a generated job is between 40 and 99.
    Without a usable resume it is at least 70.  With one it follows
    the resume score: never less than seven tenths of it (less half a
    point), and, when above the floor of 40, never more than that plus
    thirty and a half. *)
Theorem match_scores (description : string) (src : Stream.JobSource)
        (startIndex count : nat)
        (parsedResume : option ParsedResume) (linkedinUrl : option string)
        (w : Gen.World) :
  fair w ->
  exists jobs w',
    Stream.generateJobsForSource description src startIndex count
                                 parsedResume linkedinUrl w = Some (jobs, w') /\
    forall job,
      In job jobs ->
      (40 <= Stream.matchScore job <= 99)%Z /\
      (Stream.resumeAnalysis job = None ->
       (70 <= Stream.matchScore job)%Z) /\
      (forall analysis,
         Stream.resumeAnalysis job = Some analysis ->
         (7 * resumeScore analysis - 5 <= 10 * Stream.matchScore job)%Z /\
         ((40 < Stream.matchScore job)%Z ->
          (10 * Stream.matchScore job <= 7 * resumeScore analysis + 305)%Z)).
Proof.
  intro Hw.
  destruct (generateJobsForSource_made description src startIndex count
              parsedResume linkedinUrl w Hw) as (jobs & w' & E & _ & Hmade).
  exists jobs, w'. split; [exact E|].
  intros job Hin. apply In_nth_error in Hin. destruct Hin as [i Hi].
  pose proof (Hmade i job Hi) as Hjob.
  pose proof (made_matchScore _ _ _ _ _ _ _ _ Hjob) as Hscore.
  pose proof (made_resumeAnalysis _ _ _ _ _ _ _ _ Hjob) as Hanalysis.
  destruct (Stream.resumeAnalysis job) as [analysis|].
  - destruct Hscore as (r & Hr & Hm).
    assert (Hrange : (0 <= resumeScore analysis <= 100)%Z).
    { destruct (Stream.usable parsedResume) as [resume|]; [|discriminate].
      injection Hanalysis as ->. apply analyzeResumeForJob_score_range. }
    pose proof (blend_bounds r (resumeScore analysis) Hr Hrange) as Hb.
    cbv zeta in Hb.
    split; [lia|]. split; [discriminate|].
    intros analysis' H. injection H as <-. lia.
  - split; [lia|]. split; [intros _; lia|]. discriminate.
Qed.

Lemma match_scores_witness :
  exists jobs w',
    Stream.generateJobsForSource "python backend engineer"
      (Stream.mkJobSource "Indeed" "i" 1000) 7 3
      (Some (parseResumeText "Built Python services; cut costs by 40%"))
      None (steady (1 # 4) 1700000000000) = Some (jobs, w') /\
    forall job, In job jobs -> (40 <= Stream.matchScore job <= 99)%Z.
Proof.
  destruct (match_scores "python backend engineer"
              (Stream.mkJobSource "Indeed" "i" 1000) 7 3
              (Some (parseResumeText "Built Python services; cut costs by 40%"))
              None (steady (1 # 4) 1700000000000)
              (fair_steady _ _ unitDouble_quarter))
    as (jobs & w' & E & H).
  exists jobs, w'. split; [exact E|].
  intros job Hin. exact (proj1 (H job Hin)).
Defined.

(** X26. A generated job carries a resume analysis exactly when a
    resume with text was given, and a profile analysis exactly when
    the profile reference has a character that is not white space.
    So the profile analysis of a job never reports a missing profile:
    its summary feedback has its three entries, its score is at least
    25, and at least 50 when no resume is analysed with it. *)
Theorem analyses_attached (description : string) (src : Stream.JobSource)
        (startIndex count : nat)
        (parsedResume : option ParsedResume) (linkedinUrl : option string)
        (w : Gen.World) :
  fair w ->
  exists jobs w',
    Stream.generateJobsForSource description src startIndex count
                                 parsedResume linkedinUrl w = Some (jobs, w') /\
    forall job,
      In job jobs ->
      (Stream.resumeAnalysis job = None <->
       match parsedResume with
       | Some resume => rawText resume = ""
       | None => True
       end) /\
      (Stream.linkedinAnalysis job = None <->
       match linkedinUrl with
       | Some url => allWhiteSpace url = true
       | None => True
       end) /\
      (forall profile,
         Stream.linkedinAnalysis job = Some profile ->
         LinkedIn.overallFeedback profile <> missingProfileFeedback /\
         List.length (LinkedIn.summaryFeedback profile) = 3 /\
         (25 <= LinkedIn.linkedinScore profile <= 100)%Z /\
         (Stream.resumeAnalysis job = None ->
          (50 <= LinkedIn.linkedinScore profile)%Z)).
Proof.
  intro Hw.
  destruct (generateJobsForSource_made description src startIndex count
              parsedResume linkedinUrl w Hw) as (jobs & w' & E & _ & Hmade).
  exists jobs, w'. split; [exact E|].
  intros job Hin. apply In_nth_error in Hin. destruct Hin as [i Hi].
  pose proof (Hmade i job Hi) as Hjob.
  pose proof (made_resumeAnalysis _ _ _ _ _ _ _ _ Hjob) as Hresume.
  pose proof (made_linkedinAnalysis _ _ _ _ _ _ _ _ Hjob) as Hprofile.
  split; [|split].
  - rewrite <- usable_None, Hresume.
    destruct (Stream.usable parsedResume); simpl; split; intro H;
      first [reflexivity | discriminate].
  - rewrite <- given_None, Hprofile.
    destruct (Stream.given linkedinUrl); simpl; split; intro H;
      first [reflexivity | discriminate].
  - intros profile Hp. rewrite Hp in Hprofile.
    destruct (Stream.given linkedinUrl) as [url|] eqn:Hgiven; [|discriminate].
    apply given_Some in Hgiven. injection Hprofile as ->.
    unfold analyzeLinkedInProfile.
    cbn [LinkedIn.overallFeedback LinkedIn.summaryFeedback
         LinkedIn.linkedinScore].
    rewrite Hgiven. cbn [negb].
    split; [|split; [reflexivity|]].
    + unfold linkedinBand. cbn [negb].
      destruct (80 <=? _)%Z; [discriminate|].
      destruct (60 <=? _)%Z; discriminate.
    + destruct (Stream.resumeAnalysis job) as [analysis|].
      * split; [|discriminate].
        apply linkedinScoreOf_blended.
        destruct (Stream.usable parsedResume) as [resume|]; [|discriminate].
        injection Hresume as ->. apply analyzeResumeForJob_score_range.
      * pose proof (linkedinScoreOf_alone url) as H.
        split; [lia | intros _; lia].
Qed.

Lemma analyses_attached_witness :
  exists jobs w',
    Stream.generateJobsForSource "data analyst in New York"
      (Stream.mkJobSource "Glassdoor" "g" 1100) 14 2
      (Some (parseResumeText ""))
      (Some "https://www.linkedin.com/in/jane-doe")
      (steady (1 # 4) 1700000000000) = Some (jobs, w') /\
    forall job,
      In job jobs ->
      Stream.resumeAnalysis job = None /\ Stream.linkedinAnalysis job <> None.
Proof.
  destruct (analyses_attached "data analyst in New York"
              (Stream.mkJobSource "Glassdoor" "g" 1100) 14 2
              (Some (parseResumeText ""))
              (Some "https://www.linkedin.com/in/jane-doe")
              (steady (1 # 4) 1700000000000)
              (fair_steady _ _ unitDouble_quarter))
    as (jobs & w' & E & H).
  exists jobs, w'. split; [exact E|].
  intros job Hin. destruct (H job Hin) as (Hr & Hp & _). split.
  - apply Hr. reflexivity.
  - intro Hnone. apply Hp in Hnone. vm_compute in Hnone. discriminate.
Defined.



(* ================================================================= *)
(** ** The host name of an application address *)

Section WhiteSpaceRuns.

Lemma spaces_iterated (fuel : nat) (s : string) :
  String.length s <= fuel ->
  iterateFrom (run false (One Space)) (fun rest => Some rest) fuel s =
  Some (trimStart s).
Proof.
  revert s. induction fuel as [|fuel IH]; intros s Hs.
  - destruct s; [reflexivity | simpl in Hs; lia].
  - destruct s as [|c s]; [reflexivity|].
    cbn [iterateFrom run accepts trimStart].
    destruct (isWhiteSpace c); [|reflexivity].
    cbn [String.length]. rewrite (proj2 (Nat.ltb_lt _ _) (Nat.lt_succ_diag_r _)).
    rewrite IH by (simpl in Hs; lia). reflexivity.
Qed.

(** A run of white space is matched whole. *)
Lemma matchHere_whiteSpaceRuns (s : string) :
  matchHere false (Plus (One Space)) s =
  match s with
  | String c r => if isWhiteSpace c then Some (trimStart r) else None
  | EmptyString => None
  end.
Proof.
  unfold matchHere. rewrite run_Plus.
  destruct s as [|c r]; [reflexivity|].
  cbn [run accepts]. destruct (isWhiteSpace c); [|reflexivity].
  now apply spaces_iterated.
Qed.

Lemma trimStart_length (s : string) :
  String.length (trimStart s) <= String.length s.
Proof.
  induction s as [|c s IH]; simpl; [lia|].
  destruct (isWhiteSpace c); simpl; lia.
Qed.

Lemma withoutWhiteSpace_trimStart (s : string) :
  withoutWhiteSpace (trimStart s) = withoutWhiteSpace s.
Proof.
  induction s as [|c s IH]; simpl; [reflexivity|].
  destruct (isWhiteSpace c) eqn:E; [exact IH|].
  simpl. now rewrite E.
Qed.

Lemma replaceFrom_whiteSpaceRuns (fuel : nat) (s : string) :
  String.length s < fuel ->
  replaceFrom false fuel (Plus (One Space)) "" s = withoutWhiteSpace s.
Proof.
  revert s. induction fuel as [|fuel IH]; intros s Hs; [lia|].
  cbn [replaceFrom]. rewrite matchHere_whiteSpaceRuns.
  destruct s as [|c r]; [reflexivity|].
  cbn [withoutWhiteSpace]. simpl in Hs.
  destruct (isWhiteSpace c).
  - pose proof (trimStart_length r) as Hr.
    assert (Hne : Nat.eqb (String.length (String c r) -
                           String.length (trimStart r)) 0 = false).
    { apply Nat.eqb_neq. cbn [String.length]. lia. }
    rewrite Hne. cbn [append]. rewrite IH by lia. apply withoutWhiteSpace_trimStart.
  - rewrite IH by lia. reflexivity.
Qed.

End WhiteSpaceRuns.

(** X28. Replacing the runs of white space of a text by nothing, as
    is done to the company name in the application address, leaves
    the text without its white space characters and nothing else
    changed: no white space is left, a text of white space only
    becomes empty, and a text without any stays as it is. *)
Theorem replace_removes_white_space (text : string) :
  let host := replaceGlobal whiteSpaceRuns "" text in
  host = withoutWhiteSpace text /\
  (forall before c after,
     host = before ++ String c after -> isWhiteSpace c = false) /\
  (allWhiteSpace text = true -> host = "") /\
  (forallb (fun c => negb (isWhiteSpace c)) (list_ascii_of_string text) = true ->
   host = text) /\
  String.length host <= String.length text.
Proof.
  intro host.
  assert (E : host = withoutWhiteSpace text).
  { subst host. unfold replaceGlobal, whiteSpaceRuns.
    cbn [ignoreCaseFlag source]. apply replaceFrom_whiteSpaceRuns. lia. }
  rewrite E. clear E host.
  split; [reflexivity|]. split; [|split; [|split]].
  - induction text as [|d text IH]; intros before c after H.
    + destruct before; discriminate.
    + simpl in H. destruct (isWhiteSpace d) eqn:Hd; [now apply IH in H|].
      destruct before as [|e before]; simpl in H.
      * injection H as <- _. exact Hd.
      * injection H as _ H. now apply IH in H.
  - induction text as [|d text IH]; simpl; [reflexivity|].
    intro H. apply andb_prop in H. destruct H as [Hd H].
    rewrite Hd. now apply IH.
  - induction text as [|d text IH]; simpl; [reflexivity|].
    intro H. apply andb_prop in H. destruct H as [Hd H].
    apply negb_true_iff in Hd. rewrite Hd. now rewrite IH.
  - induction text as [|d text IH]; simpl; [lia|].
    destruct (isWhiteSpace d); simpl; lia.
Qed.

(* ================================================================= *)
(** ** What the analyses read in a generated posting *)

Section PostingText.

Lemma startsWith_sep (c : ascii) (t a b : string) :
  lacks c t = true ->
  startsWith t (a ++ String c b) = startsWith t a.
Proof.
  revert a. induction t as [|y t IH]; intros a Ht; [reflexivity|].
  simpl in Ht. apply andb_prop in Ht. destruct Ht as [Hy Ht].
  destruct a as [|x a]; simpl.
  - apply negb_true_iff in Hy. now rewrite Hy.
  - now rewrite IH.
Qed.

(** A word without [c] lies on one side of a [c]. *)
Lemma includes_sep (c : ascii) (t a b : string) :
  lacks c t = true ->
  includes (a ++ String c b) t = includes a t || includes b t.
Proof.
  intro Ht. induction a as [|x a IH].
  - pose proof (startsWith_sep c t "" b Ht) as E.
    cbn [append] in *. cbn [includes]. rewrite E.
    destruct (startsWith t ""); reflexivity.
  - pose proof (startsWith_sep c t (String x a) b Ht) as E.
    cbn [append] in *. cbn [includes]. rewrite E, IH.
    now rewrite orb_assoc.
Qed.

Lemma posting_text (title company : string) (requirements : list string) :
  jobTextOf title (Stream.jobDescriptionOf title company) requirements =
  toLowerCase title ++
  String " " ("we are looking for a talented" ++
  String " " (toLowerCase title ++
  String " " ("to join our team at" ++
  String " " (toLowerCase company ++
  String "." (" you will work on cutting-edge projects and collaborate with world-class engineers to build products that impact millions of users." ++
  String " " (toLowerCase (join " " requirements))))))).
Proof.
  unfold jobTextOf, Stream.jobDescriptionOf.
  rewrite !toLowerCase_app, !append_assoc. reflexivity.
Qed.

Lemma posting_includes (title company : string) (requirements : list string)
      (t : string) :
  lacks " " t = true -> lacks "." t = true ->
  includes (jobTextOf title (Stream.jobDescriptionOf title company)
                      requirements) t =
  includes (toLowerCase title) t ||
  (includes "we are looking for a talented" t ||
   (includes (toLowerCase title) t ||
    (includes "to join our team at" t ||
     (includes (toLowerCase company) t ||
      (includes " you will work on cutting-edge projects and collaborate with world-class engineers to build products that impact millions of users." t ||
       includes (toLowerCase (join " " requirements)) t))))).
Proof.
  intros Hs Hd. rewrite posting_text.
  rewrite !(includes_sep " " t _ _ Hs).
  rewrite (includes_sep "." t _ _ Hd).
  rewrite !(includes_sep " " t _ _ Hs).
  reflexivity.
Qed.

Lemma generateRequirements_cases (keywords : list string) :
  In (Stream.generateRequirements keywords) requirementLists.
Proof.
  unfold Stream.generateRequirements.
  destruct (JsMath.has "react" keywords || JsMath.has "frontend" keywords);
  destruct (JsMath.has "python" keywords || JsMath.has "backend" keywords);
  destruct (JsMath.has "aws" keywords || JsMath.has "cloud" keywords);
  destruct (JsMath.has "ml" keywords || JsMath.has "data" keywords);
  vm_compute; tauto.
Qed.

Lemma titles_table :
  forallb
    (fun level =>
       forallb
         (fun role =>
            forallb
              (fun t =>
                 negb (includes (toLowerCase (level ++ " " ++ role)) t))
              unusedTriggers)
         Stream.roles)
    Stream.levels = true.
Proof. vm_compute. reflexivity. Qed.

Lemma companies_table :
  forallb
    (fun company =>
       forallb (fun t => negb (includes (toLowerCase company) t))
               unusedTriggers)
    Stream.allCompanies = true.
Proof. vm_compute. reflexivity. Qed.

Lemma title_unused (level role t : string) :
  In level Stream.levels -> In role Stream.roles -> In t unusedTriggers ->
  includes (toLowerCase (level ++ " " ++ role)) t = false.
Proof.
  intros Hl Hr Ht.
  pose proof (proj1 (forallb_forall _ _) titles_table level Hl) as H.
  cbv beta in H.
  pose proof (proj1 (forallb_forall _ _) H role Hr) as H'.
  cbv beta in H'.
  pose proof (proj1 (forallb_forall _ _) H' t Ht) as H''.
  cbv beta in H''. now apply negb_true_iff in H''.
Qed.

Lemma company_unused (company t : string) :
  In company Stream.allCompanies -> In t unusedTriggers ->
  includes (toLowerCase company) t = false.
Proof.
  intros Hc Ht.
  pose proof (proj1 (forallb_forall _ _) companies_table company Hc) as H.
  cbv beta in H.
  pose proof (proj1 (forallb_forall _ _) H t Ht) as H'.
  cbv beta in H'. now apply negb_true_iff in H'.
Qed.

End PostingText.

Section PostingFacts.

Variables (level role company : string) (keywords : list string).
Hypothesis Hlevel : In level Stream.levels.
Hypothesis Hrole : In role Stream.roles.
Hypothesis Hcompany : In company Stream.allCompanies.

Let title := level ++ " " ++ role.
Let jobText :=
  jobTextOf title (Stream.jobDescriptionOf title company)
            (Stream.generateRequirements keywords).

Lemma posting_unused (t : string) :
  In t unusedTriggers -> includes jobText t = false.
Proof.
  intro Ht. subst jobText.
  rewrite posting_includes
    by (destruct Ht as [<-|[<-|[<-|[<-|[]]]]]; reflexivity).
  subst title.
  rewrite (title_unused level role t Hlevel Hrole Ht).
  rewrite (company_unused company t Hcompany Ht).
  pose proof (generateRequirements_cases keywords) as HR.
  remember (Stream.generateRequirements keywords) as R eqn:ER. clear ER.
  unfold requirementLists in HR. cbn [map In] in HR.
  destruct Ht as [<-|[<-|[<-|[<-|[]]]]];
    destruct HR as [<-|[<-|[<-|[<-|[<-|[]]]]]]; vm_compute; reflexivity.
Qed.

Lemma posting_asks (t : string) :
  In t [ "team"; "user"; "project";
         "agile"; "excel"; "communication"; "problem-solving";
         "collaboration" ] ->
  includes jobText t = true.
Proof.
  intro Ht. subst jobText.
  rewrite posting_includes
    by (destruct Ht as [<-|[<-|[<-|[<-|[<-|[<-|[<-|[<-|[]]]]]]]]];
        reflexivity).
  pose proof (generateRequirements_cases keywords) as HR.
  remember (Stream.generateRequirements keywords) as R eqn:ER. clear ER.
  unfold requirementLists in HR. cbn [map In] in HR.
  destruct (includes (toLowerCase title) t);
    destruct (includes (toLowerCase company) t);
    destruct Ht as [<-|[<-|[<-|[<-|[<-|[<-|[<-|[<-|[]]]]]]]]];
    destruct HR as [<-|[<-|[<-|[<-|[<-|[]]]]]]; vm_compute; reflexivity.
Qed.

End PostingFacts.

(** X29. Whatever the description, every generated posting holds the
    words "agile", "excel" (in "Excellent communication"),
    "communication", "problem-solving" and "collaboration", so these
    five are always among the skills a resume is measured against;
    and of the words the metrics suggestions look for it holds "team",
    "user" and "project" but none of "performance", "optimization",
    "revenue" and "cost": a job analysed with a resume always comes
    with the same three suggestions. *)
Theorem generated_postings (description : string) (src : Stream.JobSource)
        (startIndex count : nat)
        (parsedResume : option ParsedResume) (linkedinUrl : option string)
        (w : Gen.World) :
  fair w ->
  exists jobs w',
    Stream.generateJobsForSource description src startIndex count
                                 parsedResume linkedinUrl w = Some (jobs, w') /\
    forall job,
      In job jobs ->
      incl [ "agile"; "excel"; "communication"; "problem-solving";
             "collaboration" ]
           (jobSkillsOf (jobTextOf (Stream.title job) (Stream.description job)
                                   (Stream.requirements job))) /\
      (forall analysis,
         Stream.resumeAnalysis job = Some analysis ->
         metricsSuggestions analysis =
         [ "Add team size you've managed or collaborated with (e.g., " ++ dq ++
           "Led a team of 8 engineers" ++ dq ++ ")";
           "Include user/customer impact (e.g., " ++ dq ++
           "Served 100K+ daily active users" ++ dq ++ ")";
           "Mention project delivery metrics (e.g., " ++ dq ++
           "Delivered 15 features ahead of schedule" ++ dq ++ ")" ]).
Proof.
  intro Hw.
  destruct (generateJobsForSource_made description src startIndex count
              parsedResume linkedinUrl w Hw) as (jobs & w' & E & _ & Hmade).
  exists jobs, w'. split; [exact E|].
  intros job Hin. apply In_nth_error in Hin. destruct Hin as [i Hi].
  pose proof (Hmade i job Hi) as Hjob.
  destruct (made_title _ _ _ _ _ _ _ _ Hjob) as (level & role & Ht & Hl & Hr).
  apply levelsFor_levels in Hl. apply rolesFor_roles in Hr.
  pose proof (made_company _ _ _ _ _ _ _ _ Hjob) as Hc.
  pose proof (made_resumeAnalysis _ _ _ _ _ _ _ _ Hjob) as Hresume.
  rewrite (made_description _ _ _ _ _ _ _ _ Hjob) in *.
  rewrite (made_requirements _ _ _ _ _ _ _ _ Hjob) in *.
  rewrite Ht in *.
  pose proof (posting_unused level role (Stream.company job)
                (Stream.extractKeywords description) Hl Hr Hc) as Hunused.
  pose proof (posting_asks level role (Stream.company job)
                (Stream.extractKeywords description)) as Hasks.
  split.
  - intros skill Hskill. rewrite jobSkillsOf_eq. apply filter_In. split.
    + apply existsb_eqb_In.
      destruct Hskill as [<-|[<-|[<-|[<-|[<-|[]]]]]]; vm_compute; reflexivity.
    + destruct Hskill as [<-|[<-|[<-|[<-|[<-|[]]]]]];
        apply Hasks; simpl; tauto.
  - intros analysis Ha. rewrite Ha in Hresume.
    destruct (Stream.usable parsedResume) as [resume|]; [|discriminate].
    injection Hresume as ->.
    unfold analyzeResumeForJob. cbn [metricsSuggestions].
    change (level ++ String " " role) with (level ++ " " ++ role).
    rewrite (Hasks "team"), (Hasks "user"), (Hasks "project")
      by (simpl; tauto).
    rewrite (Hunused "performance"), (Hunused "optimization"),
            (Hunused "revenue"), (Hunused "cost") by (simpl; tauto).
    reflexivity.
Qed.

Lemma generated_postings_witness :
  exists jobs w',
    Stream.generateJobsForSource "product manager"
      (Stream.mkJobSource "Tech Startups" "T" 1000) 35 2
      (Some (parseResumeText "Led a team of 8 engineers"))
      None (steady (1 # 4) 1700000000000) = Some (jobs, w') /\
    forall job,
      In job jobs ->
      In "excel"
         (jobSkillsOf (jobTextOf (Stream.title job) (Stream.description job)
                                 (Stream.requirements job))).
Proof.
  destruct (generated_postings "product manager"
              (Stream.mkJobSource "Tech Startups" "T" 1000) 35 2
              (Some (parseResumeText "Led a team of 8 engineers"))
              None (steady (1 # 4) 1700000000000)
              (fair_steady _ _ unitDouble_quarter))
    as (jobs & w' & E & H).
  exists jobs, w'. split; [exact E|].
  intros job Hin. apply (proj1 (H job Hin)). right. left. reflexivity.
Defined.
